(** * Timer and time-entry stores of the time tracker

    A shallow embedding of [frontend/src/lib/stores/timer.ts] (the timer
    store) and of the time-entries store, with the properties of their
    reconciliation logic.

    Conventions of the embedding:
    - an ISO-8601 timestamp string is the instant it denotes, in
      milliseconds since the epoch ([Z]); [new Date(s).getTime()] and
      [toISOString] are then the identity.  A calendar date ['YYYY-MM-DD']
      is the instant of its UTC midnight, a form time ['HH:MM'] the number
      of minutes after midnight;
    - a JS [number] is a binary64 floating-point number, represented by
      the rational it denotes ([Q]): [Double.round] takes a rational to the
      nearest such number, and a quotient of two numbers is their exact
      quotient rounded.  Time values are those of valid [Date]s, at most
      8.64e15 ms from the epoch, so that no number of the stores is [NaN]
      or infinite;
    - the time zone of the browser is the function [tzOffset] from a local
      time to its offset from UTC, which daylight saving makes a step
      function;
    - free text on which the code calls [trim] is a sequence of UTF-16 code
      units; identifiers are [string]s;
    - [localStorage], the remote API, the wall clock and the window event
      bus are made explicit: operations run in a small state monad over
      [St], read the clock and the remote replies from [Env], and record
      every effect in a trace;
    - the code runs in a browser ([window] is defined), and what is written
      to [localStorage] as JSON is read back unchanged. *)

From Stdlib Require Import ZArith QArith Qabs Qround Qminmax Qpower Lqa Sorted.
From Stdlib Require SpecFloat.
From stdpp Require Import base list strings pretty.

Local Open Scope Z_scope.

(** ** Data model ([types/index.ts]) *)

Inductive TimeEntryStatus := draft | submitted | approved | rejected.

Inductive BreakType := short_break | lunch | personal.

(** Free text: UTF-16 code units. *)
Definition text := list N.

Inductive ProjectStatus := active | on_hold | completed_ | cancelled.

(** The stores read only [id] and [billable] of a project. *)
Module Project.
Record t := mk {
  id : string;
  name : string;
  description : option text;
  department_id : string;
  client_id : option string;
  billable : bool;
  hourly_rate : option Q;
  budget_hours : option Q;
  status : ProjectStatus;
  start_date : option Z;
  end_date : option Z;
  created_at : Z;
  updated_at : Z;
}.
End Project.

Module BreakEntry.
Record t := mk {
  id : string;
  time_entry_id : string;
  break_type : BreakType;
  start_time : Z;
  end_time : option Z;
  paid : bool;
  notes : option text;
}.

(** Field updates, for [{ ...r, field: v }] and [r.field = v]. *)
Definition set_end_time (v : option Z) (r : t) : t :=
  {| id := id r; time_entry_id := time_entry_id r; break_type := break_type r; start_time := start_time r;
     end_time := v; paid := paid r; notes := notes r |}.
End BreakEntry.

Module TimeEntry.
Record t := mk {
  id : string;
  user_id : string;
  organization_id : string;
  date : Z;
  clock_in : Z;
  clock_out : option Z;
  break_entries : list BreakEntry.t;
  project_id : option string;
  department_id : option string;
  description : option text;
  billable : bool;
  status : TimeEntryStatus;
  regular_hours : Q;
  overtime_hours : Q;
  total_hours : Q;
  approval_notes : option text;
  approved_by : option string;
  approved_at : option Z;
  created_at : option Z;
  updated_at : Z;
}.

(** Field updates, for [{ ...r, field: v }] and [r.field = v]. *)
Definition set_clock_out (v : option Z) (r : t) : t :=
  {| id := id r; user_id := user_id r; organization_id := organization_id r; date := date r;
     clock_in := clock_in r; clock_out := v; break_entries := break_entries r; project_id := project_id r;
     department_id := department_id r; description := description r; billable := billable r; status := status r;
     regular_hours := regular_hours r; overtime_hours := overtime_hours r; total_hours := total_hours r; approval_notes := approval_notes r;
     approved_by := approved_by r; approved_at := approved_at r; created_at := created_at r; updated_at := updated_at r |}.

Definition set_break_entries (v : list BreakEntry.t) (r : t) : t :=
  {| id := id r; user_id := user_id r; organization_id := organization_id r; date := date r;
     clock_in := clock_in r; clock_out := clock_out r; break_entries := v; project_id := project_id r;
     department_id := department_id r; description := description r; billable := billable r; status := status r;
     regular_hours := regular_hours r; overtime_hours := overtime_hours r; total_hours := total_hours r; approval_notes := approval_notes r;
     approved_by := approved_by r; approved_at := approved_at r; created_at := created_at r; updated_at := updated_at r |}.

Definition set_project_id (v : option string) (r : t) : t :=
  {| id := id r; user_id := user_id r; organization_id := organization_id r; date := date r;
     clock_in := clock_in r; clock_out := clock_out r; break_entries := break_entries r; project_id := v;
     department_id := department_id r; description := description r; billable := billable r; status := status r;
     regular_hours := regular_hours r; overtime_hours := overtime_hours r; total_hours := total_hours r; approval_notes := approval_notes r;
     approved_by := approved_by r; approved_at := approved_at r; created_at := created_at r; updated_at := updated_at r |}.

Definition set_billable (v : bool) (r : t) : t :=
  {| id := id r; user_id := user_id r; organization_id := organization_id r; date := date r;
     clock_in := clock_in r; clock_out := clock_out r; break_entries := break_entries r; project_id := project_id r;
     department_id := department_id r; description := description r; billable := v; status := status r;
     regular_hours := regular_hours r; overtime_hours := overtime_hours r; total_hours := total_hours r; approval_notes := approval_notes r;
     approved_by := approved_by r; approved_at := approved_at r; created_at := created_at r; updated_at := updated_at r |}.

Definition set_description (v : option text) (r : t) : t :=
  {| id := id r; user_id := user_id r; organization_id := organization_id r; date := date r;
     clock_in := clock_in r; clock_out := clock_out r; break_entries := break_entries r; project_id := project_id r;
     department_id := department_id r; description := v; billable := billable r; status := status r;
     regular_hours := regular_hours r; overtime_hours := overtime_hours r; total_hours := total_hours r; approval_notes := approval_notes r;
     approved_by := approved_by r; approved_at := approved_at r; created_at := created_at r; updated_at := updated_at r |}.

Definition set_status (v : TimeEntryStatus) (r : t) : t :=
  {| id := id r; user_id := user_id r; organization_id := organization_id r; date := date r;
     clock_in := clock_in r; clock_out := clock_out r; break_entries := break_entries r; project_id := project_id r;
     department_id := department_id r; description := description r; billable := billable r; status := v;
     regular_hours := regular_hours r; overtime_hours := overtime_hours r; total_hours := total_hours r; approval_notes := approval_notes r;
     approved_by := approved_by r; approved_at := approved_at r; created_at := created_at r; updated_at := updated_at r |}.

Definition set_regular_hours (v : Q) (r : t) : t :=
  {| id := id r; user_id := user_id r; organization_id := organization_id r; date := date r;
     clock_in := clock_in r; clock_out := clock_out r; break_entries := break_entries r; project_id := project_id r;
     department_id := department_id r; description := description r; billable := billable r; status := status r;
     regular_hours := v; overtime_hours := overtime_hours r; total_hours := total_hours r; approval_notes := approval_notes r;
     approved_by := approved_by r; approved_at := approved_at r; created_at := created_at r; updated_at := updated_at r |}.

Definition set_overtime_hours (v : Q) (r : t) : t :=
  {| id := id r; user_id := user_id r; organization_id := organization_id r; date := date r;
     clock_in := clock_in r; clock_out := clock_out r; break_entries := break_entries r; project_id := project_id r;
     department_id := department_id r; description := description r; billable := billable r; status := status r;
     regular_hours := regular_hours r; overtime_hours := v; total_hours := total_hours r; approval_notes := approval_notes r;
     approved_by := approved_by r; approved_at := approved_at r; created_at := created_at r; updated_at := updated_at r |}.

Definition set_total_hours (v : Q) (r : t) : t :=
  {| id := id r; user_id := user_id r; organization_id := organization_id r; date := date r;
     clock_in := clock_in r; clock_out := clock_out r; break_entries := break_entries r; project_id := project_id r;
     department_id := department_id r; description := description r; billable := billable r; status := status r;
     regular_hours := regular_hours r; overtime_hours := overtime_hours r; total_hours := v; approval_notes := approval_notes r;
     approved_by := approved_by r; approved_at := approved_at r; created_at := created_at r; updated_at := updated_at r |}.

Definition set_updated_at (v : Z) (r : t) : t :=
  {| id := id r; user_id := user_id r; organization_id := organization_id r; date := date r;
     clock_in := clock_in r; clock_out := clock_out r; break_entries := break_entries r; project_id := project_id r;
     department_id := department_id r; description := description r; billable := billable r; status := status r;
     regular_hours := regular_hours r; overtime_hours := overtime_hours r; total_hours := total_hours r; approval_notes := approval_notes r;
     approved_by := approved_by r; approved_at := approved_at r; created_at := created_at r; updated_at := v |}.
End TimeEntry.

(** [Partial<TimeEntry>]: [None] is an absent key.  For the optional fields
    of [TimeEntry] a present key may carry [undefined] ([Some None]). *)
Module Patch.
Record t := mk {
  id : option string;
  user_id : option string;
  organization_id : option string;
  date : option Z;
  clock_in : option Z;
  clock_out : option (option Z);
  break_entries : option (list BreakEntry.t);
  project_id : option (option string);
  department_id : option (option string);
  description : option (option text);
  billable : option bool;
  status : option TimeEntryStatus;
  regular_hours : option Q;
  overtime_hours : option Q;
  total_hours : option Q;
  approval_notes : option (option text);
  approved_by : option (option string);
  approved_at : option (option Z);
  created_at : option (option Z);
  updated_at : option Z;
}.
End Patch.

Module ManualEntry.
Record t := mk {
  date : Z;
  start_time : Z;
  end_time : Z;
  break_duration : Z;
}.
End ManualEntry.

(** [TimeEntryForm].  Its only caller always fills [manual_entry]. *)
Module TimeEntryForm.
Record t := mk {
  project_id : option string;
  description : option text;
  billable : bool;
  manual_entry : ManualEntry.t;
}.
End TimeEntryForm.

(** [TimerStore]: [TimerState] with the additional state of the store. *)
Module TimerStore.
Record t := mk {
  isActive : bool;
  isPaused : bool;
  startTime : option Z;
  pausedTime : option Z;
  currentProject : option Project.t;
  currentBreakType : option BreakType;
  elapsedTime : Z;
  currentTimeEntry : option TimeEntry.t;
  breakStartTime : option Z;
  description : text;
}.

(** Field updates, for the keys of a [set({ .. })]. *)
Definition set_isActive (v : bool) (r : t) : t :=
  {| isActive := v; isPaused := isPaused r; startTime := startTime r; pausedTime := pausedTime r;
     currentProject := currentProject r; currentBreakType := currentBreakType r; elapsedTime := elapsedTime r; currentTimeEntry := currentTimeEntry r;
     breakStartTime := breakStartTime r; description := description r |}.

Definition set_isPaused (v : bool) (r : t) : t :=
  {| isActive := isActive r; isPaused := v; startTime := startTime r; pausedTime := pausedTime r;
     currentProject := currentProject r; currentBreakType := currentBreakType r; elapsedTime := elapsedTime r; currentTimeEntry := currentTimeEntry r;
     breakStartTime := breakStartTime r; description := description r |}.

Definition set_startTime (v : option Z) (r : t) : t :=
  {| isActive := isActive r; isPaused := isPaused r; startTime := v; pausedTime := pausedTime r;
     currentProject := currentProject r; currentBreakType := currentBreakType r; elapsedTime := elapsedTime r; currentTimeEntry := currentTimeEntry r;
     breakStartTime := breakStartTime r; description := description r |}.

Definition set_pausedTime (v : option Z) (r : t) : t :=
  {| isActive := isActive r; isPaused := isPaused r; startTime := startTime r; pausedTime := v;
     currentProject := currentProject r; currentBreakType := currentBreakType r; elapsedTime := elapsedTime r; currentTimeEntry := currentTimeEntry r;
     breakStartTime := breakStartTime r; description := description r |}.

Definition set_currentProject (v : option Project.t) (r : t) : t :=
  {| isActive := isActive r; isPaused := isPaused r; startTime := startTime r; pausedTime := pausedTime r;
     currentProject := v; currentBreakType := currentBreakType r; elapsedTime := elapsedTime r; currentTimeEntry := currentTimeEntry r;
     breakStartTime := breakStartTime r; description := description r |}.

Definition set_currentBreakType (v : option BreakType) (r : t) : t :=
  {| isActive := isActive r; isPaused := isPaused r; startTime := startTime r; pausedTime := pausedTime r;
     currentProject := currentProject r; currentBreakType := v; elapsedTime := elapsedTime r; currentTimeEntry := currentTimeEntry r;
     breakStartTime := breakStartTime r; description := description r |}.

Definition set_elapsedTime (v : Z) (r : t) : t :=
  {| isActive := isActive r; isPaused := isPaused r; startTime := startTime r; pausedTime := pausedTime r;
     currentProject := currentProject r; currentBreakType := currentBreakType r; elapsedTime := v; currentTimeEntry := currentTimeEntry r;
     breakStartTime := breakStartTime r; description := description r |}.

Definition set_currentTimeEntry (v : option TimeEntry.t) (r : t) : t :=
  {| isActive := isActive r; isPaused := isPaused r; startTime := startTime r; pausedTime := pausedTime r;
     currentProject := currentProject r; currentBreakType := currentBreakType r; elapsedTime := elapsedTime r; currentTimeEntry := v;
     breakStartTime := breakStartTime r; description := description r |}.

Definition set_breakStartTime (v : option Z) (r : t) : t :=
  {| isActive := isActive r; isPaused := isPaused r; startTime := startTime r; pausedTime := pausedTime r;
     currentProject := currentProject r; currentBreakType := currentBreakType r; elapsedTime := elapsedTime r; currentTimeEntry := currentTimeEntry r;
     breakStartTime := v; description := description r |}.

Definition set_description (v : text) (r : t) : t :=
  {| isActive := isActive r; isPaused := isPaused r; startTime := startTime r; pausedTime := pausedTime r;
     currentProject := currentProject r; currentBreakType := currentBreakType r; elapsedTime := elapsedTime r; currentTimeEntry := currentTimeEntry r;
     breakStartTime := breakStartTime r; description := v |}.
End TimerStore.

Module TimeEntriesStore.
Record t := mk {
  timeEntries : list TimeEntry.t;
  isLoading : bool;
  error : option string;
}.

(** Field updates, for the keys of a [set({ .. })]. *)
Definition set_timeEntries (v : list TimeEntry.t) (r : t) : t :=
  {| timeEntries := v; isLoading := isLoading r; error := error r |}.

Definition set_isLoading (v : bool) (r : t) : t :=
  {| timeEntries := timeEntries r; isLoading := v; error := error r |}.

Definition set_error (v : option string) (r : t) : t :=
  {| timeEntries := timeEntries r; isLoading := isLoading r; error := v |}.
End TimeEntriesStore.

(** ** The environment: remote API and clock *)

(** Body of the [POST /time-tracking/entries/] request ([entryData]). *)
Module EntryData.
Record t := mk {
  project_id : option string;
  description : option text;
  billable : bool;
  date : Z;
  clock_in : Z;
  clock_out : Z;
  status : TimeEntryStatus;
}.
End EntryData.

Inductive Request :=
  | ClockIn (project_id : option string) (description : text)
  | ClockOut (description : text)
  | CreateEntry (data : EntryData.t)
  | PatchEntry (id : string) (data : Patch.t).

(** What [await fetch(..)] followed by [await response.json()] can do:
    answer with [response.ok] and an entry, answer with a failure status, or
    raise (network error, or a body that is not JSON). *)
Inductive Response :=
  | Ok200 (body : TimeEntry.t)
  | NotOk (statusText : string)
  | Failed.

Record Env := {
  remote : Request -> Response;
  (** the [n]-th reading of the wall clock during the operation *)
  clock : nat -> Z;
  (** the offset of local time from UTC, in milliseconds, at the local time
      [t] (ECMAScript's [LocalTZA(t, false)]): what
      [new Date('YYYY-MM-DDTHH:MM:00')] takes off the wall-clock time it
      reads.  A zone with daylight saving has one offset in winter and
      another in summer *)
  tzOffset : Z -> Z;
}.

Inductive Effect :=
  | EFetch (r : Request)
  | ESetTimer
  | ESetEntries
  | ESetItem (l : list TimeEntry.t)
  | EDispatch (e : TimeEntry.t).

(** The program state: both zustand stores and the
    ['completed-time-entries'] key of [localStorage] ([None]: key absent). *)
Record World := {
  timer : TimerStore.t;
  store : TimeEntriesStore.t;
  completed : option (list TimeEntry.t);
}.

Record St := {
  world : World;
  ticks : nat;
  trace : list Effect;
}.

(** ** A state-and-exception monad for the store actions *)

Inductive Outcome (A : Type) :=
  | Ret (a : A)
  | Throw (msg : string).
Arguments Ret {A} a.
Arguments Throw {A} msg.

Definition M (A : Type) : Type := Env -> St -> Outcome A * St.

Definition ret {A} (a : A) : M A := fun _ s => (Ret a, s).

Definition throw {A} (msg : string) : M A := fun _ s => (Throw msg, s).

Definition bind {A B} (m : M A) (k : A -> M B) : M B :=
  fun env s =>
    match m env s with
    | (Ret a, s') => k a env s'
    | (Throw msg, s') => (Throw msg, s')
    end.

Notation "x <- m ;; k" := (bind m (fun x => k))
  (at level 100, m at next level, right associativity).
Notation "m ;;; k" := (bind m (fun _ => k))
  (at level 100, right associativity).

(** [try { m } catch (error) { h error }] *)
Definition try_catch {A} (m : M A) (h : string -> M A) : M A :=
  fun env s =>
    match m env s with
    | (Ret a, s') => (Ret a, s')
    | (Throw msg, s') => h msg env s'
    end.

(** [try { m } finally { f }] *)
Definition finally {A} (m : M A) (f : M unit) : M A :=
  fun env s =>
    match m env s with
    | (r, s') =>
        match f env s' with
        | (Ret _, s'') => (r, s'')
        | (Throw msg, s'') => (Throw msg, s'')
        end
    end.

Definition emit (e : Effect) : M unit :=
  fun _ s => (Ret tt, {| world := world s; ticks := ticks s; trace := trace s ++ [e] |}).

Definition getWorld : M World := fun _ s => (Ret (world s), s).

Definition putWorld (w : World) : M unit :=
  fun _ s => (Ret tt, {| world := w; ticks := ticks s; trace := trace s |}).

(** [new Date()] / [Date.now()] *)
Definition now_ : M Z :=
  fun env s =>
    (Ret (clock env (ticks s)),
     {| world := world s; ticks := S (ticks s); trace := trace s |}).

(** The time zone of the browser. *)
Definition localZone : M (Z -> Z) := fun env s => (Ret (tzOffset env), s).

(** [await fetch(..)] and the decoding of its reply. *)
Definition fetch_ (r : Request) : M Response :=
  emit (EFetch r) ;;;
  fun env s =>
    match remote env r with
    | Failed => (Throw "fetch failed", s)
    | resp => (Ret resp, s)
    end.

(** [get()] and [set(..)] of the timer store.  The store is wrapped in
    [persist]: a [set] also writes the session under ['timer-storage']. *)
Definition getTimer : M TimerStore.t :=
  w <- getWorld ;; ret (timer w).

Definition setTimer (f : TimerStore.t -> TimerStore.t) : M unit :=
  w <- getWorld ;;
  putWorld {| timer := f (timer w); store := store w; completed := completed w |} ;;;
  emit ESetTimer.

(** [get()] and [set(..)] of the time-entries store. *)
Definition getEntries : M TimeEntriesStore.t :=
  w <- getWorld ;; ret (store w).

Definition setEntries (f : TimeEntriesStore.t -> TimeEntriesStore.t) : M unit :=
  w <- getWorld ;;
  putWorld {| timer := timer w; store := f (store w); completed := completed w |} ;;;
  emit ESetEntries.

(** [localStorage.getItem('completed-time-entries')], parsed. *)
Definition getItem : M (option (list TimeEntry.t)) :=
  w <- getWorld ;; ret (completed w).

(** [JSON.parse(localStorage.getItem('completed-time-entries') || '[]')] *)
Definition getItemOrEmpty : M (list TimeEntry.t) :=
  o <- getItem ;; ret (default [] o).

Definition setItem (l : list TimeEntry.t) : M unit :=
  w <- getWorld ;;
  putWorld {| timer := timer w; store := store w; completed := Some l |} ;;;
  emit (ESetItem l).

(** [window.dispatchEvent(new CustomEvent('timeEntrySubmitted', ..))] *)
Definition dispatchEvent (e : TimeEntry.t) : M unit := emit (EDispatch e).

(** ** JavaScript helpers *)

(** Truthiness of a string: every string but the empty one. *)
Definition truthy (s : string) : bool := negb (String.eqb s "").

(** Truthiness of an optional string ([undefined] is falsy). *)
Definition truthy_opt (o : option string) : bool :=
  match o with
  | Some s => truthy s
  | None => false
  end.

(** ECMAScript [WhiteSpace] and [LineTerminator] code units, the ones
    [String.prototype.trim] strips. *)
Definition isWhiteSpace (c : N) : bool :=
  existsb (N.eqb c)
    [0x09; 0x0A; 0x0B; 0x0C; 0x0D; 0x20; 0xA0; 0x1680; 0x2028; 0x2029;
     0x202F; 0x205F; 0x3000; 0xFEFF]%N
  || ((0x2000 <=? c) && (c <=? 0x200A))%N.

Fixpoint dropWhile {A} (p : A -> bool) (l : list A) : list A :=
  match l with
  | [] => []
  | x :: l' => if p x then dropWhile p l' else l
  end.

(** [s.trim()] *)
Definition trim (s : text) : text :=
  rev (dropWhile isWhiteSpace (rev (dropWhile isWhiteSpace s))).

(** [arr.findIndex(p)], with [None] for [-1]. *)
Fixpoint findIndex {A} (p : A -> bool) (l : list A) : option nat :=
  match l with
  | [] => None
  | x :: l' => if p x then Some 0%nat else S <$> findIndex p l'
  end.

(** [arr.find(e => e.id === id)] as a test: is there an entry with this id? *)
Definition hasId (i : string) (l : list TimeEntry.t) : bool :=
  existsb (fun e => String.eqb (TimeEntry.id e) i) l.

(** [iso.split('T')[0]]: the UTC calendar date of an instant. *)
Definition utcDate (t : Z) : Z := t - t mod 86400000.

(** [new Date(`${date}T${hhmm}:00`)]: a wall-clock time without zone
    designator is read in local time, with the offset that the zone has at
    that wall-clock time ([UTC(t) = t - LocalTZA(t, false)]). *)
Definition parseLocal (tz : Z -> Z) (date hhmm : Z) : Z :=
  let t := date + hhmm * 60000 in
  t - tz t.

(** [`${date}T${hhmm}:00.000Z`] *)
Definition isoUtc (date hhmm : Z) : Z := date + hhmm * 60000.

(** ** Binary floating point ([number]) *)

Module Double.
Local Open Scope Q_scope.

(** The integer nearest to [x], the even one on a tie. *)
Definition nearestEven (x : Q) : Z :=
  let n := Qfloor x in
  match Qcompare (x - inject_Z n) (1 # 2) with
  | Lt => n
  | Eq => if Z.even n then n else (n + 1)%Z
  | Gt => (n + 1)%Z
  end.

(** The exponent of the power of two at or below [|x|], for [x] other than
    0: the integer part of its binary logarithm. *)
Definition ilog2 (x : Q) : Z :=
  let e := (Z.log2 (Z.abs (Qnum x)) - Z.log2 (Z.pos (Qden x)))%Z in
  if Qle_bool (2 ^ e) (Qabs x) then e else (e - 1)%Z.

(** The weight of the last binary digit that a double keeps of [x]: it
    holds 53 significant digits, and none below [2 ^ -1074]. *)
Definition ulp (x : Q) : Q := 2 ^ Z.max (ilog2 x - 52) (- 1074).

(** The double nearest to [x], the one with an even last digit on a tie
    (round to nearest, ties to even). *)
Definition round (x : Q) : Q :=
  if Qeq_bool x 0 then 0 else inject_Z (nearestEven (x / ulp x)) * ulp x.

(** The value of a finite number of the Standard Library's specification
    of IEEE 754 arithmetic. *)
Definition value (f : SpecFloat.spec_float) : Q :=
  match f with
  | SpecFloat.S754_finite s m e => (if s then - 1 else 1) * inject_Z (Z.pos m) * 2 ^ e
  | _ => 0
  end.

(** The IEEE 754 binary64 quotient of two positive integers, by that
    specification. *)
Definition ieeeQuotient (a b : positive) : Q :=
  value (SpecFloat.SFdiv 53 1024
           (SpecFloat.binary_normalize 53 1024 (Z.pos a) 0 false)
           (SpecFloat.binary_normalize 53 1024 (Z.pos b) 0 false)).

End Double.

Arguments Double.round : simpl never.
Arguments Double.ulp : simpl never.
Arguments Double.ilog2 : simpl never.

(** ** Hours arithmetic *)

Local Open Scope Q_scope.

(** [n / 100] for the integer [n] nearest to [100 x], the larger one on a
    tie ([x] non-negative). *)
Definition nearestHundredth (x : Q) : Q :=
  inject_Z (Qfloor (x * 100 + (1 # 2))) / 100.

(** The decimal that [x.toFixed(2)] prints: [toFixed] works on the absolute
    value of the number, as a double holds it, and puts the sign back. *)
Definition toFixed (x : Q) : Q :=
  if Qle_bool 0 x then nearestHundredth x else - nearestHundredth (- x).

(** [Number(x.toFixed(2))]: the double nearest to the decimal printed; from
    10^21 on [toFixed] prints the number itself. *)
Definition toFixed2 (x : Q) : Q :=
  if Qle_bool (inject_Z (10 ^ 21)) (Qabs x) then x else Double.round (toFixed x).

(** [totalMs = clockOut.getTime() - clockIn.getTime()] *)
Definition totalMs (clockIn clockOut : Z) : Q :=
  Double.round (inject_Z (clockOut - clockIn)).

(** [totalMs / (1000 * 60 * 60)] *)
Definition totalHours (clockIn clockOut : Z) : Q :=
  Double.round (totalMs clockIn clockOut / inject_Z (1000 * 60 * 60)).

Arguments toFixed2 : simpl never.
Arguments totalMs : simpl never.
Arguments totalHours : simpl never.

Local Close Scope Q_scope.

(** ** The timer store ([stores/timer.ts]) *)

Module Timer.
Import TimerStore.

Record StopResult := {
  success : bool;
  errors : option (list string);
}.

(** The provisional entry of the two fallback branches of [startTimer]. *)
Definition newTimeEntry (now idNow : Z) (projectId : option string) : TimeEntry.t :=
  {| TimeEntry.id := "temp-" +:+ pretty idNow;
     TimeEntry.user_id := "current-user";
     TimeEntry.organization_id := "current-org";
     TimeEntry.date := utcDate now;
     TimeEntry.clock_in := now;
     TimeEntry.clock_out := None;
     TimeEntry.break_entries := [];
     TimeEntry.project_id := projectId;
     TimeEntry.department_id := None;
     TimeEntry.description := None;
     TimeEntry.billable := false;
     TimeEntry.status := draft;
     TimeEntry.regular_hours := 0;
     TimeEntry.overtime_hours := 0;
     TimeEntry.total_hours := 0;
     TimeEntry.approval_notes := None;
     TimeEntry.approved_by := None;
     TimeEntry.approved_at := None;
     TimeEntry.created_at := Some now;
     TimeEntry.updated_at := now |}.

(** The [set({ .. })] shared by the three branches of [startTimer]. *)
Definition started (now : Z) (entry : TimeEntry.t) (t : TimerStore.t) : TimerStore.t :=
  set_currentBreakType None
    (set_currentTimeEntry (Some entry)
      (set_elapsedTime 0
        (set_pausedTime None
          (set_startTime (Some now)
            (set_isPaused false
              (set_isActive true t)))))).

Definition startTimer (projectId : option string) : M unit :=
  now <- now_ ;;
  try_catch
    (response <- fetch_ (ClockIn projectId []) ;;
     match response with
     | Ok200 timeEntry => setTimer (started now timeEntry)
     | _ =>
         idNow <- now_ ;;
         setTimer (started now (newTimeEntry now idNow projectId))
     end)
    (fun _ =>
       idNow <- now_ ;;
       setTimer (started now (newTimeEntry now idNow projectId))).

Definition validateTimerFields : M (list string) :=
  state <- getTimer ;;
  let errors := [] in
  let errors :=
    if negb (truthy_opt (Project.id <$> currentProject state))
       && negb (truthy_opt (currentTimeEntry state ≫= TimeEntry.project_id))
    then errors ++ ["Please select a project"] else errors in
  let errors :=
    if negb (0 <? length (trim (description state)))%nat
    then errors ++ ["Please describe what you're working on"] else errors in
  ret errors.

(** The [set({ .. })] that ends a session in [stopTimer]; [breakStartTime]
    is not among its keys. *)
Definition stopped (t : TimerStore.t) : TimerStore.t :=
  set_description []
    (set_currentTimeEntry None
      (set_elapsedTime 0
        (set_currentBreakType None
          (set_currentProject None
            (set_pausedTime None
              (set_startTime None
                (set_isPaused false
                  (set_isActive false t)))))))).

(** The entry closed locally: [updatedTimeEntry] / [fallbackEntry].
    [Math.min] and [Math.max] choose one of their arguments, and the
    difference [totalHours - 8] is itself a double whenever it is positive
    (lemma [overtime_exact]): no rounding takes place after the division. *)
Definition closeLocally (entry : TimeEntry.t) (now : Z) (desc : text) : TimeEntry.t :=
  let updatedTimeEntry :=
    TimeEntry.set_description (Some desc)
      (TimeEntry.set_updated_at now
        (TimeEntry.set_status submitted
          (TimeEntry.set_clock_out (Some now) entry))) in
  let totalHours := totalHours (TimeEntry.clock_in entry) now in
  let updatedTimeEntry :=
    TimeEntry.set_total_hours (toFixed2 totalHours) updatedTimeEntry in
  let updatedTimeEntry :=
    TimeEntry.set_regular_hours (Qmin totalHours 8) updatedTimeEntry in
  TimeEntry.set_overtime_hours (Qmax 0 (totalHours - 8)) updatedTimeEntry.

(** The local handling of [stopTimer], written twice in the source: in the
    [else] branch of [response.ok] and in the [catch] block. *)
Definition stopLocally (state : TimerStore.t) (entry : TimeEntry.t) : M StopResult :=
  now <- now_ ;;
  let updatedTimeEntry := closeLocally entry now (description state) in
  storedEntries <- getItemOrEmpty ;;
  setItem (take 100 (updatedTimeEntry :: storedEntries)) ;;;
  setTimer stopped ;;;
  dispatchEvent updatedTimeEntry ;;;
  ret {| success := true; errors := None |}.

Definition stopTimer : M StopResult :=
  state <- getTimer ;;
  validationErrors <- validateTimerFields ;;
  if (0 <? length validationErrors)%nat then
    ret {| success := false; errors := Some validationErrors |}
  else
    match currentTimeEntry state with
    | None => ret {| success := false; errors := Some ["No active timer to stop"] |}
    | Some entry =>
        try_catch
          (response <- fetch_ (ClockOut (description state)) ;;
           match response with
           | Ok200 submittedEntry =>
               let finalEntry :=
                 TimeEntry.set_description (Some (description state)) submittedEntry in
               storedEntries <- getItemOrEmpty ;;
               setItem (take 100 (finalEntry :: storedEntries)) ;;;
               dispatchEvent finalEntry ;;;
               setTimer stopped ;;;
               ret {| success := true; errors := None |}
           | _ => stopLocally state entry
           end)
          (fun _ => stopLocally state entry)
    end.

Definition pauseTimer : M unit :=
  now <- now_ ;;
  setTimer (fun t => set_pausedTime (Some now) (set_isPaused true t)).

Definition resumeTimer : M unit :=
  state <- getTimer ;;
  match pausedTime state, startTime state with
  | Some paused, Some start =>
      now <- now_ ;;
      let pausedDuration := now - paused in
      let newStartTime := start + pausedDuration in
      setTimer (fun t =>
        set_startTime (Some newStartTime) (set_pausedTime None (set_isPaused false t)))
  | _, _ => ret tt
  end.

Definition startBreak (breakType : BreakType) : M unit :=
  now <- now_ ;;
  state <- getTimer ;;
  match currentTimeEntry state with
  | Some entry =>
      idNow <- now_ ;;
      let newBreakEntry :=
        {| BreakEntry.id := "break-" +:+ pretty idNow;
           BreakEntry.time_entry_id := TimeEntry.id entry;
           BreakEntry.break_type := breakType;
           BreakEntry.start_time := now;
           BreakEntry.end_time := None;
           BreakEntry.paid :=
             match breakType with short_break => true | _ => false end;
           BreakEntry.notes := None |} in
      let updatedTimeEntry :=
        TimeEntry.set_break_entries
          (TimeEntry.break_entries entry ++ [newBreakEntry]) entry in
      setTimer (fun t =>
        set_currentTimeEntry (Some updatedTimeEntry)
          (set_breakStartTime (Some now)
            (set_currentBreakType (Some breakType) t)))
  | None => ret tt
  end.

Definition endBreak : M unit :=
  now <- now_ ;;
  state <- getTimer ;;
  match currentTimeEntry state, breakStartTime state with
  | Some entry, Some _ =>
      let breakEntries := TimeEntry.break_entries entry in
      let lastBreakIndex := Z.of_nat (length breakEntries) - 1 in
      if 0 <=? lastBreakIndex then
        match breakEntries !! Z.to_nat lastBreakIndex with
        | Some lastBreak =>
            let breakEntries :=
              <[Z.to_nat lastBreakIndex := BreakEntry.set_end_time (Some now) lastBreak]>
                breakEntries in
            let updatedTimeEntry := TimeEntry.set_break_entries breakEntries entry in
            setTimer (fun t =>
              set_currentTimeEntry (Some updatedTimeEntry)
                (set_breakStartTime None
                  (set_currentBreakType None t)))
        | None => ret tt
        end
      else ret tt
  | _, _ => ret tt
  end.

(** [setCurrentProject] with a project object or [null]; the branch for a
    project passed as an id string looks it up in the mock catalog and is
    not modelled. *)
Definition setCurrentProject (project : option Project.t) : M unit :=
  state <- getTimer ;;
  let actualProject := project in
  setTimer (set_currentProject actualProject) ;;;
  match currentTimeEntry state with
  | Some entry =>
      setTimer
        (set_currentTimeEntry
          (Some
            (TimeEntry.set_billable
              (default false (Project.billable <$> actualProject))
              (TimeEntry.set_project_id (Project.id <$> actualProject) entry))))
  | None => ret tt
  end.

Definition setDescription (d : text) : M unit :=
  setTimer (set_description d).

Definition updateElapsedTime : M unit :=
  state <- getTimer ;;
  match startTime state with
  | Some start =>
      if negb (isActive state) || isPaused state then ret tt
      else
        now <- now_ ;;
        let elapsed := (now - start) / 1000 in
        setTimer (set_elapsedTime elapsed)
  | None => ret tt
  end.

Definition resetTimer : M unit :=
  setTimer (fun t =>
    set_description []
      (set_breakStartTime None
        (set_currentTimeEntry None
          (set_elapsedTime 0
            (set_currentBreakType None
              (set_currentProject None
                (set_pausedTime None
                  (set_startTime None
                    (set_isPaused false
                      (set_isActive false t)))))))))).

End Timer.

(** ** The time-entries store *)

Module Entries.
Import TimeEntriesStore.

(** [{ ...entry, ...updates }] *)
Definition spread (entry : TimeEntry.t) (updates : Patch.t) : TimeEntry.t :=
  {| TimeEntry.id := default (TimeEntry.id entry) (Patch.id updates);
     TimeEntry.user_id := default (TimeEntry.user_id entry) (Patch.user_id updates);
     TimeEntry.organization_id :=
       default (TimeEntry.organization_id entry) (Patch.organization_id updates);
     TimeEntry.date := default (TimeEntry.date entry) (Patch.date updates);
     TimeEntry.clock_in := default (TimeEntry.clock_in entry) (Patch.clock_in updates);
     TimeEntry.clock_out := default (TimeEntry.clock_out entry) (Patch.clock_out updates);
     TimeEntry.break_entries :=
       default (TimeEntry.break_entries entry) (Patch.break_entries updates);
     TimeEntry.project_id := default (TimeEntry.project_id entry) (Patch.project_id updates);
     TimeEntry.department_id :=
       default (TimeEntry.department_id entry) (Patch.department_id updates);
     TimeEntry.description :=
       default (TimeEntry.description entry) (Patch.description updates);
     TimeEntry.billable := default (TimeEntry.billable entry) (Patch.billable updates);
     TimeEntry.status := default (TimeEntry.status entry) (Patch.status updates);
     TimeEntry.regular_hours :=
       default (TimeEntry.regular_hours entry) (Patch.regular_hours updates);
     TimeEntry.overtime_hours :=
       default (TimeEntry.overtime_hours entry) (Patch.overtime_hours updates);
     TimeEntry.total_hours :=
       default (TimeEntry.total_hours entry) (Patch.total_hours updates);
     TimeEntry.approval_notes :=
       default (TimeEntry.approval_notes entry) (Patch.approval_notes updates);
     TimeEntry.approved_by :=
       default (TimeEntry.approved_by entry) (Patch.approved_by updates);
     TimeEntry.approved_at :=
       default (TimeEntry.approved_at entry) (Patch.approved_at updates);
     TimeEntry.created_at :=
       default (TimeEntry.created_at entry) (Patch.created_at updates);
     TimeEntry.updated_at :=
       default (TimeEntry.updated_at entry) (Patch.updated_at updates) |}.

(** The keys of an entry received as JSON: an optional field that is not
    there is an absent key. *)
Definition asPatch (e : TimeEntry.t) : Patch.t :=
  {| Patch.id := Some (TimeEntry.id e);
     Patch.user_id := Some (TimeEntry.user_id e);
     Patch.organization_id := Some (TimeEntry.organization_id e);
     Patch.date := Some (TimeEntry.date e);
     Patch.clock_in := Some (TimeEntry.clock_in e);
     Patch.clock_out := Some <$> TimeEntry.clock_out e;
     Patch.break_entries := Some (TimeEntry.break_entries e);
     Patch.project_id := Some <$> TimeEntry.project_id e;
     Patch.department_id := Some <$> TimeEntry.department_id e;
     Patch.description := Some <$> TimeEntry.description e;
     Patch.billable := Some (TimeEntry.billable e);
     Patch.status := Some (TimeEntry.status e);
     Patch.regular_hours := Some (TimeEntry.regular_hours e);
     Patch.overtime_hours := Some (TimeEntry.overtime_hours e);
     Patch.total_hours := Some (TimeEntry.total_hours e);
     Patch.approval_notes := Some <$> TimeEntry.approval_notes e;
     Patch.approved_by := Some <$> TimeEntry.approved_by e;
     Patch.approved_at := Some <$> TimeEntry.approved_at e;
     Patch.created_at := Some <$> TimeEntry.created_at e;
     Patch.updated_at := Some (TimeEntry.updated_at e) |}.

Definition sameId (i : string) (e : TimeEntry.t) : bool :=
  String.eqb (TimeEntry.id e) i.

Definition addTimeEntry (entry : TimeEntry.t) : M unit :=
  setEntries (fun state =>
    match findIndex (sameId (TimeEntry.id entry)) (timeEntries state) with
    | Some existingIndex =>
        set_timeEntries (<[existingIndex := entry]> (timeEntries state)) state
    | None => set_timeEntries (entry :: timeEntries state) state
    end).

Definition updateTimeEntry (i : string) (updates : Patch.t) : M unit :=
  setEntries (fun state =>
    set_timeEntries
      (map (fun entry => if sameId i entry then spread entry updates else entry)
           (timeEntries state))
      state).

(** [new Date(a.created_at || a.date).getTime()] *)
Definition sortKey (a : TimeEntry.t) : Z :=
  default (TimeEntry.date a) (TimeEntry.created_at a).

(** The comparator [(a, b) => dateB.getTime() - dateA.getTime()]. *)
Definition compareFn (a b : TimeEntry.t) : Z := sortKey b - sortKey a.

(** [Array.prototype.sort] is stable: an element stays in front of the
    later elements it does not compare greater than. *)
Fixpoint insertSorted (a : TimeEntry.t) (l : list TimeEntry.t) : list TimeEntry.t :=
  match l with
  | [] => [a]
  | b :: l' => if compareFn a b <=? 0 then a :: l else b :: insertSorted a l'
  end.

Definition sort (l : list TimeEntry.t) : list TimeEntry.t :=
  foldr insertSorted [] l.

(** [others.forEach(e => { if (!acc.find(x => x.id === e.id)) acc.push(e) })] *)
Definition pushMissing (acc others : list TimeEntry.t) : list TimeEntry.t :=
  fold_left (fun acc e => if hasId (TimeEntry.id e) acc then acc else acc ++ [e])
            others acc.

Definition loadFromLocalStorage : M unit :=
  storedEntries <- getItem ;;
  match storedEntries with
  | Some parsedEntries =>
      state <- getEntries ;;
      let existingEntries := timeEntries state in
      let mergedEntries := pushMissing parsedEntries existingEntries in
      setEntries (set_timeEntries (sort mergedEntries))
  | None => ret tt
  end.

Definition syncWithLocalStorage : M unit :=
  state <- getEntries ;;
  let currentEntries := timeEntries state in
  storedEntries <- getItemOrEmpty ;;
  let allEntries := pushMissing currentEntries storedEntries in
  let limitedEntries := take 100 (sort allEntries) in
  setEntries (set_timeEntries limitedEntries) ;;;
  setItem limitedEntries.

(** [entryData], the form converted to the API format. *)
Definition entryData (data : TimeEntryForm.t) : EntryData.t :=
  let m := TimeEntryForm.manual_entry data in
  {| EntryData.project_id := TimeEntryForm.project_id data;
     EntryData.description := TimeEntryForm.description data;
     EntryData.billable := TimeEntryForm.billable data;
     EntryData.date := ManualEntry.date m;
     EntryData.clock_in := isoUtc (ManualEntry.date m) (ManualEntry.start_time m);
     EntryData.clock_out := isoUtc (ManualEntry.date m) (ManualEntry.end_time m);
     EntryData.status := submitted |}.

(** [localEntry], the entry created locally when the API fails; [tz] is the
    local zone, the three other arguments are its readings of the clock.
    The clock-in and clock-out it stores are the form's times labelled as
    UTC ([entryData]); its hours come from the same times read as local
    times. *)
Definition localEntry (data : TimeEntryForm.t) (tz : Z -> Z) (idNow createdAt updatedAt : Z)
  : TimeEntry.t :=
  let m := TimeEntryForm.manual_entry data in
  let clockIn := parseLocal tz (ManualEntry.date m) (ManualEntry.start_time m) in
  let clockOut := parseLocal tz (ManualEntry.date m) (ManualEntry.end_time m) in
  let totalHours := totalHours clockIn clockOut in
  {| TimeEntry.id := "manual-" +:+ pretty idNow;
     TimeEntry.user_id := "current-user";
     TimeEntry.organization_id := "current-org";
     TimeEntry.date := ManualEntry.date m;
     TimeEntry.clock_in := EntryData.clock_in (entryData data);
     TimeEntry.clock_out := Some (EntryData.clock_out (entryData data));
     TimeEntry.break_entries := [];
     TimeEntry.project_id := TimeEntryForm.project_id data;
     TimeEntry.department_id := None;
     TimeEntry.description := TimeEntryForm.description data;
     TimeEntry.billable := TimeEntryForm.billable data;
     TimeEntry.status := submitted;
     TimeEntry.regular_hours := Qmin totalHours 8;
     TimeEntry.overtime_hours := Qmax 0 (totalHours - 8);
     TimeEntry.total_hours := toFixed2 totalHours;
     TimeEntry.approval_notes := None;
     TimeEntry.approved_by := None;
     TimeEntry.approved_at := None;
     TimeEntry.created_at := Some createdAt;
     TimeEntry.updated_at := updatedAt |}.

Definition createManualEntry (data : TimeEntryForm.t) : M TimeEntry.t :=
  finally
    (try_catch
      (setEntries (fun s => set_error None (set_isLoading true s)) ;;;
       returned <-
         try_catch
           (response <- fetch_ (CreateEntry (entryData data)) ;;
            match response with
            | Ok200 newEntry =>
                addTimeEntry newEntry ;;;
                storedEntries <- getItemOrEmpty ;;
                setItem (take 100 (newEntry :: storedEntries)) ;;;
                ret (Some newEntry)
            | _ => ret None
            end)
           (fun _ => ret None) ;;
       match returned with
       | Some newEntry => ret newEntry
       | None =>
           tz <- localZone ;;
           idNow <- now_ ;;
           createdAt <- now_ ;;
           updatedAt <- now_ ;;
           let localEntry := localEntry data tz idNow createdAt updatedAt in
           addTimeEntry localEntry ;;;
           storedEntries <- getItemOrEmpty ;;
           setItem (take 100 (localEntry :: storedEntries)) ;;;
           ret localEntry
       end)
      (fun errorMessage =>
         setEntries (set_error (Some errorMessage)) ;;;
         throw errorMessage))
    (setEntries (set_isLoading false)).

(** [id.startsWith('temp-') || ['1', '2', '3'].includes(id)] *)
Definition isLocalEntry (i : string) : bool :=
  String.prefix "temp-" i || existsb (String.eqb i) ["1"; "2"; "3"]%string.

(** The local update of [editTimeEntry]: the [isLocalEntry] branch when
    [local] is set, the fallback of the [catch (apiError)] block otherwise.
    The two differ in what they do with an entry that is missing from the
    store or from [localStorage]. *)
Definition updateLocally (local : bool) (i : string) (data : Patch.t) : M TimeEntry.t :=
  state <- getEntries ;;
  let currentEntries := timeEntries state in
  match findIndex (sameId i) currentEntries with
  | Some entryIndex =>
      match currentEntries !! entryIndex with
      | Some current =>
          now <- now_ ;;
          let updatedEntry := TimeEntry.set_updated_at now (spread current data) in
          let updatedEntries := <[entryIndex := updatedEntry]> currentEntries in
          setEntries (fun s => set_isLoading false (set_timeEntries updatedEntries s)) ;;;
          storedEntries <- getItemOrEmpty ;;
          match findIndex (sameId i) storedEntries with
          | Some storedIndex =>
              setItem (<[storedIndex := updatedEntry]> storedEntries)
          | None =>
              if local then setItem (storedEntries ++ [updatedEntry]) else ret tt
          end ;;;
          ret updatedEntry
      | None => throw "unreachable"
      end
  | None =>
      if local then
        setEntries (fun s => set_error (Some "Entry not found") (set_isLoading false s)) ;;;
        throw "Entry not found"
      else throw "Entry not found for fallback update"
  end.

Definition editTimeEntry (i : string) (data : Patch.t) : M TimeEntry.t :=
  finally
    (try_catch
      (setEntries (fun s => set_error None (set_isLoading true s)) ;;;
       if isLocalEntry i then updateLocally true i data
       else
         try_catch
           (response <- fetch_ (PatchEntry i data) ;;
            match response with
            | Ok200 updatedEntry =>
                updateTimeEntry i (asPatch updatedEntry) ;;;
                storedEntries <- getItemOrEmpty ;;
                match findIndex (sameId i) storedEntries with
                | Some storedIndex =>
                    setItem (<[storedIndex := updatedEntry]> storedEntries)
                | None => ret tt
                end ;;;
                setEntries (set_isLoading false) ;;;
                ret updatedEntry
            | NotOk statusText => throw ("API request failed: " +:+ statusText)
            | Failed => throw "fetch failed"
            end)
           (fun _ => updateLocally false i data))
      (fun errorMessage =>
         setEntries (set_error (Some errorMessage)) ;;;
         throw errorMessage))
    (setEntries (set_isLoading false)).

(** *** The remaining actions of the store

    The endpoints they call return no entry or a list of entries and are
    not among the requests of [Request]: an action takes what its endpoint
    answers as an argument, and the call leaves no [EFetch] in the trace. *)

Definition removeTimeEntry (i : string) : M unit :=
  setEntries (fun state =>
    set_timeEntries
      (List.filter (fun entry => negb (sameId i entry)) (timeEntries state))
      state).

Definition setTimeEntries (entries : list TimeEntry.t) : M unit :=
  setEntries (set_timeEntries entries).

Definition setLoading (loading : bool) : M unit :=
  setEntries (set_isLoading loading).

Definition setError (error : option string) : M unit :=
  setEntries (set_error error).

(** The body of a successful [GET /time-tracking/entries/]: a page with
    [results], or the bare array. *)
Inductive ListData :=
  | Paginated (results : list TimeEntry.t)
  | Plain (entries : list TimeEntry.t).

(** What the list request can do: answer with [response.ok] and a body,
    answer with a failure status, or raise an [Error] with a message. *)
Inductive ListReply :=
  | ListOk (data : ListData)
  | ListNotOk (statusText : string)
  | ListRaises (message : string).

(** [filters], the optional date range of the query string. *)
Record Filters := {
  date_from : option Z;
  date_to : option Z;
}.

(** What a request whose body is not read can do. *)
Inductive PlainReply :=
  | PlainOk
  | PlainNotOk (statusText : string)
  | PlainRaises.

Section Endpoints.
Variable listEntries : Filters -> ListReply.
Variable deleteEntry : string -> PlainReply.
Variable clockOut : Response.

Definition fetchTimeEntries (filters : Filters) : M unit :=
  finally
    (try_catch
      (setEntries (fun s => set_error None (set_isLoading true s)) ;;;
       match listEntries filters with
       | ListOk data =>
           setEntries
             (set_timeEntries
               match data with
               | Paginated results => results
               | Plain entries => entries
               end)
       | ListNotOk statusText =>
           throw ("Failed to fetch time entries: " +:+ statusText)
       | ListRaises message => throw message
       end)
      (fun message => setEntries (set_error (Some message))))
    (setEntries (set_isLoading false)).

Definition submitTimeEntry (entry : TimeEntry.t) : M TimeEntry.t :=
  finally
    (try_catch
      (setEntries (fun s => set_error None (set_isLoading true s)) ;;;
       match clockOut with
       | Ok200 updatedEntry =>
           updateTimeEntry (TimeEntry.id entry) (asPatch updatedEntry) ;;;
           addTimeEntry updatedEntry ;;;
           ret updatedEntry
       | NotOk statusText => throw ("Failed to clock out: " +:+ statusText)
       | Failed => throw "fetch failed"
       end)
      (fun errorMessage =>
         setEntries (set_error (Some errorMessage)) ;;;
         throw errorMessage))
    (setEntries (set_isLoading false)).

(** The removal from the store and from [localStorage], written twice in
    [deleteTimeEntry]. *)
Definition removeLocally (i : string) : M unit :=
  removeTimeEntry i ;;;
  storedEntries <- getItemOrEmpty ;;
  let filteredEntries :=
    List.filter (fun entry => negb (sameId i entry)) storedEntries in
  setItem filteredEntries.

Definition deleteTimeEntry (i : string) : M unit :=
  finally
    (try_catch
      (setEntries (fun s => set_error None (set_isLoading true s)) ;;;
       if isLocalEntry i then
         removeLocally i ;;;
         setEntries (set_isLoading false)
       else
         try_catch
           match deleteEntry i with
           | PlainOk => ret tt
           | PlainNotOk statusText => throw ("API delete failed: " +:+ statusText)
           | PlainRaises => throw "fetch failed"
           end
           (fun _ => ret tt) ;;;
         removeLocally i)
      (fun errorMessage =>
         setEntries (set_error (Some errorMessage)) ;;;
         throw errorMessage))
    (setEntries (set_isLoading false)).

End Endpoints.

End Entries.

(** Running an action from a state. *)
Definition run {A} (m : M A) (env : Env) (w : World) : Outcome A * St :=
  m env {| world := w; ticks := 0; trace := [] |}.

(** ** The project catalog ([lib/data/projects.ts]) *)

Module Projects.

(** The text of an ASCII literal. *)
Definition literal (s : string) : text :=
  Ascii.N_of_ascii <$> String.list_ascii_of_string s.

Definition mockProjects : list Project.t :=
  [ {| Project.id := "1";
       Project.name := "Website Redesign";
       Project.description :=
         Some (literal "Complete redesign of the company website");
       Project.department_id := "dev-1";
       Project.client_id := Some "acme-corp"%string;
       Project.billable := true;
       Project.hourly_rate := Some 75%Q;
       Project.budget_hours := Some 120%Q;
       Project.status := active;
       Project.start_date := Some 1704067200000;
       Project.end_date := Some 1719705600000;
       Project.created_at := 1704067200000;
       Project.updated_at := 1704067200000 |};
    {| Project.id := "2";
       Project.name := "Mobile App";
       Project.description :=
         Some (literal "iOS and Android mobile application development");
       Project.department_id := "dev-1";
       Project.client_id := Some "tech-solutions"%string;
       Project.billable := true;
       Project.hourly_rate := Some 85%Q;
       Project.budget_hours := Some 200%Q;
       Project.status := active;
       Project.start_date := Some 1706745600000;
       Project.end_date := Some 1725062400000;
       Project.created_at := 1706745600000;
       Project.updated_at := 1706745600000 |};
    {| Project.id := "3";
       Project.name := "Internal Tools";
       Project.description :=
         Some (literal "Development of internal productivity tools");
       Project.department_id := "it-1";
       Project.client_id := None;
       Project.billable := false;
       Project.hourly_rate := None;
       Project.budget_hours := None;
       Project.status := active;
       Project.start_date := Some 1705276800000;
       Project.end_date := None;
       Project.created_at := 1705276800000;
       Project.updated_at := 1705276800000 |};
    {| Project.id := "4";
       Project.name := "Marketing Campaign";
       Project.description :=
         Some (literal "Digital marketing campaign implementation");
       Project.department_id := "marketing-1";
       Project.client_id := Some "creative-agency"%string;
       Project.billable := true;
       Project.hourly_rate := Some 65%Q;
       Project.budget_hours := Some 80%Q;
       Project.status := active;
       Project.start_date := Some 1709251200000;
       Project.end_date := Some 1717113600000;
       Project.created_at := 1709251200000;
       Project.updated_at := 1709251200000 |} ].

(** [projects.find(p => p.id === projectId)] *)
Definition findProject (projects : list Project.t) (projectId : string)
  : option Project.t :=
  List.find (fun p => String.eqb (Project.id p) projectId) projects.

Definition getProjectName (projectId : option string) : string :=
  if negb (truthy_opt projectId) then "No Project"
  else
    let i := default ""%string projectId in
    match findProject mockProjects i with
    | Some project =>
        if truthy (Project.name project) then Project.name project
        else "Project " +:+ i
    | None => "Project " +:+ i
    end.

Definition getProjectById (projectId : option string) : option Project.t :=
  if negb (truthy_opt projectId) then None
  else findProject mockProjects (default ""%string projectId).

End Projects.

(** ** Hours helpers ([lib/utils.ts]) *)

Module Utils.
Local Open Scope Q_scope.



(** [Math.round]: the nearest integer, the larger one on a tie. *)
Definition round (x : Q) : Z := Qfloor (x + (1 # 2)).

(** [s.padStart(2, '0')] *)
Definition padStart2 (s : string) : string :=
  String.concat "" (replicate (2 - String.length s) "0"%string) +:+ s.

(** The three numbers [formatTime] prints: [hours], [minutes], [secs].
    [%] is the remainder of the truncating division, [Math.floor] of a
    quotient the floor division. *)
Definition timeParts (seconds : Q) : Z * Z * Z :=
  let totalSeconds := round seconds in
  let hours := (totalSeconds / 3600)%Z in
  let minutes := (Z.rem totalSeconds 3600 / 60)%Z in
  let secs := Z.rem totalSeconds 60 in
  (hours, minutes, secs).

Definition formatTime (seconds : Q) : string :=
  let '(hours, minutes, secs) := timeParts seconds in
  if (0 <? hours)%Z then
    pretty hours +:+ ":" +:+ padStart2 (pretty minutes) +:+ ":" +:+ padStart2 (pretty secs)
  else
    pretty minutes +:+ ":" +:+ padStart2 (pretty secs).

End Utils.

(** ** The timer widget *)

Module Widget.

(** [handleStartStop]; [selectedProject] is the selection of the widget.
    It returns the validation errors that it puts in the modal it opens,
    if it opens it. *)
Definition handleStartStop (selectedProject : string) : M (option (list string)) :=
  state <- getTimer ;;
  if TimerStore.isActive state then
    result <- Timer.stopTimer ;;
    match Timer.errors result with
    | Some errors =>
        if negb (Timer.success result) then ret (Some errors) else ret None
    | None => ret None
    end
  else
    Timer.startTimer (if truthy selectedProject then Some selectedProject else None) ;;;
    ret None.

(** [onValueChange] of the project selector. *)
Definition onProjectChange (value : string) : M unit :=
  let fullProject := Projects.getProjectById (Some value) in
  Timer.setCurrentProject fullProject.

End Widget.

(** ** The timer page *)

Module Page.

Section Endpoints.
Variable listEntries : Entries.Filters -> Entries.ListReply.

(** The listener of ['timeEntrySubmitted']; [detail] is the entry of the
    event. *)
Definition handleTimeEntrySubmitted (detail : TimeEntry.t) : M unit :=
  Entries.addTimeEntry detail ;;;
  Entries.syncWithLocalStorage ;;;
  Entries.fetchTimeEntries listEntries
    {| Entries.date_from := None; Entries.date_to := None |}.

End Endpoints.

(** The data of the manual entry form. *)
Record ManualEntryFormData := {
  date : Z;
  startTime : Z;
  endTime : Z;
  projectId : string;
  description : text;
  billable : bool;
}.

Definition handleManualEntrySubmit (data : ManualEntryFormData) : M unit :=
  let formData :=
    {| TimeEntryForm.project_id := Some (projectId data);
       TimeEntryForm.description := Some (description data);
       TimeEntryForm.billable := billable data;
       TimeEntryForm.manual_entry :=
         {| ManualEntry.date := date data;
            ManualEntry.start_time := startTime data;
            ManualEntry.end_time := endTime data;
            ManualEntry.break_duration := 0 |} |} in
  Entries.createManualEntry formData ;;;
  ret tt.

(** [handleEditEntry], without the state of the page. *)
Definition handleEditEntry (i : string) (data : Patch.t) : M unit :=
  Entries.editTimeEntry i data ;;;
  ret tt.

(** [updateData], the patch that the edit dialog makes of its form: the
    times labelled as UTC, and hours from the same times read as local
    times. *)
Definition updateData (tz : Z -> Z) (data : ManualEntryFormData) : Patch.t :=
  let startDateTime := parseLocal tz (date data) (startTime data) in
  let endDateTime := parseLocal tz (date data) (endTime data) in
  let totalHours := totalHours startDateTime endDateTime in
  {| Patch.id := None;
     Patch.user_id := None;
     Patch.organization_id := None;
     Patch.date := Some (date data);
     Patch.clock_in := Some (isoUtc (date data) (startTime data));
     Patch.clock_out := Some (Some (isoUtc (date data) (endTime data)));
     Patch.break_entries := None;
     Patch.project_id := Some (Some (projectId data));
     Patch.department_id := None;
     Patch.description := Some (Some (description data));
     Patch.billable := Some (billable data);
     Patch.status := None;
     Patch.regular_hours := Some (Qmin totalHours 8);
     Patch.overtime_hours := Some (Qmax 0 (totalHours - 8));
     Patch.total_hours := Some (toFixed2 totalHours);
     Patch.approval_notes := None;
     Patch.approved_by := None;
     Patch.approved_at := None;
     Patch.created_at := None;
     Patch.updated_at := None |}.

(** [handleSubmit] of the edit dialog for the entry [entry], with
    [handleEditEntry] as its [onSubmit]: a failure is logged, not raised. *)
Definition handleEditSubmit (entry : TimeEntry.t) (data : ManualEntryFormData) : M unit :=
  try_catch
    (tz <- localZone ;;
     handleEditEntry (TimeEntry.id entry) (updateData tz data))
    (fun _ => ret tt).

End Page.

(** * Vocabulary of the properties *)

Section Vocabulary.
Import TimerStore TimeEntriesStore.

(** The world [w] with [t] as its timer store. *)
Definition withTimer (t : TimerStore.t) (w : World) : World :=
  {| timer := t; store := store w; completed := completed w |}.

(** The fields of the session that [startBreak] and [endBreak] leave alone. *)
Definition sameSessionButBreak (t t' : TimerStore.t) : Prop :=
  isActive t' = isActive t /\ isPaused t' = isPaused t /\
  startTime t' = startTime t /\ pausedTime t' = pausedTime t /\
  currentProject t' = currentProject t /\ elapsedTime t' = elapsedTime t /\
  description t' = description t.

(** The fields of an entry other than its break list. *)
Definition sameEntryButBreaks (e e' : TimeEntry.t) : Prop :=
  TimeEntry.id e' = TimeEntry.id e /\
  TimeEntry.user_id e' = TimeEntry.user_id e /\
  TimeEntry.organization_id e' = TimeEntry.organization_id e /\
  TimeEntry.date e' = TimeEntry.date e /\
  TimeEntry.clock_in e' = TimeEntry.clock_in e /\
  TimeEntry.clock_out e' = TimeEntry.clock_out e /\
  TimeEntry.project_id e' = TimeEntry.project_id e /\
  TimeEntry.department_id e' = TimeEntry.department_id e /\
  TimeEntry.description e' = TimeEntry.description e /\
  TimeEntry.billable e' = TimeEntry.billable e /\
  TimeEntry.status e' = TimeEntry.status e /\
  TimeEntry.regular_hours e' = TimeEntry.regular_hours e /\
  TimeEntry.overtime_hours e' = TimeEntry.overtime_hours e /\
  TimeEntry.total_hours e' = TimeEntry.total_hours e /\
  TimeEntry.approval_notes e' = TimeEntry.approval_notes e /\
  TimeEntry.approved_by e' = TimeEntry.approved_by e /\
  TimeEntry.approved_at e' = TimeEntry.approved_at e /\
  TimeEntry.created_at e' = TimeEntry.created_at e /\
  TimeEntry.updated_at e' = TimeEntry.updated_at e.

(** The fields of a break other than its end. *)
Definition sameBreakButEnd (b b' : BreakEntry.t) : Prop :=
  BreakEntry.id b' = BreakEntry.id b /\
  BreakEntry.time_entry_id b' = BreakEntry.time_entry_id b /\
  BreakEntry.break_type b' = BreakEntry.break_type b /\
  BreakEntry.start_time b' = BreakEntry.start_time b /\
  BreakEntry.paid b' = BreakEntry.paid b /\
  BreakEntry.notes b' = BreakEntry.notes b.

(** The breaks of a list that have no end yet. *)
Definition openBreaks (l : list BreakEntry.t) : list BreakEntry.t :=
  filter (fun b => BreakEntry.end_time b = None) l.

(** The world an action leaves behind. *)
Definition after {A} (m : M A) (env : Env) (w : World) : World :=
  world (snd (run m env w)).

(** The entry a call of [startTimer] puts in flight: the one the remote
    answers with, or a provisional one minted from the clock. *)
Definition entryInFlight (env : Env) (projectId : option string) : TimeEntry.t :=
  match remote env (ClockIn projectId []) with
  | Ok200 timeEntry => timeEntry
  | _ => Timer.newTimeEntry (clock env 0) (clock env 1) projectId
  end.

(** No project is selected: the session has no project with an id, and the
    in-flight entry, if any, carries no project id. *)
Definition noProjectSelected (t : TimerStore.t) : Prop :=
  (forall p, currentProject t = Some p -> Project.id p = ""%string) /\
  (forall e i, currentTimeEntry t = Some e -> TimeEntry.project_id e = Some i ->
     i = ""%string).

(** The description is empty or made of white space only. *)
Definition blankDescription (t : TimerStore.t) : Prop :=
  Forall (fun c => isWhiteSpace c = true) (description t).

Local Open Scope Q_scope.

(** A time value of a JS [Date]: at most 8.64e15 ms from the epoch. *)
Definition validTime (t : Z) : Prop := (Z.abs t <= 8640000000000000)%Z.

(** A form time ['HH:MM']: minutes of a day. *)
Definition validMinutes (m : Z) : Prop := (0 <= m < 1440)%Z.

(** A span in hours, as a rational. *)
Definition hoursOfMs (ms : Z) : Q := inject_Z ms / 3600000.

(** [h] holds the hours of a span of [ms] milliseconds as a double does:
    within one part in 2^51 of [ms / 3600000]. *)
Definition hoursOfSpan (h : Q) (ms : Z) : Prop :=
  Qabs (h - hoursOfMs ms) <= Qabs (hoursOfMs ms) * (1 # 2 ^ 51).

(** [k] is the integer nearest to [x], the even one on a tie. *)
Definition nearest (x : Q) (k : Z) : Prop :=
  Qabs (inject_Z k - x) < 1 # 2 \/
  (Qabs (inject_Z k - x) == 1 # 2 /\ Z.even k = true).

(** The numbers that a double can hold: 53 binary digits, none below
    [2 ^ -1074]. *)
Definition representable (x : Q) : Prop :=
  exists m e : Z, (Z.abs m <= 2 ^ 53)%Z /\ (- 1074 <= e)%Z /\ x == inject_Z m * 2 ^ e.

(** The smallest normal double. *)
Definition tiny : Q := 2 ^ (- 1022).

(** The zone [tz] has the same offset at the start and at the end of the
    form [m]: no change of offset lies between them. *)
Definition sameOffset (tz : Z -> Z) (m : ManualEntry.t) : Prop :=
  tz (isoUtc (ManualEntry.date m) (ManualEntry.start_time m)) =
  tz (isoUtc (ManualEntry.date m) (ManualEntry.end_time m)).

(** The remote never confirms a request. *)
Definition remoteDown (env : Env) : Prop :=
  forall r body, remote env r <> Ok200 body.

(** A project is selected, in the session or in the in-flight entry. *)
Definition projectSelected (t : TimerStore.t) : Prop :=
  truthy_opt (Project.id <$> currentProject t) = true \/
  truthy_opt (currentTimeEntry t ≫= TimeEntry.project_id) = true.

(** The required fields of a session are filled in. *)
Definition fieldsFilled (t : TimerStore.t) : Prop :=
  projectSelected t /\ trim (description t) <> [].

(** The hour fields of [e] for [worked] hours of work: regular and overtime
    hours are the exact split of [worked] at eight hours, and the total is
    the double nearest to a number of hundredths that is within 0.005 of
    [worked]. *)
Definition storedHours (e : TimeEntry.t) (worked : Q) : Prop :=
  TimeEntry.regular_hours e == Qmin worked 8 /\
  TimeEntry.overtime_hours e == Qmax 0 (worked - 8) /\
  TimeEntry.regular_hours e + TimeEntry.overtime_hours e == worked /\
  exists n : Z,
    TimeEntry.total_hours e == Double.round (n # 100) /\
    Qabs ((n # 100) - worked) <= 1 # 200.

(** Worked duration as the specification words it: the clock span minus
    the durations of the closed breaks that are marked unpaid. *)
Definition spec_unpaidBreakMs (breaks : list BreakEntry.t) : Z :=
  foldr
    (fun b acc =>
       match BreakEntry.end_time b with
       | Some ended =>
           if BreakEntry.paid b then acc
           else (ended - BreakEntry.start_time b + acc)%Z
       | None => acc
       end)
    0%Z breaks.

Definition spec_workedMs (clockIn clockOut : Z) (breaks : list BreakEntry.t) : Z :=
  (clockOut - clockIn - spec_unpaidBreakMs breaks)%Z.

(** The session of [w] with the break list of its in-flight entry [entry]
    replaced by [breaks]. *)
Definition withBreaks (breaks : list BreakEntry.t) (entry : TimeEntry.t) (w : World)
  : World :=
  withTimer
    (set_currentTimeEntry (Some (TimeEntry.set_break_entries breaks entry)) (timer w))
    w.

Local Close Scope Q_scope.

(** A sequence of [createManualEntry] calls, each with its form and its
    environment (what the remote answers to it, what the clock shows):
    the entries returned, in call order, and the world at the end. *)
Fixpoint createManualEntries (calls : list (Env * TimeEntryForm.t)) (w : World)
  : list TimeEntry.t * World :=
  match calls with
  | [] => ([], w)
  | (env, data) :: calls' =>
      let '(r, s) := run (Entries.createManualEntry data) env w in
      let '(es, w') := createManualEntries calls' (world s) in
      (match r with Ret e => e :: es | Throw _ => es end, w')
  end.

(** The list under ['completed-time-entries']. *)
Definition cacheOf (w : World) : list TimeEntry.t := default [] (completed w).

(** The order [sort] establishes: later keys first. *)
Definition laterFirst (a b : TimeEntry.t) : Prop :=
  (Entries.sortKey b <= Entries.sortKey a)%Z.

(** No remote call is among the effects. *)
Definition noFetch (tr : list Effect) : Prop :=
  forall r, EFetch r ∉ tr.

End Vocabulary.

(** * Sample data for the concrete instances *)

Section Samples.
Import TimerStore TimeEntriesStore.

(** The initial state of the timer store. *)
Definition initialTimer : TimerStore.t :=
  {| TimerStore.isActive := false;
     TimerStore.isPaused := false;
     TimerStore.startTime := None;
     TimerStore.pausedTime := None;
     TimerStore.currentProject := None;
     TimerStore.currentBreakType := None;
     TimerStore.elapsedTime := 0;
     TimerStore.currentTimeEntry := None;
     TimerStore.breakStartTime := None;
     TimerStore.description := [] |}.

(** The initial state of the time-entries store. *)
Definition initialEntries : TimeEntriesStore.t :=
  {| TimeEntriesStore.timeEntries := [];
     TimeEntriesStore.isLoading := false;
     TimeEntriesStore.error := None |}.

Definition initialWorld : World :=
  {| timer := initialTimer; store := initialEntries; completed := None |}.

(** A remote that cannot be reached; the clock advances by one second per
    reading, starting at [t0], and the zone is UTC. *)
Definition offline (t0 : Z) : Env :=
  {| remote := fun _ => Failed;
     clock := fun n => t0 + 1000 * Z.of_nat n;
     tzOffset := fun _ => 0 |}.

(** A remote that answers every request with [reply]. *)
Definition online (reply : Response) (t0 : Z) : Env :=
  {| remote := fun _ => reply;
     clock := fun n => t0 + 1000 * Z.of_nat n;
     tzOffset := fun _ => 0 |}.

(** One hour in milliseconds. *)
Definition hour : Z := 3600000.

(** The tenth of March 2024, the day on which New York went over to
    daylight saving time. *)
Definition march10 : Z := 1710028800000.

(** The zone of New York around that day: five hours behind UTC up to
    02:00 local time, four hours behind from 03:00 on; a local time in the
    hour that was skipped is read with the offset before the change. *)
Definition newYork (t : Z) : Z :=
  if t <? march10 + 3 * hour then - (5 * hour) else - (4 * hour).

(** The remote cannot be reached and the browser is in New York. *)
Definition offlineInNewYork (t0 : Z) : Env :=
  {| remote := fun _ => Failed;
     clock := fun n => t0 + 1000 * Z.of_nat n;
     tzOffset := newYork |}.

(** A break of a sample entry. *)
Definition sampleBreak (kind : BreakType) (isPaid : bool) (from : Z) (to : option Z)
  : BreakEntry.t :=
  {| BreakEntry.id := "break-1";
     BreakEntry.time_entry_id := "temp-0";
     BreakEntry.break_type := kind;
     BreakEntry.start_time := from;
     BreakEntry.end_time := to;
     BreakEntry.paid := isPaid;
     BreakEntry.notes := None |}.

(** A session started at the epoch on project ["1"], with the given breaks
    and description. *)
Definition sampleSession (breaks : list BreakEntry.t) (breakStart : option Z)
    (desc : text) : World :=
  withTimer
    (TimerStore.set_description desc
      (TimerStore.set_breakStartTime breakStart
        (Timer.started 0
          (TimeEntry.set_break_entries breaks (Timer.newTimeEntry 0 0 (Some "1")))
          initialTimer)))
    initialWorld.

(** An instance: an active session started without a project, described by
    a space and a tab. *)
Definition sessionWithoutProject : World :=
  withTimer
    (set_description [0x20; 0x09]%N
      (Timer.started 0 (Timer.newTimeEntry 0 0 None) initialTimer))
    initialWorld.

Local Open Scope Q_scope.

(** A one-minute manual entry, from 09:00 to 09:01 on the first of January
    1970. *)
Definition oneMinuteForm : TimeEntryForm.t :=
  {| TimeEntryForm.project_id := Some "1"%string;
     TimeEntryForm.description := Some [0x78%N];
     TimeEntryForm.billable := true;
     TimeEntryForm.manual_entry :=
       {| ManualEntry.date := 0;
          ManualEntry.start_time := 540;
          ManualEntry.end_time := 541;
          ManualEntry.break_duration := 0 |} |}.

(** A manual entry from 01:00 to 04:00 on the tenth of March 2024. *)
Definition nightForm : TimeEntryForm.t :=
  {| TimeEntryForm.project_id := Some "1"%string;
     TimeEntryForm.description := Some [0x78%N];
     TimeEntryForm.billable := true;
     TimeEntryForm.manual_entry :=
       {| ManualEntry.date := march10;
          ManualEntry.start_time := 60;
          ManualEntry.end_time := 240;
          ManualEntry.break_duration := 0 |} |}.

(** A manual entry that ends before it starts: from 17:00 to 09:00. *)
Definition backwardsForm : TimeEntryForm.t :=
  {| TimeEntryForm.project_id := Some "1"%string;
     TimeEntryForm.description := Some [0x78%N];
     TimeEntryForm.billable := true;
     TimeEntryForm.manual_entry :=
       {| ManualEntry.date := 0;
          ManualEntry.start_time := 1020;
          ManualEntry.end_time := 540;
          ManualEntry.break_duration := 0 |} |}.

Local Close Scope Q_scope.

(** 101 creations on the same day, each a minute long, one every ten
    seconds, the remote being down. *)
Definition calls101 : list (Env * TimeEntryForm.t) :=
  map (fun n => (offline (10000 * Z.of_nat n), oneMinuteForm)) (seq 0 101).

(** An entry with the given id and times, for the instances. *)
Definition sampleEntry (i : string) (created updated : Z) : TimeEntry.t :=
  TimeEntry.set_updated_at updated
    {| TimeEntry.id := i;
       TimeEntry.user_id := "current-user";
       TimeEntry.organization_id := "current-org";
       TimeEntry.date := utcDate created;
       TimeEntry.clock_in := created;
       TimeEntry.clock_out := Some (created + hour);
       TimeEntry.break_entries := [];
       TimeEntry.project_id := Some "1"%string;
       TimeEntry.department_id := None;
       TimeEntry.description := Some [0x78%N];
       TimeEntry.billable := false;
       TimeEntry.status := submitted;
       TimeEntry.regular_hours := 1;
       TimeEntry.overtime_hours := 0;
       TimeEntry.total_hours := 1;
       TimeEntry.approval_notes := None;
       TimeEntry.approved_by := None;
       TimeEntry.approved_at := None;
       TimeEntry.created_at := Some created;
       TimeEntry.updated_at := created |}.

(** A cache of three entries last updated at 1000 s; a store that holds the
    first two of them in a version updated at 2000 s. *)
Definition staleCache : list TimeEntry.t :=
  [sampleEntry "a" (3 * hour) 1000000; sampleEntry "b" (2 * hour) 1000000;
   sampleEntry "c" hour 1000000].

Definition fresherStore : list TimeEntry.t :=
  [sampleEntry "a" (3 * hour) 2000000; sampleEntry "b" (2 * hour) 2000000].

Definition staleWorld : World :=
  {| timer := initialTimer;
     store := set_timeEntries fresherStore initialEntries;
     completed := Some staleCache |}.

(** [{ billable: false }] *)
Definition notBillable : Patch.t :=
  {| Patch.id := None; Patch.user_id := None; Patch.organization_id := None;
     Patch.date := None; Patch.clock_in := None; Patch.clock_out := None;
     Patch.break_entries := None; Patch.project_id := None;
     Patch.department_id := None; Patch.description := None;
     Patch.billable := Some false; Patch.status := None;
     Patch.regular_hours := None; Patch.overtime_hours := None;
     Patch.total_hours := None; Patch.approval_notes := None;
     Patch.approved_by := None; Patch.approved_at := None;
     Patch.created_at := None; Patch.updated_at := None |}.

(** The world after the one-minute manual entry was created with the remote
    down: the store and the cache hold the entry minted as ["manual-0"]. *)
Definition manualWorld : World :=
  after (Entries.createManualEntry oneMinuteForm) (offline 0) initialWorld.

(** What a remote may answer to the patch of that entry. *)
Definition remoteVersion : TimeEntry.t :=
  TimeEntry.set_status approved (sampleEntry "manual-0" 0 5000).

End Samples.

(** * Vocabulary of the further properties *)

Section FurtherVocabulary.
Import TimerStore TimeEntriesStore.

(** [k] is the place of the first entry of [l] with the id [i]. *)
Definition firstWithId (i : string) (l : list TimeEntry.t) (k : nat) : Prop :=
  (exists e, l !! k = Some e /\ TimeEntry.id e = i) /\
  forall j e, (j < k)%nat -> l !! j = Some e -> TimeEntry.id e <> i.

(** The fields of the session other than the elapsed time. *)
Definition sameSessionButElapsed (t t' : TimerStore.t) : Prop :=
  isActive t' = isActive t /\ isPaused t' = isPaused t /\
  startTime t' = startTime t /\ pausedTime t' = pausedTime t /\
  currentProject t' = currentProject t /\
  currentBreakType t' = currentBreakType t /\
  currentTimeEntry t' = currentTimeEntry t /\
  breakStartTime t' = breakStartTime t /\
  description t' = description t.

(** The periodic driver of the layout: one [updateElapsedTime] per reading
    of the clock, each in its environment. *)
Definition tickAll (envs : list Env) (w : World) : World :=
  fold_left (fun w env => after Timer.updateElapsedTime env w) envs w.

(** The entries of the events in a trace, and its remote requests. *)
Definition dispatched (tr : list Effect) : list TimeEntry.t :=
  omap (fun ef => match ef with EDispatch e => Some e | _ => None end) tr.

Definition requests (tr : list Effect) : list Request :=
  omap (fun ef => match ef with EFetch r => Some r | _ => None end) tr.

(** A session that is not tracking: every field but the break start is the
    initial one. *)
Definition sessionEnded (t : TimerStore.t) : Prop :=
  isActive t = false /\ isPaused t = false /\ startTime t = None /\
  pausedTime t = None /\ currentProject t = None /\
  currentBreakType t = None /\ elapsedTime t = 0 /\
  currentTimeEntry t = None /\ description t = [].

(** The fields of an entry other than its project and its billable flag. *)
Definition sameEntryButProject (e e' : TimeEntry.t) : Prop :=
  TimeEntry.id e' = TimeEntry.id e /\
  TimeEntry.user_id e' = TimeEntry.user_id e /\
  TimeEntry.organization_id e' = TimeEntry.organization_id e /\
  TimeEntry.date e' = TimeEntry.date e /\
  TimeEntry.clock_in e' = TimeEntry.clock_in e /\
  TimeEntry.clock_out e' = TimeEntry.clock_out e /\
  TimeEntry.break_entries e' = TimeEntry.break_entries e /\
  TimeEntry.department_id e' = TimeEntry.department_id e /\
  TimeEntry.description e' = TimeEntry.description e /\
  TimeEntry.status e' = TimeEntry.status e /\
  TimeEntry.regular_hours e' = TimeEntry.regular_hours e /\
  TimeEntry.overtime_hours e' = TimeEntry.overtime_hours e /\
  TimeEntry.total_hours e' = TimeEntry.total_hours e /\
  TimeEntry.approval_notes e' = TimeEntry.approval_notes e /\
  TimeEntry.approved_by e' = TimeEntry.approved_by e /\
  TimeEntry.approved_at e' = TimeEntry.approved_at e /\
  TimeEntry.created_at e' = TimeEntry.created_at e /\
  TimeEntry.updated_at e' = TimeEntry.updated_at e.

(** The entry that [stopTimer] submits for the in-flight entry [entry]:
    the one the remote answers with, or [entry] closed locally; in both
    cases with the description of the session. *)
Definition submittedEntry (env : Env) (w : World) (entry : TimeEntry.t) : TimeEntry.t :=
  match remote env (ClockOut (description (timer w))) with
  | Ok200 body => TimeEntry.set_description (Some (description (timer w))) body
  | _ => Timer.closeLocally entry (clock env 0) (description (timer w))
  end.

End FurtherVocabulary.

(** * Properties *)

(** Unfolding the monad. *)
Ltac run_m :=
  cbv beta iota delta
    [run bind ret throw try_catch finally emit getWorld putWorld now_ fetch_
     localZone getTimer setTimer getEntries setEntries getItem getItemOrEmpty
     setItem dispatchEvent];
  cbn [world ticks trace timer store completed app].

(** [lra] with the injections of integers as unknowns. *)
Ltac lraz :=
  repeat match goal with
         | |- context [inject_Z ?z] =>
             let q := fresh "q" in set (q := inject_Z z) in *; clearbody q
         | H : context [inject_Z ?z] |- _ =>
             let q := fresh "q" in set (q := inject_Z z) in *; clearbody q
         end;
  lra.

(** ** Facts on the helpers *)

Lemma findIndex_Some {A} (p : A -> bool) (l : list A) (i : nat) :
  findIndex p l = Some i ->
  exists x, l !! i = Some x /\ p x = true /\
    forall j y, (j < i)%nat -> l !! j = Some y -> p y = false.
Proof.
  revert i. induction l as [|a l IH]; intros i; cbn; [discriminate|].
  destruct (p a) eqn:Ea.
  - intros [= <-]. exists a. repeat split; [assumption | lia].
  - destruct (findIndex p l) as [k|]; [|discriminate].
    intros [= <-]. destruct (IH k eq_refl) as (x & Hx & Hp & Hlt).
    exists x. repeat split; [assumption..|].
    intros [|j] y Hj; cbn; [now intros [= <-] | apply Hlt; lia].
Qed.

Lemma findIndex_None {A} (p : A -> bool) (l : list A) :
  findIndex p l = None -> forall x, x ∈ l -> p x = false.
Proof.
  induction l as [|a l IH]; cbn; intros H x Hx.
  - now apply elem_of_nil in Hx.
  - destruct (p a) eqn:Ea; [discriminate|].
    destruct (findIndex p l); [discriminate|].
    apply elem_of_cons in Hx as [-> | Hx]; auto.
Qed.

Lemma elem_of_insert_found {A} (p : A -> bool) (l : list A) (i : nat) (x : A) :
  findIndex p l = Some i -> x ∈ <[i := x]> l.
Proof.
  intros (y & Hy & _)%findIndex_Some.
  apply list_elem_of_lookup. exists i.
  apply list_lookup_insert_eq. now apply lookup_lt_Some in Hy.
Qed.

(** ** Breaks *)

Section Breaks.
Import TimerStore.

Lemma lookup_last_snoc {A} (l : list A) (x : A) :
  (l ++ [x]) !! Z.to_nat (Z.of_nat (length (l ++ [x])) - 1) = Some x.
Proof.
  rewrite length_app. cbn [length].
  replace (Z.to_nat (Z.of_nat (length l + 1) - 1)) with (length l + 0)%nat by lia.
  now rewrite lookup_app_r, Nat.add_comm, Nat.add_sub by lia.
Qed.

Lemma insert_last_snoc {A} (l : list A) (x y : A) :
  <[Z.to_nat (Z.of_nat (length (l ++ [x])) - 1) := y]> (l ++ [x]) = l ++ [y].
Proof.
  rewrite length_app. cbn [length].
  replace (Z.to_nat (Z.of_nat (length l + 1) - 1)) with (length l + 0)%nat by lia.
  now rewrite insert_app_r.
Qed.

(** C10. [endBreak] on a session with a recorded break start and an
    in-flight entry whose break list is [bs ++ [b]] sets the end of [b], the
    last break, to the current time, whether or not [b] had an end already;
    it clears the current break kind and the break start.  The breaks [bs]
    before it, the other fields of [b], of the entry and of the session, the
    entries store and the local cache are unchanged.  Without a recorded
    break start, or without an in-flight entry, [endBreak] changes nothing
    and performs no effect. *)
Theorem endBreak_closes_last_break (env : Env) (w : World) :
  (forall entry start bs b,
      currentTimeEntry (timer w) = Some entry ->
      breakStartTime (timer w) = Some start ->
      TimeEntry.break_entries entry = bs ++ [b] ->
      exists t' entry' b',
        run Timer.endBreak env w =
          (Ret tt,
           {| world := {| timer := t'; store := store w; completed := completed w |};
              ticks := 1; trace := [ESetTimer] |}) /\
        currentBreakType t' = None /\
        breakStartTime t' = None /\
        sameSessionButBreak (timer w) t' /\
        currentTimeEntry t' = Some entry' /\
        sameEntryButBreaks entry entry' /\
        TimeEntry.break_entries entry' = bs ++ [b'] /\
        BreakEntry.end_time b' = Some (clock env 0) /\
        sameBreakButEnd b b') /\
  (currentTimeEntry (timer w) = None \/ breakStartTime (timer w) = None ->
   run Timer.endBreak env w = (Ret tt, {| world := w; ticks := 1; trace := [] |})).
Proof.
  split.
  - intros entry start bs b He Hs Hb.
    unfold Timer.endBreak. run_m. rewrite He, Hs, Hb.
    rewrite lookup_last_snoc, insert_last_snoc.
    assert ((0 <=? Z.of_nat (length (bs ++ [b])) - 1) = true) as ->.
    { rewrite length_app. cbn [length]. apply Z.leb_le. lia. }
    eexists _, _, _. split; [reflexivity|].
    repeat split; reflexivity.
  - intros H. unfold Timer.endBreak. run_m.
    destruct H as [-> | H]; [reflexivity|].
    rewrite H. now destruct (currentTimeEntry (timer w)).
Qed.

(** An instance: a session on a lunch break that began after one hour and
    ends at 5400 s; and the idle store. *)
Lemma endBreak_closes_last_break_witness :
  (exists t' entry' b',
     run Timer.endBreak (offline (hour + hour / 2))
       (sampleSession [sampleBreak lunch false hour None] (Some hour) []) =
     (Ret tt,
      {| world := {| timer := t'; store := initialEntries; completed := None |};
         ticks := 1; trace := [ESetTimer] |}) /\
     currentTimeEntry t' = Some entry' /\
     TimeEntry.break_entries entry' = [b'] /\
     BreakEntry.end_time b' = Some 5400000) /\
  run Timer.endBreak (offline 0) initialWorld =
    (Ret tt, {| world := initialWorld; ticks := 1; trace := [] |}).
Proof.
  split.
  - destruct (proj1 (endBreak_closes_last_break (offline (hour + hour / 2))
        (sampleSession [sampleBreak lunch false hour None] (Some hour) []))
        _ hour [] (sampleBreak lunch false hour None)
        eq_refl eq_refl eq_refl)
      as (t' & entry' & b' & Hrun & _ & _ & _ & He & _ & Hb & Hend & _).
    exists t', entry', b'. repeat split; assumption.
  - apply (proj2 (endBreak_closes_last_break (offline 0) initialWorld)).
    left. reflexivity.
Defined.

(** C5, as stated, fails: a session whose entry has an open lunch break
    accepts [startBreak('personal')] without an error, and the entry then
    holds two open breaks. *)
Lemma startBreak_open_break_counterexample :
  let w := sampleSession [sampleBreak lunch false hour None] (Some hour) [] in
  exists s entry entry',
    currentTimeEntry (timer w) = Some entry /\
    length (openBreaks (TimeEntry.break_entries entry)) = 1%nat /\
    run (Timer.startBreak personal) (offline (2 * hour)) w = (Ret tt, s) /\
    currentTimeEntry (timer (world s)) = Some entry' /\
    length (TimeEntry.break_entries entry') = 2%nat /\
    length (openBreaks (TimeEntry.break_entries entry')) = 2%nat.
Proof.
  cbv zeta. eexists _, _, _.
  split; [reflexivity|]. split; [reflexivity|].
  split; [vm_compute; reflexivity|].
  repeat split; reflexivity.
Qed.

Lemma openBreaks_snoc (l : list BreakEntry.t) (b : BreakEntry.t) :
  BreakEntry.end_time b = None ->
  length (openBreaks (l ++ [b])) = S (length (openBreaks l)).
Proof.
  intros Hb. unfold openBreaks. rewrite filter_app, length_app.
  rewrite filter_cons_True by assumption. cbn. lia.
Qed.

(** C5, amended.  [startBreak(kind)] has no guard on an open break and
    returns nothing.  With an in-flight entry it always appends a new open
    break (started now, paid exactly for a short break) behind the existing
    breaks, which it leaves as they are, and records the break kind and the
    break start in the session: the entry has one more open break than
    before.  The other fields of the entry and of the session, the entries
    store and the local cache are unchanged. *)
Theorem startBreak_appends_open_break (env : Env) (w : World)
    (entry : TimeEntry.t) (kind : BreakType) :
  currentTimeEntry (timer w) = Some entry ->
  exists t' entry' b',
    run (Timer.startBreak kind) env w =
      (Ret tt,
       {| world := {| timer := t'; store := store w; completed := completed w |};
          ticks := 2; trace := [ESetTimer] |}) /\
    currentBreakType t' = Some kind /\
    breakStartTime t' = Some (clock env 0) /\
    sameSessionButBreak (timer w) t' /\
    currentTimeEntry t' = Some entry' /\
    sameEntryButBreaks entry entry' /\
    TimeEntry.break_entries entry' = TimeEntry.break_entries entry ++ [b'] /\
    BreakEntry.end_time b' = None /\
    BreakEntry.start_time b' = clock env 0 /\
    BreakEntry.break_type b' = kind /\
    BreakEntry.paid b' = match kind with short_break => true | _ => false end /\
    length (openBreaks (TimeEntry.break_entries entry')) =
      S (length (openBreaks (TimeEntry.break_entries entry))).
Proof.
  intros He. unfold Timer.startBreak. run_m. rewrite He.
  eexists _, _, _. split; [reflexivity|].
  repeat split; try reflexivity.
  cbn [TimeEntry.break_entries TimeEntry.set_break_entries].
  now apply openBreaks_snoc.
Qed.

Lemma startBreak_appends_open_break_witness :
  exists t' entry' b',
    run (Timer.startBreak personal) (offline (2 * hour))
      (sampleSession [sampleBreak lunch false hour None] (Some hour) []) =
      (Ret tt,
       {| world := {| timer := t'; store := initialEntries; completed := None |};
          ticks := 2; trace := [ESetTimer] |}) /\
    currentTimeEntry t' = Some entry' /\
    TimeEntry.break_entries entry' = [sampleBreak lunch false hour None; b'] /\
    BreakEntry.end_time b' = None /\
    length (openBreaks (TimeEntry.break_entries entry')) = 2%nat.
Proof.
  destruct (startBreak_appends_open_break (offline (2 * hour))
      (sampleSession [sampleBreak lunch false hour None] (Some hour) [])
      _ personal eq_refl)
    as (t' & entry' & b' & Hrun & _ & _ & _ & He & _ & Hb & Hend & _ & _ & _ & Hn).
  exists t', entry', b'. repeat split; assumption.
Defined.

End Breaks.

(** ** Starting and stopping *)

Section StartStop.
Import TimerStore.

(** C3, as stated, fails: thirty seconds into an active session a second
    [startTimer] is not a no-op.  The session stays active, but its start
    time moves to the time of the second call, the elapsed time falls back
    to zero and the in-flight entry is replaced by a new one. *)
Lemma startTimer_twice_counterexample :
  let w1 := after Timer.updateElapsedTime (offline 30000)
              (after (Timer.startTimer (Some "1"%string)) (offline 0) initialWorld) in
  let w2 := after (Timer.startTimer (Some "1"%string)) (offline 60000) w1 in
  isActive (timer w1) = true /\
  startTime (timer w1) = Some 0 /\ elapsedTime (timer w1) = 30 /\
  startTime (timer w2) = Some 60000 /\ elapsedTime (timer w2) = 0 /\
  (TimeEntry.id <$> currentTimeEntry (timer w1)) = Some "temp-1000"%string /\
  (TimeEntry.id <$> currentTimeEntry (timer w2)) = Some "temp-61000"%string /\
  w2 <> w1.
Proof.
  cbv zeta. repeat split; try (vm_compute; reflexivity).
  intros H. apply (f_equal (fun w => startTime (timer w))) in H.
  vm_compute in H. discriminate H.
Qed.

(** C3, amended.  [startTimer] has no guard on an active session (the timer
    widget, its caller, starts only when the session is not active).  In
    every state, active or not, it returns nothing and leaves the single
    session of the store active, with the start time of this call, an
    elapsed time of zero, no pause and no break kind, and with the entry of
    this call in flight: a second start replaces the start time, the elapsed
    time and the in-flight entry of the first.  The selected project, the
    description, the break start, the entries store and the local cache are
    unchanged. *)
Theorem startTimer_overwrites_session (env : Env) (w : World)
    (projectId : option string) :
  exists t' n,
    run (Timer.startTimer projectId) env w =
      (Ret tt,
       {| world := {| timer := t'; store := store w; completed := completed w |};
          ticks := n; trace := [EFetch (ClockIn projectId []); ESetTimer] |}) /\
    isActive t' = true /\ isPaused t' = false /\
    startTime t' = Some (clock env 0) /\ pausedTime t' = None /\
    elapsedTime t' = 0 /\ currentBreakType t' = None /\
    currentTimeEntry t' = Some (entryInFlight env projectId) /\
    currentProject t' = currentProject (timer w) /\
    breakStartTime t' = breakStartTime (timer w) /\
    description t' = description (timer w).
Proof.
  unfold Timer.startTimer, entryInFlight. run_m.
  destruct (remote env (ClockIn projectId [])); run_m;
    eexists _, _; (split; [reflexivity|]); repeat split; reflexivity.
Qed.

Lemma dropWhile_all {A} (p : A -> bool) (l : list A) :
  forallb p l = true -> dropWhile p l = [].
Proof.
  induction l as [|x l IH]; cbn; [reflexivity|].
  intros [-> Hl]%andb_prop. auto.
Qed.

Lemma dropWhile_nil_all {A} (p : A -> bool) (l : list A) :
  dropWhile p l = [] -> forallb p l = true.
Proof.
  induction l as [|x l IH]; cbn; [reflexivity|].
  destruct (p x); [auto | discriminate].
Qed.

Lemma dropWhile_head {A} (p : A -> bool) (l : list A) (x : A) (r : list A) :
  dropWhile p l = x :: r -> p x = false.
Proof.
  induction l as [|a l IH]; cbn; [discriminate|].
  destruct (p a) eqn:Ea; [exact IH|]. now intros [= <- _].
Qed.

(** [trim] leaves nothing exactly of the texts made of white space only. *)
Lemma trim_nil_iff (s : text) : trim s = [] <-> forallb isWhiteSpace s = true.
Proof.
  unfold trim. split.
  - intros H. apply dropWhile_nil_all.
    apply (f_equal (@rev N)) in H. rewrite rev_involutive in H. cbn [rev] in H.
    destruct (dropWhile isWhiteSpace s) as [|c r] eqn:E; [reflexivity|].
    pose proof (dropWhile_head _ _ _ _ E) as Hc.
    apply dropWhile_nil_all in H. rewrite forallb_forall in H.
    rewrite (H c) in Hc; [discriminate|].
    apply in_rev. rewrite rev_involutive. now left.
  - intros H. now rewrite (dropWhile_all _ _ H).
Qed.

(** C4. [stopTimer] on a session with no project selected and a blank
    description returns a failure with exactly the two validation errors,
    for the project and for the description, and changes nothing: the
    session (so its activity, start time, elapsed time and in-flight
    entry), the entries store and the local cache are the ones before, and
    no effect takes place: no [set], no write to [localStorage], no remote
    call, no event. *)
Theorem stopTimer_validation_errors (env : Env) (w : World) :
  noProjectSelected (timer w) ->
  blankDescription (timer w) ->
  run Timer.stopTimer env w =
    (Ret {| Timer.success := false;
            Timer.errors :=
              Some ["Please select a project";
                    "Please describe what you're working on"]%string |},
     {| world := w; ticks := 0; trace := [] |}).
Proof.
  intros [Hp He] Hd.
  assert (Hproj : truthy_opt (Project.id <$> currentProject (timer w)) = false).
  { destruct (currentProject (timer w)) as [p|]; [|reflexivity].
    cbn. now rewrite (Hp p eq_refl). }
  assert (Hent : truthy_opt (currentTimeEntry (timer w) ≫= TimeEntry.project_id) = false).
  { destruct (currentTimeEntry (timer w)) as [e|]; [|reflexivity].
    cbn. destruct (TimeEntry.project_id e) as [i|] eqn:Ei; [|reflexivity].
    cbn. now rewrite (He e i eq_refl Ei). }
  assert (Htrim : trim (description (timer w)) = []).
  { apply trim_nil_iff, forallb_forall. intros c Hc.
    unfold blankDescription in Hd. rewrite Forall_forall in Hd.
    apply Hd. now apply list_elem_of_In. }
  unfold Timer.stopTimer, Timer.validateTimerFields. run_m.
  rewrite Hproj, Hent, Htrim. reflexivity.
Qed.

Lemma stopTimer_validation_errors_witness :
  isActive (timer sessionWithoutProject) = true /\
  run Timer.stopTimer (offline hour) sessionWithoutProject =
    (Ret {| Timer.success := false;
            Timer.errors :=
              Some ["Please select a project";
                    "Please describe what you're working on"]%string |},
     {| world := sessionWithoutProject; ticks := 0; trace := [] |}).
Proof.
  split; [reflexivity|].
  apply (stopTimer_validation_errors (offline hour) sessionWithoutProject).
  - split; [intros p H; discriminate H | intros e i H Hi].
    injection H as <-. discriminate Hi.
  - repeat constructor.
Defined.

End StartStop.

(** ** Binary floating point *)

Section DoubleFacts.
Local Open Scope Q_scope.

Lemma inject_Z_minus (a b : Z) : inject_Z (a - b) = inject_Z a - inject_Z b.
Proof. unfold Z.sub. now rewrite inject_Z_plus, inject_Z_opp. Qed.

Lemma pow2_pos (e : Z) : 0 < 2 ^ e.
Proof. now apply Qpower_0_lt. Qed.

Lemma pow2_plus (a b : Z) : 2 ^ (a + b) == 2 ^ a * 2 ^ b.
Proof. now apply Qpower_plus. Qed.

Lemma pow2_minus (a b : Z) : 2 ^ (a - b) == 2 ^ a / 2 ^ b.
Proof. now apply Qpower_minus. Qed.

Lemma pow2_inject (n : Z) : (0 <= n)%Z -> inject_Z (2 ^ n) == 2 ^ n.
Proof. intros H. now rewrite Zpower_Qpower. Qed.

Lemma pow2_le (a b : Z) : (a <= b)%Z -> 2 ^ a <= 2 ^ b.
Proof. intros H. now apply Qpower_le_compat_l. Qed.

Lemma pow2_lt_inv (a b : Z) : 2 ^ a < 2 ^ b -> (a < b)%Z.
Proof. intros H. now apply (Qpower_lt_compat_l_inv 2). Qed.

Lemma div_lt_div (n d a b : Q) :
  0 < d -> 0 < b -> 0 < a -> n < a -> b <= d -> n / d < a / b.
Proof.
  intros Hd Hb Ha Hn Hbd. apply Qlt_shift_div_r; [exact Hd|].
  apply Qlt_le_trans with a; [exact Hn|].
  setoid_replace (a / b * d) with (a + a * (d - b) / b) using relation Qeq by (field; lra).
  assert (0 <= a * (d - b) / b); [|lra].
  apply Qle_shift_div_l; [exact Hb|].
  setoid_replace (0 * b) with 0 using relation Qeq by ring. apply Qmult_le_0_compat; lra.
Qed.

Lemma div_le_div (n d a b : Q) :
  0 < d -> 0 < b -> 0 < a -> a <= n -> d <= b -> a / b <= n / d.
Proof.
  intros Hd Hb Ha Hn Hbd. apply Qle_shift_div_l; [exact Hd|].
  apply Qle_trans with a; [|exact Hn].
  setoid_replace (a / b * d) with (a - a * (b - d) / b) using relation Qeq by (field; lra).
  assert (0 <= a * (b - d) / b); [|lra].
  apply Qle_shift_div_l; [exact Hb|].
  setoid_replace (0 * b) with 0 using relation Qeq by ring. apply Qmult_le_0_compat; lra.
Qed.

(** [ilog2 x] is the exponent of the power of two at or below [|x|]. *)
Lemma ilog2_spec (x : Q) :
  ~ x == 0 -> 2 ^ Double.ilog2 x <= Qabs x /\ Qabs x < 2 ^ (Double.ilog2 x + 1).
Proof.
  intros Hx. unfold Double.ilog2.
  destruct x as [n d]. cbn [Qnum Qden Qabs].
  assert (Hn : (0 < Z.abs n)%Z).
  { destruct (Z.eq_dec n 0%Z) as [->|]; [now destruct Hx | lia]. }
  set (a := Z.log2 (Z.abs n)). set (b := Z.log2 (Z.pos d)).
  destruct (Z.log2_spec (Z.abs n) Hn) as [Ha1 Ha2]. fold a in Ha1, Ha2.
  destruct (Z.log2_spec (Z.pos d) eq_refl) as [Hb1 Hb2]. fold b in Hb1, Hb2.
  assert (Ha0 : (0 <= a)%Z) by apply Z.log2_nonneg.
  assert (Hb0 : (0 <= b)%Z) by apply Z.log2_nonneg.
  assert (E : Z.abs n # d == inject_Z (Z.abs n) / inject_Z (Z.pos d)) by apply Qmake_Qdiv.
  assert (Hd : 0 < inject_Z (Z.pos d)) by reflexivity.
  assert (HA1 : 2 ^ a <= inject_Z (Z.abs n)).
  { rewrite <- pow2_inject by lia. now rewrite <- Zle_Qle. }
  assert (HA2 : inject_Z (Z.abs n) < 2 ^ (a + 1)).
  { rewrite <- pow2_inject by lia. now rewrite <- Zlt_Qlt. }
  assert (HB1 : 2 ^ b <= inject_Z (Z.pos d)).
  { rewrite <- pow2_inject by lia. now rewrite <- Zle_Qle. }
  assert (HB2 : inject_Z (Z.pos d) < 2 ^ (b + 1)).
  { rewrite <- pow2_inject by lia. now rewrite <- Zlt_Qlt. }
  pose proof (pow2_pos a) as Pa. pose proof (pow2_pos b) as Pb.
  pose proof (pow2_pos (a + 1)) as Pa1. pose proof (pow2_pos (b + 1)) as Pb1.
  assert (Hup : Z.abs n # d < 2 ^ (a - b + 1)).
  { rewrite E. replace (a - b + 1)%Z with (a + 1 - b)%Z by lia. rewrite pow2_minus.
    apply div_lt_div; assumption. }
  assert (Hlo : 2 ^ (a - b - 1) <= Z.abs n # d).
  { rewrite E. replace (a - b - 1)%Z with (a - (b + 1))%Z by lia. rewrite pow2_minus.
    apply div_le_div; try assumption. now apply Qlt_le_weak. }
  destruct (Qle_bool (2 ^ (a - b)) (Z.abs n # d)) eqn:Hc.
  - apply Qle_bool_iff in Hc. split; assumption.
  - split; [exact Hlo|]. replace (a - b - 1 + 1)%Z with (a - b)%Z by lia.
    apply Qnot_le_lt. intros H. apply Qle_bool_iff in H. congruence.
Qed.

Lemma ilog2_unique (x : Q) (e : Z) :
  2 ^ e <= Qabs x -> Qabs x < 2 ^ (e + 1) -> Double.ilog2 x = e.
Proof.
  intros H1 H2.
  assert (Hx : ~ x == 0).
  { intros H. rewrite H in H1. pose proof (pow2_pos e). change (Qabs 0) with 0 in H1. lra. }
  destruct (ilog2_spec x Hx) as [S1 S2].
  assert ((Double.ilog2 x < e + 1)%Z) by (apply pow2_lt_inv; lra).
  assert ((e < Double.ilog2 x + 1)%Z) by (apply pow2_lt_inv; lra).
  lia.
Qed.

Lemma ilog2_comp (x y : Q) : x == y -> ~ x == 0 -> Double.ilog2 x = Double.ilog2 y.
Proof.
  intros E Hx. symmetry. destruct (ilog2_spec x Hx) as [S1 S2].
  apply ilog2_unique; rewrite <- E; assumption.
Qed.

Lemma nearestEven_spec (x : Q) : nearest x (Double.nearestEven x).
Proof.
  unfold nearest, Double.nearestEven.
  set (n := Qfloor x).
  assert (Hlo : inject_Z n <= x) by apply Qfloor_le.
  assert (Hhi : x < inject_Z (n + 1)) by apply Qlt_floor.
  rewrite inject_Z_plus in Hhi. change (inject_Z 1) with 1 in Hhi.
  destruct (Qcompare (x - inject_Z n) (1 # 2)) eqn:C.
  - apply Qeq_alt in C. destruct (Z.even n) eqn:En.
    + right. split; [|exact En].
      rewrite Qabs_neg by lra. lra.
    + right. split.
      * rewrite inject_Z_plus. change (inject_Z 1) with 1. rewrite Qabs_pos by lra. lra.
      * rewrite Z.even_add, En. reflexivity.
  - apply Qlt_alt in C. left. apply Qabs_Qlt_condition. split; lra.
  - apply Qgt_alt in C. left. rewrite inject_Z_plus. change (inject_Z 1) with 1.
    apply Qabs_Qlt_condition. split; lra.
Qed.

Lemma nearest_bound (x : Q) (k : Z) : nearest x k -> Qabs (inject_Z k - x) <= 1 # 2.
Proof. intros [H | [H _]]; [now apply Qlt_le_weak | rewrite H; apply Qle_refl]. Qed.

Lemma nearest_unique (x : Q) (k k' : Z) : nearest x k -> nearest x k' -> k = k'.
Proof.
  intros H H'.
  pose proof (nearest_bound x k H) as B. pose proof (nearest_bound x k' H') as B'.
  apply Qabs_Qle_condition in B, B'.
  assert (D : (k' - 1 <= k <= k' + 1)%Z).
  { split; rewrite Zle_Qle, ?inject_Z_plus, ?inject_Z_minus;
      change (inject_Z 1) with 1; lraz. }
  destruct (Z.eq_dec k k') as [|Hne]; [assumption|exfalso].
  assert (Hcase : (k = k' + 1 \/ k = k' - 1)%Z) by lia.
  assert (T : Qabs (inject_Z k - x) == 1 # 2 /\ Qabs (inject_Z k' - x) == 1 # 2).
  { destruct Hcase as [-> | ->]; rewrite ?inject_Z_plus, ?inject_Z_minus in *;
      change (inject_Z 1) with 1 in *.
    - assert (x == inject_Z k' + (1 # 2)) by lra.
      split; [rewrite Qabs_pos by lra | rewrite Qabs_neg by lra]; lra.
    - assert (x == inject_Z k' - (1 # 2)) by lra.
      split; [rewrite Qabs_neg by lra | rewrite Qabs_pos by lra]; lra. }
  destruct T as [T T'].
  assert (Ek : Z.even k = true) by (destruct H as [H | [_ H]]; [lra | exact H]).
  assert (Ek' : Z.even k' = true) by (destruct H' as [H' | [_ H']]; [lra | exact H']).
  destruct Hcase as [-> | ->].
  - rewrite Z.even_add, Ek' in Ek. discriminate Ek.
  - rewrite Z.even_sub, Ek' in Ek. discriminate Ek.
Qed.

Lemma nearest_comp (x y : Q) (k : Z) : x == y -> nearest x k -> nearest y k.
Proof. intros E. unfold nearest. now rewrite E. Qed.

Lemma nearestEven_comp (x y : Q) : x == y -> Double.nearestEven x = Double.nearestEven y.
Proof.
  intros E. apply (nearest_unique y); [|apply nearestEven_spec].
  apply (nearest_comp x); [exact E | apply nearestEven_spec].
Qed.

Lemma nearestEven_inject (k : Z) : Double.nearestEven (inject_Z k) = k.
Proof.
  apply (nearest_unique (inject_Z k)); [apply nearestEven_spec|].
  left. setoid_replace (inject_Z k - inject_Z k) with 0 using relation Qeq by ring. reflexivity.
Qed.

Lemma nearestEven_opp (x : Q) : Double.nearestEven (- x) = (- Double.nearestEven x)%Z.
Proof.
  apply (nearest_unique (- x)); [apply nearestEven_spec|].
  pose proof (nearestEven_spec x) as H. unfold nearest in *.
  rewrite inject_Z_opp, Z.even_opp.
  setoid_replace (- inject_Z (Double.nearestEven x) - - x)
    with (- (inject_Z (Double.nearestEven x) - x)) using relation Qeq by ring.
  now rewrite Qabs_opp.
Qed.

Lemma ulp_pos (x : Q) : 0 < Double.ulp x.
Proof. apply pow2_pos. Qed.

Lemma ulp_comp (x y : Q) : x == y -> ~ x == 0 -> Double.ulp x = Double.ulp y.
Proof. intros E Hx. unfold Double.ulp. now rewrite (ilog2_comp x y E Hx). Qed.

(** Rounding does not depend on how the rational is written. *)
Lemma round_comp (x y : Q) : x == y -> Double.round x == Double.round y.
Proof.
  intros E. unfold Double.round.
  destruct (Qeq_bool x 0) eqn:Hx.
  - apply Qeq_bool_iff in Hx.
    assert (Hy : Qeq_bool y 0 = true) by (apply Qeq_bool_iff; now rewrite <- E).
    now rewrite Hy.
  - apply Qeq_bool_neq in Hx.
    assert (Hy : Qeq_bool y 0 = false).
    { destruct (Qeq_bool y 0) eqn:Hy; [|reflexivity].
      apply Qeq_bool_iff in Hy. rewrite <- E in Hy. contradiction. }
    rewrite Hy, <- (ulp_comp x y E Hx).
    rewrite (nearestEven_comp (x / Double.ulp x) (y / Double.ulp x))
      by (apply Qdiv_comp; [exact E | reflexivity]).
    reflexivity.
Qed.

(** Rounding is symmetric. *)
Lemma round_opp (x : Q) : Double.round (- x) == - Double.round x.
Proof.
  unfold Double.round.
  destruct (Qeq_bool x 0) eqn:Hx.
  - apply Qeq_bool_iff in Hx.
    assert (Hy : Qeq_bool (- x) 0 = true) by (apply Qeq_bool_iff; lra).
    rewrite Hy. reflexivity.
  - apply Qeq_bool_neq in Hx.
    assert (Hy : Qeq_bool (- x) 0 = false).
    { destruct (Qeq_bool (- x) 0) eqn:Hy; [|reflexivity].
      apply Qeq_bool_iff in Hy. destruct Hx. lra. }
    rewrite Hy.
    assert (U : Double.ulp (- x) = Double.ulp x).
    { unfold Double.ulp. f_equal. f_equal. f_equal.
      destruct (ilog2_spec x Hx) as [S1 S2].
      apply ilog2_unique; rewrite Qabs_opp; assumption. }
    rewrite U.
    rewrite (nearestEven_comp (- x / Double.ulp x) (- (x / Double.ulp x)))
      by (unfold Qdiv; ring).
    rewrite nearestEven_opp, inject_Z_opp. ring.
Qed.

(** The rounding error is at most half the weight of the last digit. *)
Lemma round_half_ulp (x : Q) : Qabs (Double.round x - x) <= Double.ulp x * (1 # 2).
Proof.
  unfold Double.round. pose proof (ulp_pos x) as Hu.
  destruct (Qeq_bool x 0) eqn:Hx.
  - apply Qeq_bool_iff in Hx.
    setoid_replace (0 - x) with 0 using relation Qeq by lra. change (Qabs 0) with 0. lra.
  - pose proof (nearest_bound _ _ (nearestEven_spec (x / Double.ulp x))) as B.
    set (k := inject_Z (Double.nearestEven (x / Double.ulp x))) in *.
    setoid_replace (k * Double.ulp x - x) with ((k - x / Double.ulp x) * Double.ulp x)
      using relation Qeq by (field; lra).
    rewrite Qabs_Qmult, (Qabs_pos (Double.ulp x)) by lra.
    rewrite (Qmult_comm (Double.ulp x)).
    apply Qmult_le_compat_r; [exact B | lra].
Qed.

(** From the smallest normal double on, the error is at most one part in
    2^53. *)
Lemma round_error (x : Q) :
  tiny <= Qabs x -> Qabs (Double.round x - x) <= Qabs x * (1 # 9007199254740992).
Proof.
  unfold tiny. intros Hn.
  assert (Hx : ~ x == 0).
  { intros H. rewrite H in Hn. pose proof (pow2_pos (- 1022)).
    change (Qabs 0) with 0 in Hn. lra. }
  destruct (ilog2_spec x Hx) as [S1 S2].
  assert (He : (- 1022 <= Double.ilog2 x)%Z).
  { assert ((- 1022 < Double.ilog2 x + 1)%Z) by (apply pow2_lt_inv; lra). lia. }
  apply Qle_trans with (Double.ulp x * (1 # 2)); [apply round_half_ulp|].
  unfold Double.ulp. rewrite Z.max_l by lia.
  replace (Double.ilog2 x - 52)%Z with (Double.ilog2 x + (- 52))%Z by lia.
  rewrite pow2_plus.
  setoid_replace (2 ^ Double.ilog2 x * 2 ^ (- 52) * (1 # 2))
    with (2 ^ Double.ilog2 x * (1 # 9007199254740992)) using relation Qeq
    by (change (2 ^ (- 52)) with (1 # 4503599627370496); ring).
  apply Qmult_le_compat_r; [exact S1 | discriminate].
Qed.

Lemma tiny_le : tiny <= 1 # 7200000.
Proof. vm_compute. discriminate. Qed.

Lemma round_nonneg (x : Q) : 0 <= x -> 0 <= Double.round x.
Proof.
  intros Hx. unfold Double.round. destruct (Qeq_bool x 0); [apply Qle_refl|].
  pose proof (ulp_pos x) as Hu.
  apply Qmult_le_0_compat; [|lra].
  pose proof (nearest_bound _ _ (nearestEven_spec (x / Double.ulp x))) as B.
  apply Qabs_Qle_condition in B.
  assert (Hq : 0 <= x / Double.ulp x) by (apply Qle_shift_div_l; lra).
  change 0 with (inject_Z 0). rewrite <- Zle_Qle.
  assert (H : inject_Z (- 1) < inject_Z (Double.nearestEven (x / Double.ulp x))).
  { change (inject_Z (- 1)) with (- (1)). lraz. }
  rewrite <- Zlt_Qlt in H. lia.
Qed.

Lemma round_nonpos (x : Q) : x <= 0 -> Double.round x <= 0.
Proof.
  intros Hx. assert (H : 0 <= Double.round (- x)) by (apply round_nonneg; lra).
  rewrite round_opp in H. lra.
Qed.

Lemma round_negative (x : Q) : x <= - (1 # 7200000) -> Double.round x < 0.
Proof.
  intros Hx. pose proof tiny_le.
  assert (E : Qabs (Double.round x - x) <= (- x) * (1 # 9007199254740992)).
  { rewrite <- (Qabs_neg x) by lra. apply round_error. rewrite Qabs_neg; lra. }
  apply Qabs_Qle_condition in E. lra.
Qed.

Lemma Qabs_inject_pow (m e : Z) : Qabs (inject_Z m * 2 ^ e) == inject_Z (Z.abs m) * 2 ^ e.
Proof.
  pose proof (pow2_pos e). rewrite Qabs_Qmult, (Qabs_pos (2 ^ e)) by lra.
  reflexivity.
Qed.

Lemma round_fixes_strict (m e : Z) :
  (Z.abs m < 2 ^ 53)%Z -> (- 1074 <= e)%Z ->
  Double.round (inject_Z m * 2 ^ e) == inject_Z m * 2 ^ e.
Proof.
  intros Hm He. set (x := inject_Z m * 2 ^ e).
  pose proof (pow2_pos e) as Pe.
  unfold Double.round. destruct (Qeq_bool x 0) eqn:Hx.
  { apply Qeq_bool_iff in Hx. now rewrite Hx. }
  apply Qeq_bool_neq in Hx.
  destruct (ilog2_spec x Hx) as [S1 _].
  assert (Hlt : Qabs x < 2 ^ (53 + e)).
  { unfold x. rewrite Qabs_inject_pow, pow2_plus.
    apply Qmult_lt_r; [exact Pe|].
    rewrite <- pow2_inject by lia. now rewrite <- Zlt_Qlt. }
  assert (Hil : (Double.ilog2 x < 53 + e)%Z) by (apply pow2_lt_inv; lra).
  unfold Double.ulp. set (ex := Z.max (Double.ilog2 x - 52) (- 1074)).
  assert (Hex : (ex <= e)%Z) by (unfold ex; lia).
  pose proof (pow2_pos ex) as Pex.
  assert (Hq : x / 2 ^ ex == inject_Z (m * 2 ^ (e - ex))).
  { rewrite inject_Z_mult, pow2_inject by lia. rewrite pow2_minus. unfold x.
    field. lra. }
  rewrite (nearestEven_comp _ _ Hq), nearestEven_inject.
  rewrite inject_Z_mult, pow2_inject by lia. rewrite pow2_minus. unfold x.
  field. lra.
Qed.

(** A double is its own rounding. *)
Lemma round_fixes (x : Q) : representable x -> Double.round x == x.
Proof.
  intros (m & e & Hm & He & Hx). rewrite (round_comp _ _ Hx), Hx.
  destruct (Z.eq_dec (Z.abs m) (2 ^ 53)%Z) as [Heq | Hne].
  - assert (E : inject_Z m * 2 ^ e == inject_Z (m / 2) * 2 ^ (e + 1)).
    { rewrite pow2_plus.
      assert (Hm2 : m = (2 * (m / 2))%Z).
      { assert (H : (m = 2 ^ 53 \/ m = - 2 ^ 53)%Z) by lia.
        destruct H as [-> | ->]; reflexivity. }
      rewrite Hm2 at 1. rewrite inject_Z_mult. change (2 ^ 1) with 2.
      change (inject_Z 2) with 2. ring. }
    rewrite (round_comp _ _ E), E. apply round_fixes_strict; [|lia].
    assert (H : (m = 2 ^ 53 \/ m = - 2 ^ 53)%Z) by lia.
    destruct H as [-> | ->]; reflexivity.
  - apply round_fixes_strict; lia.
Qed.

(** What [Double.round] yields is a double. *)
Lemma round_representable (x : Q) : representable (Double.round x).
Proof.
  unfold Double.round. destruct (Qeq_bool x 0) eqn:Hx.
  { exists 0%Z, 0%Z. split; [|split]; [vm_compute; discriminate.. | reflexivity]. }
  apply Qeq_bool_neq in Hx.
  exists (Double.nearestEven (x / Double.ulp x)), (Z.max (Double.ilog2 x - 52) (- 1074)).
  split; [|split; [lia | reflexivity]].
  destruct (ilog2_spec x Hx) as [_ S2].
  pose proof (ulp_pos x) as Hu.
  assert (Hq : Qabs (x / Double.ulp x) < 2 ^ 53).
  { unfold Qdiv. rewrite Qabs_Qmult, Qabs_Qinv, (Qabs_pos (Double.ulp x)) by lra.
    apply Qlt_shift_div_r; [exact Hu|].
    apply Qlt_le_trans with (2 ^ (Double.ilog2 x + 1)); [exact S2|].
    unfold Double.ulp. rewrite <- pow2_plus. apply pow2_le. lia. }
  pose proof (nearest_bound _ _ (nearestEven_spec (x / Double.ulp x))) as B.
  apply Qabs_Qle_condition in B. apply Qabs_Qlt_condition in Hq.
  set (q := x / Double.ulp x) in *. set (n := Double.nearestEven q) in *.
  rewrite <- (pow2_inject 53) in Hq by lia.
  assert (H1 : inject_Z n < inject_Z (2 ^ 53 + 1)).
  { rewrite inject_Z_plus. change (inject_Z 1) with 1. lraz. }
  assert (H2 : inject_Z (- 2 ^ 53 - 1) < inject_Z n).
  { rewrite inject_Z_minus, inject_Z_opp. change (inject_Z 1) with 1. lraz. }
  rewrite <- Zlt_Qlt in H1, H2. lia.
Qed.

(** Taking eight off a double above eight is exact, up to [2 ^ 56]. *)
Lemma representable_minus_8 (x : Q) :
  representable x -> 8 < x -> x <= 2 ^ 56 -> representable (x - 8).
Proof.
  intros (m & e & Hm & He & Hx) H8 H56.
  pose proof (pow2_pos e) as Pe.
  assert (Hmpos : (0 < m)%Z).
  { rewrite Zlt_Qlt. change (inject_Z 0) with 0.
    destruct (Qlt_le_dec 0 (inject_Z m)) as [H | H]; [exact H | exfalso].
    assert (inject_Z m * 2 ^ e <= 0); [|lra].
    setoid_replace (inject_Z m * 2 ^ e) with (- ((- inject_Z m) * 2 ^ e)) using relation Qeq by ring.
    assert (0 <= (- inject_Z m) * 2 ^ e); [|lra].
    apply Qmult_le_0_compat; lra. }
  destruct (Z_le_gt_dec e 3%Z) as [Hle | Hgt].
  - exists (m - 2 ^ (3 - e))%Z, e. split; [|split; [exact He|]].
    + assert (Hp : (0 < 2 ^ (3 - e))%Z) by (apply Z.pow_pos_nonneg; lia).
      assert (H : inject_Z (2 ^ (3 - e)) < inject_Z m).
      { rewrite pow2_inject by lia. rewrite pow2_minus. change (2 ^ 3) with 8.
        apply Qlt_shift_div_r; [exact Pe|]. lra. }
      rewrite <- Zlt_Qlt in H. lia.
    + rewrite inject_Z_minus, pow2_inject by lia. rewrite pow2_minus, Hx.
      change (2 ^ 3) with 8. field. lra.
  - exists (m * 2 ^ (e - 3) - 1)%Z, 3%Z. split; [|split; [lia|]].
    + assert (Hp : (0 < 2 ^ (e - 3))%Z) by (apply Z.pow_pos_nonneg; lia).
      assert (H : inject_Z (m * 2 ^ (e - 3)) <= inject_Z (2 ^ 53)).
      { rewrite inject_Z_mult, !pow2_inject by lia. rewrite pow2_minus.
        change (2 ^ 3) with 8.
        setoid_replace (inject_Z m * (2 ^ e / 8)) with (inject_Z m * 2 ^ e / 8)
          using relation Qeq by field.
        apply Qle_shift_div_r; [reflexivity|].
        rewrite <- Hx. change (2 ^ 53 * 8) with (2 ^ 56). exact H56. }
      rewrite <- Zle_Qle in H. nia.
    + rewrite inject_Z_minus, inject_Z_mult, pow2_inject by lia. rewrite pow2_minus, Hx.
      change (2 ^ 3) with 8. change (inject_Z 1) with 1. field.
Qed.

Lemma round_minus_8 (x : Q) :
  representable x -> x <= 2 ^ 56 ->
  Qmax 0 (Double.round (x - 8)) == Qmax 0 (x - 8).
Proof.
  intros Hr H56. destruct (Qlt_le_dec 8 x) as [H8 | H8].
  - now rewrite (round_fixes _ (representable_minus_8 x Hr H8 H56)).
  - assert (Double.round (x - 8) <= 0) by (apply round_nonpos; lra).
    rewrite !Q.max_l by lra. reflexivity.
Qed.

(** [Double.round] against the Standard Library's specification of
    IEEE 754: on every span of whole minutes up to a day, the rounded
    quotient of the milliseconds by 3600000 is the binary64 quotient of the
    specification, and so is, for every number of hundredths up to 24, the
    rounded quotient by 100. *)
Lemma round_is_ieee_quotient :
  (forall k : nat, (1 <= k <= 1440)%nat ->
     let ms := (Pos.of_nat k * 60000)%positive in
     Double.round (Z.pos ms # 3600000) == Double.ieeeQuotient ms 3600000) /\
  (forall n : nat, (1 <= n <= 2400)%nat ->
     Double.round (Z.pos (Pos.of_nat n) # 100) == Double.ieeeQuotient (Pos.of_nat n) 100).
Proof.
  assert (H1 : forallb
            (fun k => Qeq_bool (Double.round (Z.pos (Pos.of_nat k * 60000) # 3600000))
                        (Double.ieeeQuotient (Pos.of_nat k * 60000) 3600000))
            (seq 1 1440) = true) by (vm_compute; reflexivity).
  assert (H2 : forallb
            (fun n => Qeq_bool (Double.round (Z.pos (Pos.of_nat n) # 100))
                        (Double.ieeeQuotient (Pos.of_nat n) 100))
            (seq 1 2400) = true) by (vm_compute; reflexivity).
  rewrite forallb_forall in H1, H2.
  split; intros k Hk; cbv zeta; apply Qeq_bool_iff; [apply H1 | apply H2];
    apply in_seq; lia.
Qed.

End DoubleFacts.

(** ** Hours *)

Section Hours.
Import TimerStore.
Local Open Scope Q_scope.

Lemma hours_split (w : Q) : Qmin w 8 + Qmax 0 (w - 8) == w.
Proof.
  destruct (Qlt_le_dec 8 w) as [H|H].
  - rewrite (Q.min_r w 8), (Q.max_r 0 (w - 8)); lra.
  - rewrite (Q.min_l w 8), (Q.max_l 0 (w - 8)); lra.
Qed.

Lemma nearestHundredth_spec (x : Q) :
  nearestHundredth x == Qfloor (x * 100 + (1 # 2)) # 100 /\
  Qabs (nearestHundredth x - x) <= 1 # 200.
Proof.
  unfold nearestHundredth.
  set (n := Qfloor (x * 100 + (1 # 2))).
  assert (Hlo : inject_Z n <= x * 100 + (1 # 2)) by apply Qfloor_le.
  assert (Hhi : x * 100 + (1 # 2) < inject_Z (n + 1)) by apply Qlt_floor.
  rewrite inject_Z_plus in Hhi. change (inject_Z 1) with 1 in Hhi.
  assert (E : inject_Z n / 100 == n # 100).
  { unfold Qeq, Qdiv, Qmult, Qinv, inject_Z. cbn. lia. }
  split; [exact E|].
  apply Qabs_Qle_condition.
  assert (E' : inject_Z n / 100 == inject_Z n * (1 # 100)) by reflexivity.
  rewrite E'. generalize dependent (inject_Z n). intros q Hlo Hhi _ _.
  split; lra.
Qed.

(** What [toFixed] prints is a number of hundredths nearest to its
    argument. *)
Lemma toFixed_spec (x : Q) :
  exists n : Z, toFixed x == n # 100 /\ Qabs ((n # 100) - x) <= 1 # 200.
Proof.
  unfold toFixed. destruct (Qle_bool 0 x) eqn:E0.
  - destruct (nearestHundredth_spec x) as [H1 H2].
    eexists. split; [exact H1|]. now rewrite <- H1.
  - destruct (nearestHundredth_spec (- x)) as [H1 H2].
    exists (- Qfloor (- x * 100 + (1 # 2)))%Z.
    assert (E : - nearestHundredth (- x) == - Qfloor (- x * 100 + (1 # 2)) # 100).
    { rewrite H1. reflexivity. }
    split; [exact E|]. rewrite <- E.
    apply Qabs_Qle_condition in H2. apply Qabs_Qle_condition. split; lra.
Qed.

(** Below 10^21, [toFixed2] yields the double nearest to such a number of
    hundredths. *)
Lemma toFixed2_spec (x : Q) :
  Qabs x < inject_Z (10 ^ 21) ->
  exists n : Z, toFixed2 x == Double.round (n # 100) /\ Qabs ((n # 100) - x) <= 1 # 200.
Proof.
  intros Hx. unfold toFixed2.
  destruct (Qle_bool (inject_Z (10 ^ 21)) (Qabs x)) eqn:E.
  { apply Qle_bool_iff in E. lra. }
  destruct (toFixed_spec x) as (n & Hn & Hd).
  exists n. split; [now apply round_comp | exact Hd].
Qed.

(** The quotient of a positive number of milliseconds by 3600000, computed
    in doubles. *)
Lemma round_div_accurate (x : Q) :
  1 <= x ->
  let h := x * (1 # 3600000) in
  Qabs (Double.round (Double.round x * (1 # 3600000)) - h) <= h * (1 # 2 ^ 51).
Proof.
  intros Hx h. pose proof tiny_le as Ht.
  change (1 # 2 ^ 51) with (1 # 2251799813685248).
  assert (E1 : Qabs (Double.round x - x) <= x * (1 # 9007199254740992)).
  { rewrite <- (Qabs_pos x) at 3 by lra. apply round_error. rewrite Qabs_pos; lra. }
  apply Qabs_Qle_condition in E1.
  set (r := Double.round x) in *. set (y := r * (1 # 3600000)).
  assert (Hy : 1 # 7200000 <= y) by (unfold y; lra).
  assert (E2 : Qabs (Double.round y - y) <= y * (1 # 9007199254740992)).
  { rewrite <- (Qabs_pos y) at 3 by lra. apply round_error. rewrite Qabs_pos; lra. }
  apply Qabs_Qle_condition in E2. apply Qabs_Qle_condition.
  unfold h, y in *. split; lra.
Qed.

(** The hours that the code computes for a span are those of the span, to
    the precision of a double. *)
Lemma totalHours_accurate (a b : Z) : hoursOfSpan (totalHours a b) (b - a).
Proof.
  unfold hoursOfSpan, totalHours, totalMs, hoursOfMs.
  change (inject_Z (1000 * 60 * 60)) with 3600000.
  unfold Qdiv. change (/ 3600000) with (1 # 3600000).
  set (ms := (b - a)%Z).
  destruct (Z.lt_trichotomy ms 0%Z) as [Hneg | [-> | Hpos]].
  - assert (Hx : 1 <= inject_Z (- ms)).
    { change 1 with (inject_Z 1). rewrite <- Zle_Qle. lia. }
    pose proof (round_div_accurate _ Hx) as H. cbv zeta in H.
    set (x := inject_Z (- ms)) in *.
    assert (E : inject_Z ms == - x) by (unfold x; rewrite inject_Z_opp; ring).
    assert (E1 : Double.round (inject_Z ms) * (1 # 3600000)
                 == - (Double.round x * (1 # 3600000))).
    { rewrite (round_comp _ _ E), round_opp. ring. }
    rewrite (round_comp _ _ E1), round_opp, E.
    setoid_replace (- Double.round (Double.round x * (1 # 3600000)) - - x * (1 # 3600000))
      with (- (Double.round (Double.round x * (1 # 3600000)) - x * (1 # 3600000)))
      using relation Qeq by ring.
    setoid_replace (- x * (1 # 3600000)) with (- (x * (1 # 3600000))) using relation Qeq by ring.
    rewrite !Qabs_opp, (Qabs_pos (x * (1 # 3600000))); [exact H | lra].
  - vm_compute. discriminate.
  - assert (Hx : 1 <= inject_Z ms).
    { change 1 with (inject_Z 1). rewrite <- Zle_Qle. lia. }
    pose proof (round_div_accurate _ Hx) as H. cbv zeta in H.
    rewrite (Qabs_pos (inject_Z ms * (1 # 3600000))); [exact H | lraz].
Qed.

(** The hours between two time values of a [Date] are far below the
    thresholds of [toFixed] and of exact subtraction. *)
Lemma totalHours_small (a b : Z) :
  validTime a -> validTime b -> Qabs (totalHours a b) <= 4800000001.
Proof.
  intros Ha Hb. pose proof (totalHours_accurate a b) as H.
  unfold hoursOfSpan in H. change (1 # 2 ^ 51) with (1 # 2251799813685248) in H.
  assert (Hh : Qabs (hoursOfMs (b - a)) <= 4800000000).
  { apply Qabs_Qle_condition. unfold validTime in *.
    unfold hoursOfMs, Qle, Qdiv, Qmult, Qinv, Qopp, inject_Z. cbn. lia. }
  assert (T : Qabs (totalHours a b)
              <= Qabs (hoursOfMs (b - a)) + Qabs (totalHours a b - hoursOfMs (b - a))).
  { setoid_replace (totalHours a b)
      with (hoursOfMs (b - a) + (totalHours a b - hoursOfMs (b - a))) using relation Qeq at 1 by ring.
    apply Qabs_triangle. }
  set (A := Qabs (hoursOfMs (b - a))) in *. set (B := Qabs (totalHours a b)) in *.
  set (C := Qabs (totalHours a b - hoursOfMs (b - a))) in *. lra.
Qed.

(** [Math.max(0, totalHours - 8)] loses nothing: the overtime hours of the
    stores are what the code computes in doubles. *)
Lemma overtime_exact (a b : Z) :
  validTime a -> validTime b ->
  Qmax 0 (Double.round (totalHours a b - 8)) == Qmax 0 (totalHours a b - 8).
Proof.
  intros Ha Hb. apply round_minus_8; [apply round_representable|].
  pose proof (totalHours_small a b Ha Hb) as H. apply Qabs_Qle_condition in H.
  apply Qle_trans with 4800000001; [apply H | vm_compute; discriminate].
Qed.

(** The hours of a span that goes backwards by a minute to a day: negative,
    with nothing clamped. *)
Lemma negative_span_hours (worked : Q) (ms : Z) :
  hoursOfSpan worked ms -> (- 86400000 <= ms <= - 60000)%Z ->
  worked < 0 /\ Qmin worked 8 == worked /\ Qmax 0 (worked - 8) == 0 /\
  toFixed2 worked < 0.
Proof.
  unfold hoursOfSpan, hoursOfMs. change (1 # 2 ^ 51) with (1 # 2251799813685248).
  unfold Qdiv. change (/ 3600000) with (1 # 3600000).
  intros H [Hlo Hhi].
  assert (Q1 : inject_Z ms <= - (60000)) by (change (- (60000)) with (inject_Z (- 60000)); now rewrite <- Zle_Qle).
  assert (Q2 : - (86400000) <= inject_Z ms) by (change (- (86400000)) with (inject_Z (- 86400000)); now rewrite <- Zle_Qle).
  set (h := inject_Z ms) in *. clearbody h.
  rewrite (Qabs_neg (h * (1 # 3600000))) in H by lra.
  apply Qabs_Qle_condition in H.
  assert (Hw : worked <= - (1 # 61)) by lra.
  assert (Hw' : - (25) <= worked) by lra.
  split; [lra|]. split; [apply Q.min_l; lra|]. split; [apply Q.max_l; lra|].
  unfold toFixed2.
  destruct (Qle_bool (inject_Z (10 ^ 21)) (Qabs worked)) eqn:E.
  { apply Qle_bool_iff in E. rewrite Qabs_neg in E by lra.
    change (inject_Z (10 ^ 21)) with 1000000000000000000000 in E. lra. }
  unfold toFixed.
  destruct (Qle_bool 0 worked) eqn:E0; [apply Qle_bool_iff in E0; lra|].
  apply round_negative.
  destruct (nearestHundredth_spec (- worked)) as [_ Hd].
  apply Qabs_Qle_condition in Hd. lra.
Qed.

Lemma validateTimerFields_filled (env : Env) (s : St) :
  fieldsFilled (timer (world s)) ->
  Timer.validateTimerFields env s = (Ret [], s).
Proof.
  intros [Hp Hd]. unfold Timer.validateTimerFields. run_m.
  assert ((negb (truthy_opt (Project.id <$> currentProject (timer (world s))))
           && negb (truthy_opt (currentTimeEntry (timer (world s)) ≫= TimeEntry.project_id)))
          = false) as ->.
  { destruct Hp as [-> | ->]; [reflexivity | apply andb_false_r]. }
  destruct (trim (description (timer (world s)))); [congruence | reflexivity].
Qed.

(** What [stopTimer] does when the fields are filled in and the remote does
    not confirm the clock-out, in the [else] branch and in the [catch]
    block alike. *)
Lemma stopTimer_locally (env : Env) (w : World) (entry : TimeEntry.t) :
  currentTimeEntry (timer w) = Some entry ->
  fieldsFilled (timer w) ->
  remoteDown env ->
  let e := Timer.closeLocally entry (clock env 0) (description (timer w)) in
  run Timer.stopTimer env w =
    (Ret {| Timer.success := true; Timer.errors := None |},
     {| world :=
          {| timer := Timer.stopped (timer w);
             store := store w;
             completed := Some (take 100 (e :: default [] (completed w))) |};
        ticks := 1;
        trace := [EFetch (ClockOut (description (timer w)));
                  ESetItem (take 100 (e :: default [] (completed w)));
                  ESetTimer; EDispatch e] |}).
Proof.
  intros He Hf Hdown e. unfold Timer.stopTimer. run_m.
  rewrite validateTimerFields_filled by exact Hf. cbn [length Nat.ltb Nat.leb].
  rewrite He. unfold Timer.stopLocally. run_m.
  destruct (remote env (ClockOut (description (timer w)))) as [body| |] eqn:E;
    [exfalso; exact (Hdown _ _ E) | reflexivity | reflexivity].
Qed.

(** What [createManualEntry] does when the remote does not confirm the
    creation. *)
Lemma createManualEntry_locally (env : Env) (w : World) (data : TimeEntryForm.t) :
  remoteDown env ->
  let e := Entries.localEntry data (tzOffset env) (clock env 0) (clock env 1) (clock env 2) in
  exists s,
    run (Entries.createManualEntry data) env w = (Ret e, s) /\
    timer (world s) = timer w /\
    e ∈ TimeEntriesStore.timeEntries (store (world s)) /\
    completed (world s) = Some (take 100 (e :: default [] (completed w))).
Proof.
  intros Hdown e. unfold Entries.createManualEntry, Entries.addTimeEntry. run_m.
  destruct (remote env (CreateEntry (Entries.entryData data))) as [body| |] eqn:E;
    [exfalso; exact (Hdown _ _ E) | |].
  all: run_m; eexists; split; [reflexivity|]; cbn [world timer store completed];
    split; [reflexivity|]; split; [|reflexivity].
  all: cbn [TimeEntriesStore.timeEntries TimeEntriesStore.set_isLoading
            TimeEntriesStore.set_error TimeEntriesStore.set_timeEntries
            TimeEntriesStore.isLoading TimeEntriesStore.error].
  all: fold e.
  all: destruct (findIndex _ _) as [i|] eqn:Ei; cbn [TimeEntriesStore.timeEntries].
  all: first [apply list_elem_of_here | now apply (elem_of_insert_found _ _ _ _ Ei)].
Qed.

(** The hour fields of the entry that [createManualEntry] makes locally. *)
Lemma localEntry_hours (data : TimeEntryForm.t) (tz : Z -> Z) (idNow createdAt updatedAt : Z) :
  let m := TimeEntryForm.manual_entry data in
  let worked :=
    totalHours (parseLocal tz (ManualEntry.date m) (ManualEntry.start_time m))
               (parseLocal tz (ManualEntry.date m) (ManualEntry.end_time m)) in
  let e := Entries.localEntry data tz idNow createdAt updatedAt in
  TimeEntry.regular_hours e = Qmin worked 8 /\
  TimeEntry.overtime_hours e = Qmax 0 (worked - 8) /\
  TimeEntry.total_hours e = toFixed2 worked /\
  TimeEntry.clock_in e = isoUtc (ManualEntry.date m) (ManualEntry.start_time m) /\
  TimeEntry.clock_out e = Some (isoUtc (ManualEntry.date m) (ManualEntry.end_time m)) /\
  TimeEntry.break_entries e = [].
Proof. cbv zeta. repeat split. Qed.

(** With the same offset at both ends of a form, the span between its
    times read as local times is the span between them as they are
    stored. *)
Lemma sameOffset_span (tz : Z -> Z) (m : ManualEntry.t) :
  sameOffset tz m ->
  (parseLocal tz (ManualEntry.date m) (ManualEntry.end_time m)
   - parseLocal tz (ManualEntry.date m) (ManualEntry.start_time m)
   = isoUtc (ManualEntry.date m) (ManualEntry.end_time m)
     - isoUtc (ManualEntry.date m) (ManualEntry.start_time m))%Z.
Proof. unfold sameOffset, parseLocal, isoUtc. cbv zeta. lia. Qed.

(** Nine o'clock to half past five: eight regular hours, half an hour of
    overtime, eight and a half in total. *)
Example closeLocally_half_past_five :
  let e := Timer.closeLocally (Timer.newTimeEntry (9 * hour) 0 None)
             (17 * hour + hour / 2) [] in
  TimeEntry.regular_hours e == 8 /\
  TimeEntry.overtime_hours e == 1 # 2 /\
  TimeEntry.total_hours e == 17 # 2.
Proof. cbv zeta. repeat split; vm_compute; reflexivity. Qed.

(** A session of 54 seconds.  The span is 0.015 hours; the double that the
    division yields is just below it, so that [toFixed(2)] prints 0.01,
    where rounding 0.015 itself would give 0.02. *)
Example closeLocally_54_seconds :
  let e := Timer.closeLocally (Timer.newTimeEntry 0 0 None) 54000 [] in
  hoursOfMs 54000 == 15 # 1000 /\
  TimeEntry.regular_hours e < 15 # 1000 /\
  TimeEntry.total_hours e == Double.round (1 # 100) /\
  ~ TimeEntry.total_hours e == Double.round (2 # 100).
Proof. cbv zeta. repeat split; vm_compute; congruence. Qed.

(** A manual entry from 01:00 to 04:00 on the day New York puts its clocks
    forward, created there with the remote down: the clock-in and clock-out
    stored are three hours apart, and the hours are the two hours that
    passed. *)
Example createManualEntry_dst_day :
  exists e s,
    run (Entries.createManualEntry nightForm) (offlineInNewYork 0) initialWorld = (Ret e, s) /\
    TimeEntry.clock_in e = (march10 + hour)%Z /\
    TimeEntry.clock_out e = Some (march10 + 4 * hour)%Z /\
    TimeEntry.regular_hours e == 2 /\
    TimeEntry.overtime_hours e == 0 /\
    TimeEntry.total_hours e == 2.
Proof.
  eexists _, _. split; [vm_compute; reflexivity|].
  repeat split; vm_compute; reflexivity.
Qed.

(** C1, as stated, fails.  A session stopped one second after its start,
    the remote being down, stores total hours 0 next to regular hours of
    about 1/3600: the total is not the sum of regular and overtime hours,
    and the regular hours are not a number of hundredths.  The same holds
    for the one-minute manual entry: total 0.02, regular hours of about
    1/60. *)
Lemma stored_hours_counterexample :
  (exists e s,
     run Timer.stopTimer (offline 1000) (sampleSession [] None [0x78%N]) =
       (Ret {| Timer.success := true; Timer.errors := None |}, s) /\
     completed (world s) = Some [e] /\
     TimeEntry.clock_in e = 0%Z /\ TimeEntry.clock_out e = Some 1000%Z /\
     TimeEntry.total_hours e == 0 /\
     hoursOfSpan (TimeEntry.regular_hours e) 1000 /\
     TimeEntry.overtime_hours e == 0 /\
     ~ TimeEntry.total_hours e == TimeEntry.regular_hours e + TimeEntry.overtime_hours e /\
     ~ (exists n : Z, TimeEntry.regular_hours e == n # 100)) /\
  (exists e s,
     run (Entries.createManualEntry oneMinuteForm) (offline 0) initialWorld = (Ret e, s) /\
     completed (world s) = Some [e] /\
     TimeEntry.total_hours e == Double.round (2 # 100) /\
     hoursOfSpan (TimeEntry.regular_hours e) 60000 /\
     TimeEntry.overtime_hours e == 0 /\
     ~ TimeEntry.total_hours e == TimeEntry.regular_hours e + TimeEntry.overtime_hours e /\
     ~ (exists n : Z, TimeEntry.regular_hours e == n # 100)).
Proof.
  split; eexists _, _.
  - split; [vm_compute; reflexivity|].
    cbn [world completed]. split; [reflexivity|].
    repeat split; try (vm_compute; congruence).
    intros [n Hn].
    match type of Hn with
    | ?q == _ => let v := eval vm_compute in q in change q with v in Hn
    end.
    unfold Qeq in Hn. cbn [Qnum Qden] in Hn. lia.
  - split; [vm_compute; reflexivity|].
    cbn [world completed]. split; [reflexivity|].
    repeat split; try (vm_compute; congruence).
    intros [n Hn].
    match type of Hn with
    | ?q == _ => let v := eval vm_compute in q in change q with v in Hn
    end.
    unfold Qeq in Hn. cbn [Qnum Qden] in Hn. lia.
Qed.

Lemma storedHours_intro (e : TimeEntry.t) (worked : Q) :
  Qabs worked < inject_Z (10 ^ 21) ->
  TimeEntry.regular_hours e = Qmin worked 8 ->
  TimeEntry.overtime_hours e = Qmax 0 (worked - 8) ->
  TimeEntry.total_hours e = toFixed2 worked ->
  storedHours e worked.
Proof.
  intros Hms Hr Ho Ht. unfold storedHours. rewrite Hr, Ho, Ht.
  destruct (toFixed2_spec worked Hms) as (n & Hn & Hd).
  split; [reflexivity|]. split; [reflexivity|]. split; [apply hours_split|].
  now exists n.
Qed.

Lemma totalHours_toFixed_range (a b : Z) :
  validTime a -> validTime b -> Qabs (totalHours a b) < inject_Z (10 ^ 21).
Proof.
  intros Ha Hb. apply Qle_lt_trans with 4800000001; [now apply totalHours_small|].
  reflexivity.
Qed.

(** C1, amended.  For a valid pair with the clock-out not before the
    clock-in, the hours computed locally (by [stopTimer] when the remote
    does not confirm the clock-out, by [createManualEntry] when it does not
    confirm the creation) are stored as follows, for [worked] the hours of
    the span from clock-in to clock-out as the code computes them, which
    are those of the span to the precision of a double: [regular_hours] is
    min(worked, 8) and [overtime_hours] is max(0, worked - 8), both
    unrounded, so that their sum is [worked]; only [total_hours] is
    rounded, to a number of hundredths within 0.005 of [worked].  For
    [stopTimer] the pair is the clock-in of the entry and the time of the
    call.  For [createManualEntry] it is the form's start and end read as
    local times, while the clock-in and clock-out it stores are the same
    times labelled as UTC: the stored span is the span of the hours when
    the zone has the same offset at both times. *)
Theorem stored_hours_split_and_rounding :
  (forall env w entry,
     currentTimeEntry (timer w) = Some entry ->
     fieldsFilled (timer w) ->
     remoteDown env ->
     validTime (TimeEntry.clock_in entry) -> validTime (clock env 0) ->
     (TimeEntry.clock_in entry <= clock env 0)%Z ->
     exists e s,
       run Timer.stopTimer env w =
         (Ret {| Timer.success := true; Timer.errors := None |}, s) /\
       completed (world s) = Some (take 100 (e :: default [] (completed w))) /\
       EDispatch e ∈ trace s /\
       TimeEntry.clock_in e = TimeEntry.clock_in entry /\
       TimeEntry.clock_out e = Some (clock env 0) /\
       let worked := totalHours (TimeEntry.clock_in entry) (clock env 0) in
       hoursOfSpan worked (clock env 0 - TimeEntry.clock_in entry) /\
       storedHours e worked) /\
  (forall env w data,
     remoteDown env ->
     let m := TimeEntryForm.manual_entry data in
     let clockIn :=
       parseLocal (tzOffset env) (ManualEntry.date m) (ManualEntry.start_time m) in
     let clockOut :=
       parseLocal (tzOffset env) (ManualEntry.date m) (ManualEntry.end_time m) in
     validTime clockIn -> validTime clockOut -> (clockIn <= clockOut)%Z ->
     exists e s,
       run (Entries.createManualEntry data) env w = (Ret e, s) /\
       e ∈ TimeEntriesStore.timeEntries (store (world s)) /\
       completed (world s) = Some (take 100 (e :: default [] (completed w))) /\
       let worked := totalHours clockIn clockOut in
       hoursOfSpan worked (clockOut - clockIn) /\
       storedHours e worked /\
       (sameOffset (tzOffset env) m ->
        TimeEntry.clock_out e = Some (TimeEntry.clock_in e + (clockOut - clockIn))%Z)).
Proof.
  split.
  - intros env w entry He Hf Hdown Hin Hout Hle.
    eexists _, _. split; [exact (stopTimer_locally env w entry He Hf Hdown)|].
    cbn [world completed trace]. split; [reflexivity|].
    split; [repeat constructor|].
    split; [reflexivity|]. split; [reflexivity|].
    cbv zeta. split; [apply totalHours_accurate|].
    apply storedHours_intro; [now apply totalHours_toFixed_range | reflexivity..].
  - intros env w data Hdown m clockIn clockOut Hin Hout Hle.
    destruct (createManualEntry_locally env w data Hdown) as (s & Hrun & _ & Hmem & Hc).
    eexists _, s. split; [exact Hrun|].
    split; [exact Hmem|]. split; [exact Hc|].
    destruct (localEntry_hours data (tzOffset env) (clock env 0) (clock env 1) (clock env 2))
      as (Hr & Ho & Ht & Hci & Hco & _).
    cbv zeta. split; [apply totalHours_accurate|]. split.
    + apply storedHours_intro; [now apply totalHours_toFixed_range | assumption..].
    + intros Hsame. rewrite Hci, Hco. f_equal.
      pose proof (sameOffset_span _ _ Hsame) as Hspan. fold m in Hspan.
      unfold clockIn, clockOut. fold m. lia.
Qed.

Lemma offline_remoteDown (t0 : Z) : remoteDown (offline t0).
Proof. intros r body H. discriminate H. Qed.

(** An instance: a session stopped after eight hours and a half, and the
    one-minute manual entry. *)
Lemma stored_hours_split_and_rounding_witness :
  (exists e s,
     run Timer.stopTimer (offline (8 * hour + hour / 2))
       (sampleSession [] None [0x78%N]) =
       (Ret {| Timer.success := true; Timer.errors := None |}, s) /\
     completed (world s) = Some [e] /\
     TimeEntry.clock_out e = Some 30600000%Z /\
     storedHours e (totalHours 0 30600000)) /\
  (exists e s,
     run (Entries.createManualEntry oneMinuteForm) (offline 0) initialWorld = (Ret e, s) /\
     storedHours e (totalHours (540 * 60000) (541 * 60000)) /\
     TimeEntry.clock_out e = Some (TimeEntry.clock_in e + 60000)%Z).
Proof.
  split.
  - destruct (proj1 stored_hours_split_and_rounding
        (offline (8 * hour + hour / 2)) (sampleSession [] None [0x78%N]) _ eq_refl)
      as (e & s & Hrun & Hc & _ & _ & Hout & _ & Hh).
    + split; [right; reflexivity | vm_compute; discriminate].
    + apply offline_remoteDown.
    + unfold validTime. vm_compute. discriminate.
    + unfold validTime. vm_compute. discriminate.
    + vm_compute. discriminate.
    + exists e, s. split; [exact Hrun|]. split; [exact Hc|].
      split; [exact Hout | exact Hh].
  - destruct (proj2 stored_hours_split_and_rounding
        (offline 0) initialWorld oneMinuteForm (offline_remoteDown 0))
      as (e & s & Hrun & _ & _ & _ & Hh & Hspan).
    + unfold validTime. vm_compute. discriminate.
    + unfold validTime. vm_compute. discriminate.
    + vm_compute. discriminate.
    + exists e, s. split; [exact Hrun|]. split; [exact Hh|].
      apply Hspan. reflexivity.
Defined.

(** C2, as stated, fails: a session with a closed, unpaid lunch break of
    half an hour, stopped after four hours with the remote down, stores the
    hours of the four-hour clock span, not of the three hours and a half
    that remain once the unpaid break is taken off. *)
Lemma worked_duration_counterexample :
  let breaks := [sampleBreak lunch false hour (Some (hour + hour / 2)%Z)] in
  exists e s,
    run Timer.stopTimer (offline (4 * hour)) (sampleSession breaks None [0x78%N]) =
      (Ret {| Timer.success := true; Timer.errors := None |}, s) /\
    completed (world s) = Some [e] /\
    TimeEntry.clock_in e = 0%Z /\ TimeEntry.clock_out e = Some (4 * hour)%Z /\
    TimeEntry.break_entries e = breaks /\
    spec_workedMs 0 (4 * hour) (TimeEntry.break_entries e) = (3 * hour + hour / 2)%Z /\
    TimeEntry.regular_hours e == 4 /\
    TimeEntry.total_hours e == 4 /\
    ~ TimeEntry.regular_hours e
        == Qmin (hoursOfMs (spec_workedMs 0 (4 * hour) (TimeEntry.break_entries e))) 8.
Proof.
  cbv zeta. eexists _, _.
  split; [vm_compute; reflexivity|].
  cbn [world completed]. split; [reflexivity|].
  repeat split; try (vm_compute; congruence).
Qed.

(** C2, amended.  The worked duration used by the hours calculation is the
    span between the two instants it is given: break entries, paid or
    unpaid, are not subtracted.  When [stopTimer] closes an entry locally,
    its hours are those of the span from its clock-in to the time of the
    call, whatever the break list of the entry.  The entry that
    [createManualEntry] creates locally has no breaks, and its hours are
    those of the span between the form's start and end read as local
    times, which is the span between the clock-in and clock-out it stores
    when the zone has the same offset at both times.  The hours of a span
    are those that the code computes in doubles: the span in hours to the
    precision of a double, split at eight hours, with the total rounded by
    [toFixed(2)]. *)
Theorem worked_duration_is_clock_span :
  (forall env w entry breaks,
     currentTimeEntry (timer w) = Some entry ->
     fieldsFilled (timer w) ->
     remoteDown env ->
     (TimeEntry.clock_in entry <= clock env 0)%Z ->
     exists e s,
       run Timer.stopTimer env (withBreaks breaks entry w) =
         (Ret {| Timer.success := true; Timer.errors := None |}, s) /\
       completed (world s) = Some (take 100 (e :: default [] (completed w))) /\
       TimeEntry.break_entries e = breaks /\
       TimeEntry.clock_in e = TimeEntry.clock_in entry /\
       TimeEntry.clock_out e = Some (clock env 0) /\
       let worked := totalHours (TimeEntry.clock_in entry) (clock env 0) in
       hoursOfSpan worked (clock env 0 - TimeEntry.clock_in entry) /\
       TimeEntry.regular_hours e == Qmin worked 8 /\
       TimeEntry.overtime_hours e == Qmax 0 (worked - 8) /\
       TimeEntry.total_hours e == toFixed2 worked) /\
  (forall env w data,
     remoteDown env ->
     let m := TimeEntryForm.manual_entry data in
     let clockIn :=
       parseLocal (tzOffset env) (ManualEntry.date m) (ManualEntry.start_time m) in
     let clockOut :=
       parseLocal (tzOffset env) (ManualEntry.date m) (ManualEntry.end_time m) in
     (clockIn <= clockOut)%Z ->
     exists e s,
       run (Entries.createManualEntry data) env w = (Ret e, s) /\
       completed (world s) = Some (take 100 (e :: default [] (completed w))) /\
       TimeEntry.break_entries e = [] /\
       let worked := totalHours clockIn clockOut in
       hoursOfSpan worked (clockOut - clockIn) /\
       TimeEntry.regular_hours e == Qmin worked 8 /\
       TimeEntry.overtime_hours e == Qmax 0 (worked - 8) /\
       TimeEntry.total_hours e == toFixed2 worked /\
       (sameOffset (tzOffset env) m ->
        TimeEntry.clock_out e = Some (TimeEntry.clock_in e + (clockOut - clockIn))%Z)).
Proof.
  split.
  - intros env w entry breaks He [Hp Hd] Hdown Hle.
    assert (Hf : fieldsFilled (timer (withBreaks breaks entry w))).
    { split; [|exact Hd]. unfold projectSelected in *.
      cbn [withBreaks withTimer timer currentProject currentTimeEntry
           set_currentTimeEntry].
      rewrite He in Hp. exact Hp. }
    eexists _, _.
    split; [exact (stopTimer_locally env (withBreaks breaks entry w)
                     (TimeEntry.set_break_entries breaks entry) eq_refl Hf Hdown)|].
    cbn [world completed]. split; [reflexivity|]. split; [reflexivity|].
    split; [reflexivity|]. split; [reflexivity|].
    cbv zeta. split; [apply totalHours_accurate|]. repeat split; reflexivity.
  - intros env w data Hdown m clockIn clockOut Hle.
    destruct (createManualEntry_locally env w data Hdown) as (s & Hrun & _ & _ & Hc).
    eexists _, s. split; [exact Hrun|]. split; [exact Hc|].
    destruct (localEntry_hours data (tzOffset env) (clock env 0) (clock env 1) (clock env 2))
      as (Hr & Ho & Ht & Hci & Hco & Hb).
    split; [exact Hb|]. cbv zeta. split; [apply totalHours_accurate|].
    split; [now rewrite Hr|]. split; [now rewrite Ho|]. split; [now rewrite Ht|].
    intros Hsame. rewrite Hci, Hco. f_equal.
    pose proof (sameOffset_span _ _ Hsame) as Hspan. fold m in Hspan.
    unfold clockIn, clockOut. fold m. lia.
Qed.

(** An instance: the session with the unpaid lunch break, stopped after
    four hours, and the one-minute manual entry. *)
Lemma worked_duration_is_clock_span_witness :
  (exists e s,
     run Timer.stopTimer (offline (4 * hour))
       (sampleSession [sampleBreak lunch false hour (Some (hour + hour / 2)%Z)]
          None [0x78%N]) =
       (Ret {| Timer.success := true; Timer.errors := None |}, s) /\
     completed (world s) = Some [e] /\
     TimeEntry.regular_hours e == Qmin (totalHours 0 (4 * hour)) 8) /\
  (exists e s,
     run (Entries.createManualEntry oneMinuteForm) (offline 0) initialWorld = (Ret e, s) /\
     TimeEntry.break_entries e = [] /\
     hoursOfSpan (totalHours (540 * 60000) (541 * 60000)) 60000 /\
     TimeEntry.regular_hours e == Qmin (totalHours (540 * 60000) (541 * 60000)) 8).
Proof.
  split.
  - destruct (proj1 worked_duration_is_clock_span
        (offline (4 * hour)) (sampleSession [] None [0x78%N]) _
        [sampleBreak lunch false hour (Some (hour + hour / 2)%Z)] eq_refl)
      as (e & s & Hrun & Hc & _ & _ & _ & _ & Hr & _).
    + split; [right; reflexivity | vm_compute; discriminate].
    + apply offline_remoteDown.
    + vm_compute. discriminate.
    + exists e, s. split; [exact Hrun|]. split; [exact Hc | exact Hr].
  - destruct (proj2 worked_duration_is_clock_span
        (offline 0) initialWorld oneMinuteForm (offline_remoteDown 0))
      as (e & s & Hrun & _ & Hb & Hspan & Hr & _).
    + vm_compute. discriminate.
    + exists e, s. split; [exact Hrun|]. split; [exact Hb|].
      split; [exact Hspan | exact Hr].
Defined.

End Hours.

(** ** Manual entries *)

Section ManualEntries.
Import TimeEntriesStore.
Local Open Scope Q_scope.

(** C8, as stated, fails: with the remote down, [createManualEntry] does
    not reject the form from 17:00 to 09:00.  It returns an entry whose
    clock-out is before its clock-in, with regular and total hours of -8,
    and has put it in the store and in the local cache. *)
Lemma createManualEntry_backwards_counterexample :
  exists e s,
    run (Entries.createManualEntry backwardsForm) (offline 0) initialWorld = (Ret e, s) /\
    TimeEntry.clock_in e = (17 * hour)%Z /\
    TimeEntry.clock_out e = Some (9 * hour)%Z /\
    TimeEntry.regular_hours e == - 8 /\
    TimeEntry.overtime_hours e == 0 /\
    TimeEntry.total_hours e == - 8 /\
    timeEntries (store (world s)) = [e] /\
    completed (world s) = Some [e].
Proof.
  eexists _, _. split; [vm_compute; reflexivity|].
  cbn [world store completed timeEntries].
  repeat split; vm_compute; congruence.
Qed.

(** What [createManualEntry] does when the remote confirms the creation
    with the entry [body]. *)
Lemma createManualEntry_remotely (env : Env) (w : World) (data : TimeEntryForm.t)
    (body : TimeEntry.t) :
  remote env (CreateEntry (Entries.entryData data)) = Ok200 body ->
  exists s,
    run (Entries.createManualEntry data) env w = (Ret body, s) /\
    timer (world s) = timer w /\
    body ∈ timeEntries (store (world s)) /\
    completed (world s) = Some (take 100 (body :: default [] (completed w))).
Proof.
  intros E. unfold Entries.createManualEntry, Entries.addTimeEntry. run_m.
  rewrite E. run_m. eexists. split; [reflexivity|].
  cbn [world timer store completed]. split; [reflexivity|]. split; [|reflexivity].
  cbn [timeEntries set_isLoading set_error set_timeEntries isLoading error].
  destruct (findIndex _ _) as [i|] eqn:Ei; cbn [timeEntries].
  - now apply (elem_of_insert_found _ _ _ _ Ei).
  - apply list_elem_of_here.
Qed.

(** [createManualEntry] always returns an entry, which it has put in front
    of the local cache, cut to 100 entries. *)
Lemma createManualEntry_total (env : Env) (w : World) (data : TimeEntryForm.t) :
  exists e s,
    run (Entries.createManualEntry data) env w = (Ret e, s) /\
    e ∈ timeEntries (store (world s)) /\
    completed (world s) = Some (take 100 (e :: default [] (completed w))).
Proof.
  destruct (remote env (CreateEntry (Entries.entryData data))) as [body|st|] eqn:E.
  - destruct (createManualEntry_remotely env w data body E) as (s & H1 & _ & H2 & H3).
    now exists body, s.
  - unfold Entries.createManualEntry, Entries.addTimeEntry. run_m. rewrite E. run_m.
    eexists _, _. split; [reflexivity|]. cbn [world store completed].
    split; [|reflexivity].
    cbn [timeEntries set_isLoading set_error set_timeEntries isLoading error].
    destruct (findIndex _ _) as [i|] eqn:Ei; cbn [timeEntries].
    + now apply (elem_of_insert_found _ _ _ _ Ei).
    + apply list_elem_of_here.
  - unfold Entries.createManualEntry, Entries.addTimeEntry. run_m. rewrite E. run_m.
    eexists _, _. split; [reflexivity|]. cbn [world store completed].
    split; [|reflexivity].
    cbn [timeEntries set_isLoading set_error set_timeEntries isLoading error].
    destruct (findIndex _ _) as [i|] eqn:Ei; cbn [timeEntries].
    + now apply (elem_of_insert_found _ _ _ _ Ei).
    + apply list_elem_of_here.
Qed.

(** C8, amended.  [createManualEntry] does not compare the derived clock-in
    and clock-out and rejects nothing.  For a form whose end is before its
    start it returns an entry and puts it in the store and in the local
    cache like any other.  When the remote confirms with an entry, that
    entry is taken as it is.  When the remote does not confirm, the entry
    made locally has the form's clock-out before its clock-in, and hours
    computed, with nothing clamped, from the span between the form's start
    and end read as local times.  When the zone has the same offset at both
    times, that span is the negative span between the stored clock-in and
    clock-out: the regular hours are the negative hours of that span, the
    overtime hours are zero and the total is negative. *)
Theorem createManualEntry_accepts_negative_span (env : Env) (w : World)
    (data : TimeEntryForm.t) :
  let m := TimeEntryForm.manual_entry data in
  (ManualEntry.end_time m < ManualEntry.start_time m)%Z ->
  validMinutes (ManualEntry.start_time m) ->
  validMinutes (ManualEntry.end_time m) ->
  exists e s,
    run (Entries.createManualEntry data) env w = (Ret e, s) /\
    e ∈ timeEntries (store (world s)) /\
    completed (world s) = Some (take 100 (e :: default [] (completed w))) /\
    (forall body,
       remote env (CreateEntry (Entries.entryData data)) = Ok200 body -> e = body) /\
    (remoteDown env ->
     exists clockOut,
       TimeEntry.clock_out e = Some clockOut /\
       (clockOut < TimeEntry.clock_in e)%Z /\
       let worked :=
         totalHours
           (parseLocal (tzOffset env) (ManualEntry.date m) (ManualEntry.start_time m))
           (parseLocal (tzOffset env) (ManualEntry.date m) (ManualEntry.end_time m)) in
       TimeEntry.regular_hours e == Qmin worked 8 /\
       TimeEntry.overtime_hours e == Qmax 0 (worked - 8) /\
       TimeEntry.total_hours e == toFixed2 worked /\
       (sameOffset (tzOffset env) m ->
        hoursOfSpan worked (clockOut - TimeEntry.clock_in e) /\
        worked < 0 /\
        TimeEntry.regular_hours e == worked /\
        TimeEntry.overtime_hours e == 0 /\
        TimeEntry.total_hours e < 0)).
Proof.
  intros m Hlt Hs He.
  destruct (createManualEntry_total env w data) as (e & s & Hrun & Hin & Hc).
  exists e, s. split; [exact Hrun|]. split; [exact Hin|]. split; [exact Hc|]. split.
  - intros body E.
    destruct (createManualEntry_remotely env w data body E) as (s' & Hrun' & _).
    rewrite Hrun in Hrun'. now injection Hrun'.
  - intros Hdown.
    destruct (createManualEntry_locally env w data Hdown) as (s' & Hrun' & _).
    rewrite Hrun in Hrun'. injection Hrun' as -> _.
    destruct (localEntry_hours data (tzOffset env) (clock env 0) (clock env 1) (clock env 2))
      as (Hr & Ho & Ht & Hci & Hco & _).
    fold m in Hr, Ho, Ht, Hci, Hco.
    eexists. split; [exact Hco|]. rewrite Hci.
    split; [unfold isoUtc; lia|]. cbv zeta.
    split; [now rewrite Hr|]. split; [now rewrite Ho|]. split; [now rewrite Ht|].
    intros Hsame. pose proof (sameOffset_span _ _ Hsame) as Hspan. fold m in Hspan.
    set (clockIn := parseLocal (tzOffset env) (ManualEntry.date m) (ManualEntry.start_time m))
      in *.
    set (clockOut := parseLocal (tzOffset env) (ManualEntry.date m) (ManualEntry.end_time m))
      in *.
    pose proof (totalHours_accurate clockIn clockOut) as Hacc. rewrite Hspan in Hacc.
    split; [exact Hacc|].
    destruct (negative_span_hours _ _ Hacc) as (Hneg & Hmin & Hmax & Htot).
    { unfold isoUtc, validMinutes in *. lia. }
    split; [exact Hneg|]. split; [now rewrite Hr, Hmin|].
    split; [now rewrite Ho, Hmax | now rewrite Ht].
Qed.

Lemma createManualEntry_accepts_negative_span_witness :
  exists e s,
    run (Entries.createManualEntry backwardsForm) (offline 0) initialWorld = (Ret e, s) /\
    e ∈ timeEntries (store (world s)) /\
    completed (world s) = Some [e] /\
    TimeEntry.total_hours e < 0.
Proof.
  destruct (createManualEntry_accepts_negative_span (offline 0) initialWorld backwardsForm)
    as (e & s & Hrun & Hin & Hc & _ & Hl).
  - cbn. lia.
  - unfold validMinutes. cbn. lia.
  - unfold validMinutes. cbn. lia.
  - destruct (Hl (offline_remoteDown 0)) as (clockOut & _ & _ & _ & _ & _ & Hsame).
    destruct Hsame as (_ & _ & _ & _ & Ht); [reflexivity|].
    exists e, s. split; [exact Hrun|]. split; [exact Hin|]. split; [exact Hc | exact Ht].
Defined.

End ManualEntries.

(** ** The local cache under repeated creation *)

Section CacheCap.
Import TimeEntriesStore.

Lemma take_app_take {A} (n m : nat) (l k : list A) :
  (n <= m)%nat -> take n (l ++ take m k) = take n (l ++ k).
Proof.
  revert n. induction l as [|x l IH]; intros n Hn; cbn [app].
  - rewrite take_take. f_equal. lia.
  - destruct n as [|n]; [reflexivity|].
    cbn [take]. f_equal. apply IH. lia.
Qed.

Lemma createManualEntries_cache (calls : list (Env * TimeEntryForm.t)) (w : World) :
  length (fst (createManualEntries calls w)) = length calls /\
  (calls <> [] ->
   completed (snd (createManualEntries calls w)) =
     Some (take 100 (rev (fst (createManualEntries calls w)) ++ cacheOf w))).
Proof.
  revert w. induction calls as [|[env data] calls IH]; intros w.
  - split; [reflexivity | congruence].
  - cbn [createManualEntries].
    destruct (createManualEntry_total env w data) as (e & s & Hrun & _ & Hc).
    rewrite Hrun. specialize (IH (world s)).
    destruct (createManualEntries calls (world s)) as [es w'] eqn:Eall.
    cbn [fst snd] in *. destruct IH as [Hlen Hcache].
    split; [cbn; now rewrite Hlen|]. intros _.
    destruct calls as [|c calls].
    + cbn in Eall. injection Eall as <- <-. exact Hc.
    + rewrite Hcache by discriminate.
      unfold cacheOf at 1. rewrite Hc. cbn [rev]. unfold default at 1.
      cbn [from_option id]. unfold id.
      rewrite take_app_take by lia. now rewrite <- app_assoc.
Qed.

(** C9. After a sequence of [createManualEntry] calls the local cache
    holds, most recent first, the entries the calls returned followed by
    what it held before, cut to 100 entries: the oldest ones are dropped.
    It has at most 100 entries (after no call at all: if it had at most 100
    before).  After 101 calls it holds exactly the entries of the last 100
    calls, the most recent first. *)
Theorem cache_holds_100_most_recent (calls : list (Env * TimeEntryForm.t)) (w : World) :
  let created := fst (createManualEntries calls w) in
  let cache := cacheOf (snd (createManualEntries calls w)) in
  length created = length calls /\
  cache = (if calls is [] then cacheOf w else take 100 (rev created ++ cacheOf w)) /\
  (calls <> [] \/ (length (cacheOf w) <= 100)%nat -> (length cache <= 100)%nat) /\
  (length calls = 101%nat ->
   cache = rev (drop 1 created) /\ length cache = 100%nat).
Proof.
  cbv zeta. destruct (createManualEntries_cache calls w) as [Hlen Hcache].
  assert (Heq : cacheOf (snd (createManualEntries calls w)) =
                (if calls is [] then cacheOf w
                 else take 100 (rev (fst (createManualEntries calls w)) ++ cacheOf w))).
  { destruct calls as [|c calls]; [reflexivity|].
    unfold cacheOf at 1. now rewrite Hcache by discriminate. }
  split; [exact Hlen|]. split; [exact Heq|]. split.
  - intros H. rewrite Heq. destruct calls as [|c calls].
    + destruct H as [H|H]; [congruence | exact H].
    + rewrite length_take. lia.
  - intros H101. rewrite Heq.
    destruct calls as [|c calls]; [discriminate|].
    assert (Hc : length (fst (createManualEntries (c :: calls) w)) = 101%nat)
      by congruence.
    destruct (fst (createManualEntries (c :: calls) w)) as [|e created];
      [discriminate|].
    cbn [rev drop]. cbn [length] in Hc.
    assert (Hl : length (rev created) = 100%nat) by (rewrite length_rev; lia).
    rewrite <- app_assoc, take_app_length' by (symmetry; exact Hl).
    split; [reflexivity | exact Hl].
Qed.

Lemma cache_holds_100_most_recent_witness :
  let created := fst (createManualEntries calls101 initialWorld) in
  let cache := cacheOf (snd (createManualEntries calls101 initialWorld)) in
  (length cache <= 100)%nat /\
  cache = rev (drop 1 created) /\ length cache = 100%nat.
Proof.
  cbv zeta.
  destruct (cache_holds_100_most_recent calls101 initialWorld) as (_ & _ & Hle & H101).
  split.
  - apply Hle. left. discriminate.
  - apply H101. reflexivity.
Defined.

End CacheCap.

(** ** Merging the local cache and the store *)

Section Merge.
Import TimeEntriesStore.

Lemma hasId_app (i : string) (l k : list TimeEntry.t) :
  hasId i (l ++ k) = hasId i l || hasId i k.
Proof. apply existsb_app. Qed.

Lemma hasId_true (i : string) (l : list TimeEntry.t) :
  hasId i l = true <-> exists e, e ∈ l /\ TimeEntry.id e = i.
Proof.
  unfold hasId. rewrite existsb_exists. split.
  - intros (e & He & Heq). exists e. split; [now apply list_elem_of_In|].
    now apply String.eqb_eq.
  - intros (e & He & Heq). exists e. split; [now apply list_elem_of_In|].
    now apply String.eqb_eq.
Qed.

Lemma hasId_false (i : string) (l : list TimeEntry.t) (e : TimeEntry.t) :
  hasId i l = false -> e ∈ l -> TimeEntry.id e <> i.
Proof.
  intros H He Heq.
  assert (hasId i l = true) by (apply hasId_true; eauto). congruence.
Qed.

(** [pushMissing] appends to [acc], in their order, the first entry of
    [others] under each id that [acc] does not have. *)
Lemma pushMissing_spec (others acc : list TimeEntry.t) :
  exists extra,
    Entries.pushMissing acc others = acc ++ extra /\
    sublist extra others /\
    NoDup (map TimeEntry.id extra) /\
    (forall e, e ∈ extra -> hasId (TimeEntry.id e) acc = false) /\
    (forall e, e ∈ others -> hasId (TimeEntry.id e) (acc ++ extra) = true).
Proof.
  unfold Entries.pushMissing. revert acc.
  induction others as [|o others IH]; intros acc; cbn [fold_left].
  - exists []. rewrite app_nil_r. repeat split.
    + constructor.
    + constructor.
    + intros e He. now apply elem_of_nil in He.
    + intros e He. now apply elem_of_nil in He.
  - destruct (hasId (TimeEntry.id o) acc) eqn:Ho.
    + destruct (IH acc) as (extra & Heq & Hsub & Hnd & Hnew & Hall).
      exists extra. repeat split; try assumption.
      * now apply sublist_cons.
      * intros e [-> | He]%elem_of_cons; [|now apply Hall].
        rewrite hasId_app, Ho. reflexivity.
    + destruct (IH (acc ++ [o])) as (extra & Heq & Hsub & Hnd & Hnew & Hall).
      exists (o :: extra). repeat split.
      * now rewrite Heq, <- app_assoc.
      * now apply sublist_skip.
      * cbn [map]. apply NoDup_cons. split; [|assumption].
        intros (e & Heq' & He)%list_elem_of_fmap.
        specialize (Hnew e He). rewrite hasId_app in Hnew.
        apply orb_false_elim in Hnew as [_ Hnew].
        cbn in Hnew. rewrite orb_false_r in Hnew.
        apply String.eqb_neq in Hnew. congruence.
      * intros e [-> | He]%elem_of_cons; [assumption|].
        specialize (Hnew e He). rewrite hasId_app in Hnew.
        now apply orb_false_elim in Hnew as [Hnew _].
      * intros e [-> | He]%elem_of_cons.
        -- rewrite hasId_app. cbn. rewrite String.eqb_refl.
           cbn. apply orb_true_r.
        -- specialize (Hall e He). now rewrite <- app_assoc in Hall.
Qed.

Lemma insertSorted_perm (a : TimeEntry.t) (l : list TimeEntry.t) :
  Entries.insertSorted a l ≡ₚ a :: l.
Proof.
  induction l as [|b l IH]; cbn; [reflexivity|].
  destruct (Entries.compareFn a b <=? 0)%Z; [reflexivity|].
  rewrite IH. apply Permutation_swap.
Qed.

Lemma sort_perm (l : list TimeEntry.t) : Entries.sort l ≡ₚ l.
Proof.
  unfold Entries.sort. induction l as [|a l IH]; cbn [foldr]; [reflexivity|].
  now rewrite insertSorted_perm, IH.
Qed.

Lemma insertSorted_sorted (a : TimeEntry.t) (l : list TimeEntry.t) :
  StronglySorted laterFirst l -> StronglySorted laterFirst (Entries.insertSorted a l).
Proof.
  induction l as [|b l IH]; cbn; intros Hs.
  - repeat constructor.
  - apply StronglySorted_inv in Hs as [Hs Hb].
    destruct (Entries.compareFn a b <=? 0)%Z eqn:E.
    + apply Z.leb_le in E. unfold Entries.compareFn in E.
      constructor; [now constructor|].
      constructor; [unfold laterFirst; lia|].
      eapply Forall_impl; [exact Hb|]. unfold laterFirst. intros c Hc. lia.
    + apply Z.leb_gt in E. unfold Entries.compareFn in E.
      constructor; [now apply IH|].
      rewrite insertSorted_perm. constructor; [unfold laterFirst; lia | exact Hb].
Qed.

Lemma sort_sorted (l : list TimeEntry.t) : StronglySorted laterFirst (Entries.sort l).
Proof.
  unfold Entries.sort. induction l as [|a l IH]; cbn [foldr]; [constructor|].
  now apply insertSorted_sorted.
Qed.

(** C6, as stated, fails: merging the cache of three entries with the store
    that holds two of the ids in a fresher version yields three entries,
    but under the shared ids it keeps the cached versions, updated at
    1000 s, not the fresher ones of the store, updated at 2000 s. *)
Lemma merge_fresher_counterexample :
  let merged :=
    timeEntries (store (after Entries.loadFromLocalStorage (offline 0) staleWorld)) in
  map TimeEntry.id staleCache = ["a"; "b"; "c"]%string /\
  map TimeEntry.updated_at staleCache = [1000000; 1000000; 1000000] /\
  map TimeEntry.id fresherStore = ["a"; "b"]%string /\
  map TimeEntry.updated_at fresherStore = [2000000; 2000000] /\
  length merged = 3%nat /\
  map TimeEntry.id merged = ["a"; "b"; "c"]%string /\
  map TimeEntry.updated_at merged = [1000000; 1000000; 1000000] /\
  merged = staleCache.
Proof. cbv zeta. repeat split; vm_compute; reflexivity. Qed.

(** C6, amended.  The merge done when loading from the local cache
    identifies entries by id alone and never looks at [updated_at].  It
    keeps every cached entry and adds the entries of the store whose id the
    cache does not have (the first one under each such id), then sorts the
    result, latest [created_at] (or [date]) first: under an id that the
    cache and the store share it is the cached copy that is kept, whichever
    of the two was updated last.  Every id of the store is present in the
    result.  In [syncWithLocalStorage] the roles are exchanged (the store's
    copy is kept) and the result is cut to 100 entries. *)
Theorem merge_keeps_cached_copy (env : Env) (w : World) :
  (forall cached,
     completed w = Some cached ->
     exists extra merged,
       run Entries.loadFromLocalStorage env w =
         (Ret tt,
          {| world := {| timer := timer w;
                         store := set_timeEntries merged (store w);
                         completed := completed w |};
             ticks := 0; trace := [ESetEntries] |}) /\
       merged ≡ₚ cached ++ extra /\
       StronglySorted laterFirst merged /\
       sublist extra (timeEntries (store w)) /\
       NoDup (map TimeEntry.id extra) /\
       (forall e, e ∈ extra -> hasId (TimeEntry.id e) cached = false) /\
       (forall e, e ∈ timeEntries (store w) -> hasId (TimeEntry.id e) merged = true) /\
       (forall e c, e ∈ merged -> c ∈ cached -> TimeEntry.id e = TimeEntry.id c ->
          e ∈ cached)) /\
  (exists extra merged,
     run Entries.syncWithLocalStorage env w =
       (Ret tt,
        {| world := {| timer := timer w;
                       store := set_timeEntries (take 100 merged) (store w);
                       completed := Some (take 100 merged) |};
           ticks := 0; trace := [ESetEntries; ESetItem (take 100 merged)] |}) /\
     merged ≡ₚ timeEntries (store w) ++ extra /\
     StronglySorted laterFirst merged /\
     sublist extra (default [] (completed w)) /\
     (forall e, e ∈ extra -> hasId (TimeEntry.id e) (timeEntries (store w)) = false)).
Proof.
  split.
  - intros cached Hc.
    destruct (pushMissing_spec (timeEntries (store w)) cached)
      as (extra & Heq & Hsub & Hnd & Hnew & Hall).
    exists extra, (Entries.sort (cached ++ extra)).
    split.
    { unfold Entries.loadFromLocalStorage. run_m. rewrite Hc. run_m.
      now rewrite Heq, Hc. }
    split; [apply sort_perm|]. split; [apply sort_sorted|].
    split; [exact Hsub|]. split; [exact Hnd|]. split; [exact Hnew|]. split.
    + intros e He. apply hasId_true.
      destruct (proj1 (hasId_true _ _) (Hall e He)) as (e' & He' & Hid).
      exists e'. split; [|exact Hid]. now rewrite sort_perm.
    + intros e c He Hcin Hid. rewrite sort_perm in He.
      apply elem_of_app in He as [He | He]; [exact He|].
      exfalso. apply (hasId_false _ _ c (Hnew e He) Hcin). now symmetry.
  - destruct (pushMissing_spec (default [] (completed w)) (timeEntries (store w)))
      as (extra & Heq & Hsub & _ & Hnew & _).
    exists extra, (Entries.sort (timeEntries (store w) ++ extra)).
    split.
    { unfold Entries.syncWithLocalStorage. run_m. now rewrite Heq. }
    split; [apply sort_perm|]. split; [apply sort_sorted|].
    split; [exact Hsub | exact Hnew].
Qed.

(** An instance: the stale cache and the fresher store. *)
Lemma merge_keeps_cached_copy_witness :
  exists extra merged,
    timeEntries (store (after Entries.loadFromLocalStorage (offline 0) staleWorld))
      = merged /\
    merged ≡ₚ staleCache ++ extra /\
    (forall e c, e ∈ merged -> c ∈ staleCache -> TimeEntry.id e = TimeEntry.id c ->
       e ∈ staleCache).
Proof.
  destruct (proj1 (merge_keeps_cached_copy (offline 0) staleWorld) staleCache eq_refl)
    as (extra & merged & Hrun & Hperm & _ & _ & _ & _ & _ & Hkeep).
  exists extra, merged. split; [|split; assumption].
  unfold after. now rewrite Hrun.
Defined.

End Merge.

(** ** Editing an entry *)

Section Edit.
Import TimeEntriesStore.

(** For an id that [isLocalEntry] recognises (the ['temp-'] ids of the timer
    and the three mock ids) [editTimeEntry] works on the store and the
    local cache only: it performs no remote call, and what it returns and
    the state it leaves do not depend on the remote. *)
Lemma editTimeEntry_local_id (i : string) (data : Patch.t) (w : World)
    (env env' : Env) :
  Entries.isLocalEntry i = true ->
  (forall n, clock env n = clock env' n) ->
  run (Entries.editTimeEntry i data) env w = run (Entries.editTimeEntry i data) env' w /\
  noFetch (trace (snd (run (Entries.editTimeEntry i data) env w))).
Proof.
  intros Hlocal Hclock.
  unfold Entries.editTimeEntry, Entries.updateLocally. run_m. rewrite Hlocal.
  run_m.
  cbn [timeEntries set_isLoading set_error set_timeEntries isLoading error].
  destruct (findIndex (Entries.sameId i) (timeEntries (store w))) as [k|]; run_m.
  - destruct (timeEntries (store w) !! k) as [current|]; run_m.
    + rewrite (Hclock 0%nat).
      destruct (findIndex (Entries.sameId i) (default [] (completed w))); run_m.
      all: split; [reflexivity|].
      all: intros r Hr; cbn [snd trace] in Hr.
      all: repeat (apply elem_of_cons in Hr as [Hr | Hr]; [discriminate Hr|]).
      all: now apply elem_of_nil in Hr.
    + split; [reflexivity|].
      intros r Hr; cbn [snd trace] in Hr.
      repeat (apply elem_of_cons in Hr as [Hr | Hr]; [discriminate Hr|]).
      now apply elem_of_nil in Hr.
  - split; [reflexivity|].
    intros r Hr; cbn [snd trace] in Hr.
    repeat (apply elem_of_cons in Hr as [Hr | Hr]; [discriminate Hr|]).
    now apply elem_of_nil in Hr.
Qed.

(** C7 fails on the code for the ids that [createManualEntry] mints when
    the remote is down: ["manual-0"] is not recognised by [isLocalEntry],
    so [editTimeEntry] sends a PATCH request for it, and its result and
    the store it leaves depend on the answer.  With the remote down the
    entry is patched locally and stays submitted; with a remote that
    answers, the store takes the remote's entry, here an approved one. *)
Theorem editTimeEntry_manual_id_calls_remote :
  let i := "manual-0"%string in
  let down := run (Entries.editTimeEntry i notBillable) (offline 9000) manualWorld in
  let up :=
    run (Entries.editTimeEntry i notBillable) (online (Ok200 remoteVersion) 9000)
      manualWorld in
  map TimeEntry.id (timeEntries (store manualWorld)) = [i] /\
  Entries.isLocalEntry i = false /\
  EFetch (PatchEntry i notBillable) ∈ trace (snd down) /\
  EFetch (PatchEntry i notBillable) ∈ trace (snd up) /\
  (exists e, fst down = Ret e /\
     TimeEntry.billable e = false /\ TimeEntry.status e = submitted /\
     timeEntries (store (world (snd down))) = [e]) /\
  (exists e, fst up = Ret e /\
     TimeEntry.billable e = false /\ TimeEntry.status e = approved /\
     TimeEntry.billable <$> timeEntries (store (world (snd up))) = [false] /\
     TimeEntry.status <$> timeEntries (store (world (snd up))) = [approved]) /\
  fst down <> fst up.
Proof.
  cbv zeta. split; [vm_compute; reflexivity|]. split; [reflexivity|].
  split. { vm_compute. apply list_elem_of_further, list_elem_of_here. }
  split. { vm_compute. apply list_elem_of_further, list_elem_of_here. }
  split. { eexists. split; [vm_compute; reflexivity|]. repeat split. }
  split. { eexists. split; [vm_compute; reflexivity|]. repeat split. }
  intros H. vm_compute in H. discriminate H.
Qed.

End Edit.

(** * Further properties *)

(** Unfolding the monad under [after]. *)
Ltac run_a :=
  run_m; cbn [fst snd world ticks trace timer store completed app].

(** ** Pausing and the elapsed time *)

Section Elapsed.
Import TimerStore.

(** X1. A pause is not counted: for a session started at [start], paused at
    [t1] and resumed at [t2], [resumeTimer] moves the start forward by
    [t2 - t1] and clears the pause, so that the elapsed time shown at [t3]
    is the whole seconds of [t3 - start - (t2 - t1)]. *)
Theorem pause_resume_excludes_paused_time (env1 env2 env3 : Env) (w : World)
    (start : Z) :
  isActive (timer w) = true ->
  startTime (timer w) = Some start ->
  let w1 := after Timer.pauseTimer env1 w in
  let w2 := after Timer.resumeTimer env2 w1 in
  let w3 := after Timer.updateElapsedTime env3 w2 in
  isPaused (timer w1) = true /\
  pausedTime (timer w1) = Some (clock env1 0) /\
  isPaused (timer w2) = false /\
  pausedTime (timer w2) = None /\
  startTime (timer w2) = Some (start + (clock env2 0 - clock env1 0)) /\
  elapsedTime (timer w3) = (clock env3 0 - start - (clock env2 0 - clock env1 0)) / 1000.
Proof.
  intros Ha Hs. cbv zeta.
  unfold after, Timer.pauseTimer, Timer.resumeTimer, Timer.updateElapsedTime.
  run_m. cbn. rewrite Hs. run_m. cbn. rewrite Ha. cbn.
  repeat split. f_equal. lia.
Qed.

Lemma pause_resume_excludes_paused_time_witness :
  let w1 := after Timer.pauseTimer (offline 60000) (sampleSession [] None []) in
  let w2 := after Timer.resumeTimer (offline 90000) w1 in
  let w3 := after Timer.updateElapsedTime (offline 100000) w2 in
  startTime (timer w2) = Some 30000 /\ elapsedTime (timer w3) = 70.
Proof.
  destruct (pause_resume_excludes_paused_time (offline 60000) (offline 90000)
              (offline 100000) (sampleSession [] None []) 0 eq_refl eq_refl)
    as (_ & _ & _ & _ & Hs & He).
  split; [exact Hs | exact He].
Defined.

Lemma updateElapsedTime_idle (env : Env) (w : World) :
  isActive (timer w) = false \/ isPaused (timer w) = true \/ startTime (timer w) = None ->
  run Timer.updateElapsedTime env w = (Ret tt, {| world := w; ticks := 0; trace := [] |}).
Proof.
  intros H. unfold Timer.updateElapsedTime. run_m.
  destruct (startTime (timer w)) as [start|]; [|reflexivity].
  destruct H as [-> | [-> | H]]; [reflexivity | | discriminate H].
  now rewrite orb_true_r.
Qed.

(** X2. Nothing advances while the session is paused or not active: after
    [pauseTimer], any number of [updateElapsedTime] calls of the periodic
    driver leaves the whole state as the pause left it, and so does any
    number of calls on a session that is not active.  [resumeTimer] on a
    session with no recorded pause, or with no start, changes nothing and
    does not read the clock. *)
Theorem paused_or_idle_session_is_frozen (env : Env) (envs : list Env) (w : World) :
  tickAll envs (after Timer.pauseTimer env w) = after Timer.pauseTimer env w /\
  (isActive (timer w) = false -> tickAll envs w = w) /\
  (pausedTime (timer w) = None \/ startTime (timer w) = None ->
   run Timer.resumeTimer env w = (Ret tt, {| world := w; ticks := 0; trace := [] |})).
Proof.
  assert (Hfix : forall w0,
            isActive (timer w0) = false \/ isPaused (timer w0) = true \/
            startTime (timer w0) = None ->
            tickAll envs w0 = w0).
  { intros w0 H. unfold tickAll. induction envs as [|e envs IH]; [reflexivity|].
    cbn [fold_left]. unfold after at 2.
    rewrite (updateElapsedTime_idle e w0 H). exact IH. }
  split; [|split].
  - apply Hfix. right. left. reflexivity.
  - intros H. apply Hfix. now left.
  - intros H. unfold Timer.resumeTimer. run_m.
    destruct H as [-> | ->]; [reflexivity|].
    now destruct (pausedTime (timer w)).
Qed.

Lemma paused_or_idle_session_is_frozen_witness :
  tickAll [offline 1000; offline 2000] initialWorld = initialWorld /\
  run Timer.resumeTimer (offline 0) initialWorld =
    (Ret tt, {| world := initialWorld; ticks := 0; trace := [] |}).
Proof.
  destruct (paused_or_idle_session_is_frozen (offline 0) [offline 1000; offline 2000]
              initialWorld) as (_ & Hidle & Hresume).
  split; [apply Hidle; reflexivity | apply Hresume; left; reflexivity].
Defined.

Lemma updateElapsedTime_running (env : Env) (w : World) (start : Z) :
  isActive (timer w) = true ->
  isPaused (timer w) = false ->
  startTime (timer w) = Some start ->
  after Timer.updateElapsedTime env w =
    withTimer (set_elapsedTime ((clock env 0 - start) / 1000) (timer w)) w.
Proof.
  intros Ha Hp Hs. unfold after, Timer.updateElapsedTime. run_m.
  rewrite Hs, Ha, Hp. reflexivity.
Qed.

(** X3. The elapsed time does not drift: on a running session started at
    [start], after any sequence of [updateElapsedTime] calls the elapsed
    time is the whole seconds between [start] and the clock of the last
    call, whatever the earlier calls read; no other field of the session,
    and nothing of the entries store or the local cache, has changed. *)
Theorem updateElapsedTime_no_drift (envs : list Env) (env : Env) (w : World)
    (start : Z) :
  isActive (timer w) = true ->
  isPaused (timer w) = false ->
  startTime (timer w) = Some start ->
  let w' := tickAll (envs ++ [env]) w in
  elapsedTime (timer w') = (clock env 0 - start) / 1000 /\
  sameSessionButElapsed (timer w) (timer w') /\
  store w' = store w /\ completed w' = completed w.
Proof.
  intros Ha Hp Hs. cbv zeta.
  assert (Hinv : forall es w0,
            isActive (timer w0) = true -> isPaused (timer w0) = false ->
            startTime (timer w0) = Some start ->
            sameSessionButElapsed (timer w) (timer w0) ->
            store w0 = store w -> completed w0 = completed w ->
            let w1 := tickAll es w0 in
            isActive (timer w1) = true /\ isPaused (timer w1) = false /\
            startTime (timer w1) = Some start /\
            sameSessionButElapsed (timer w) (timer w1) /\
            store w1 = store w /\ completed w1 = completed w).
  { induction es as [|e es IH]; intros w0 Ha0 Hp0 Hs0 Hsame Hst Hc; cbv zeta.
    - unfold tickAll. cbn [fold_left]. tauto.
    - unfold tickAll. cbn [fold_left].
      rewrite (updateElapsedTime_running e w0 start Ha0 Hp0 Hs0).
      apply IH; assumption. }
  unfold tickAll. rewrite fold_left_app. cbn [fold_left].
  fold (tickAll envs w).
  destruct (Hinv envs w Ha Hp Hs) as (Ha' & Hp' & Hs' & Hsame & Hst & Hc);
    [repeat split; reflexivity | reflexivity | reflexivity |].
  rewrite (updateElapsedTime_running env _ start Ha' Hp' Hs').
  split; [reflexivity|]. split; [|split; assumption].
  destruct Hsame as (H1 & H2 & H3 & H4 & H5 & H6 & H7 & H8 & H9).
  repeat split; assumption.
Qed.

Lemma updateElapsedTime_no_drift_witness :
  elapsedTime
    (timer (tickAll ([offline 1000; offline 7300] ++ [offline 61999])
              (sampleSession [] None []))) = 61.
Proof.
  destruct (updateElapsedTime_no_drift [offline 1000; offline 7300] (offline 61999)
              (sampleSession [] None []) 0 eq_refl eq_refl eq_refl) as (He & _).
  exact He.
Defined.

End Elapsed.

(** ** Ending a session *)

Section Ending.
Import TimerStore.

Lemma validateTimerFields_outcome (env : Env) (s : St) :
  exists errs,
    Timer.validateTimerFields env s = (Ret errs, s) /\
    (errs = [] <-> fieldsFilled (timer (world s))).
Proof.
  unfold Timer.validateTimerFields, fieldsFilled, projectSelected. run_m.
  destruct (truthy_opt (Project.id <$> currentProject (timer (world s))));
    destruct (truthy_opt (currentTimeEntry (timer (world s)) ≫= TimeEntry.project_id));
    destruct (trim (description (timer (world s)))) as [|c r];
    cbn; eexists; (split; [reflexivity|]);
    intuition (discriminate || congruence).
Qed.

Lemma stopTimer_rejected (env : Env) (w : World) :
  ~ fieldsFilled (timer w) \/ currentTimeEntry (timer w) = None ->
  exists errs,
    errs <> [] /\
    run Timer.stopTimer env w =
      (Ret {| Timer.success := false; Timer.errors := Some errs |},
       {| world := w; ticks := 0; trace := [] |}).
Proof.
  intros H. unfold Timer.stopTimer. run_m.
  destruct (validateTimerFields_outcome env {| world := w; ticks := 0; trace := [] |})
    as (errs & -> & Hiff). cbn [world] in Hiff.
  destruct errs as [|e errs].
  - destruct H as [H | H]; [exfalso; apply H, Hiff; reflexivity|].
    cbn [length Nat.ltb Nat.leb]. rewrite H.
    eexists. split; [|reflexivity]. discriminate.
  - cbn [length Nat.ltb Nat.leb]. eexists. split; [|reflexivity]. discriminate.
Qed.

Lemma stopTimer_accepted (env : Env) (w : World) (entry : TimeEntry.t) :
  currentTimeEntry (timer w) = Some entry ->
  fieldsFilled (timer w) ->
  let e := submittedEntry env w entry in
  exists n tr,
    run Timer.stopTimer env w =
      (Ret {| Timer.success := true; Timer.errors := None |},
       {| world :=
            {| timer := Timer.stopped (timer w);
               store := store w;
               completed := Some (take 100 (e :: cacheOf w)) |};
          ticks := n; trace := tr |}) /\
    dispatched tr = [e] /\
    requests tr = [ClockOut (description (timer w))].
Proof.
  intros He Hf e. unfold e, submittedEntry, Timer.stopTimer, cacheOf. run_m.
  rewrite validateTimerFields_filled by exact Hf. cbn [length Nat.ltb Nat.leb].
  rewrite He. unfold Timer.stopLocally. run_m.
  destruct (remote env (ClockOut (description (timer w)))) as [body| |];
    run_m; eexists _, _; (split; [reflexivity|]); split; reflexivity.
Qed.

Lemma fieldsFilled_dec (t : TimerStore.t) : fieldsFilled t \/ ~ fieldsFilled t.
Proof.
  destruct (validateTimerFields_outcome (offline 0)
              {| world := withTimer t initialWorld; ticks := 0; trace := [] |})
    as (errs & _ & Hiff). cbn [world withTimer timer] in Hiff.
  destruct errs as [|e errs]; [left; now apply Hiff | right].
  intros H. apply Hiff in H. discriminate H.
Qed.

(** X4. [stopTimer] refuses to stop, without touching anything, whenever a
    required field is missing or no entry is in flight: it returns a
    failure with at least one error message, the session, the entries store
    and the local cache are unchanged, and it performs no effect at all (no
    [set], no write, no remote call, no event, no reading of the clock). *)
Theorem stopTimer_refusal_changes_nothing (env : Env) (w : World) :
  ~ fieldsFilled (timer w) \/ currentTimeEntry (timer w) = None ->
  exists errs,
    errs <> [] /\
    run Timer.stopTimer env w =
      (Ret {| Timer.success := false; Timer.errors := Some errs |},
       {| world := w; ticks := 0; trace := [] |}).
Proof. exact (stopTimer_rejected env w). Qed.

Lemma stopTimer_refusal_changes_nothing_witness :
  exists errs,
    errs <> [] /\
    run Timer.stopTimer (offline 0) initialWorld =
      (Ret {| Timer.success := false; Timer.errors := Some errs |},
       {| world := initialWorld; ticks := 0; trace := [] |}).
Proof.
  apply (stopTimer_refusal_changes_nothing (offline 0) initialWorld).
  right. reflexivity.
Defined.

(** X5. When the required fields are filled in and an entry is in flight,
    [stopTimer] succeeds whatever the remote does.  It sends one clock-out
    request, submits one entry (the remote's answer, or the in-flight entry
    closed at the current time when the remote does not confirm), always
    with the description of the session, puts it in front of the local
    cache cut to 100 entries, and dispatches exactly one event, with that
    entry.  The session is ended: every field is back to its initial value,
    except the break start, which [stopTimer] leaves as it was.  The
    entries store is not touched. *)
Theorem stopTimer_success_ends_session (env : Env) (w : World) (entry : TimeEntry.t) :
  currentTimeEntry (timer w) = Some entry ->
  fieldsFilled (timer w) ->
  exists e s,
    run Timer.stopTimer env w =
      (Ret {| Timer.success := true; Timer.errors := None |}, s) /\
    TimeEntry.description e = Some (description (timer w)) /\
    (forall body,
       remote env (ClockOut (description (timer w))) = Ok200 body ->
       e = TimeEntry.set_description (Some (description (timer w))) body) /\
    ((forall body, remote env (ClockOut (description (timer w))) <> Ok200 body) ->
     TimeEntry.id e = TimeEntry.id entry /\
     TimeEntry.clock_in e = TimeEntry.clock_in entry /\
     TimeEntry.clock_out e = Some (clock env 0) /\
     TimeEntry.status e = submitted) /\
    completed (world s) = Some (take 100 (e :: cacheOf w)) /\
    dispatched (trace s) = [e] /\
    requests (trace s) = [ClockOut (description (timer w))] /\
    store (world s) = store w /\
    sessionEnded (timer (world s)) /\
    breakStartTime (timer (world s)) = breakStartTime (timer w).
Proof.
  intros He Hf.
  destruct (stopTimer_accepted env w entry He Hf) as (n & tr & Hrun & Hd & Hr).
  exists (submittedEntry env w entry). eexists.
  split; [exact Hrun|]. cbn [world trace timer store completed].
  split.
  { unfold submittedEntry.
    now destruct (remote env (ClockOut (description (timer w)))). }
  split; [intros body E; unfold submittedEntry; now rewrite E|].
  split.
  { intros Hno. unfold submittedEntry.
    destruct (remote env (ClockOut (description (timer w)))) as [body| |] eqn:E;
      [exfalso; exact (Hno body eq_refl) | |]; repeat split. }
  split; [reflexivity|]. split; [exact Hd|]. split; [exact Hr|].
  split; [reflexivity|]. split; [repeat split | reflexivity].
Qed.

Lemma stopTimer_success_ends_session_witness :
  exists e s,
    run Timer.stopTimer (offline hour) (sampleSession [] (Some 1000) [0x78%N]) =
      (Ret {| Timer.success := true; Timer.errors := None |}, s) /\
    dispatched (trace s) = [e] /\
    completed (world s) = Some [e] /\
    sessionEnded (timer (world s)) /\
    breakStartTime (timer (world s)) = Some 1000.
Proof.
  destruct (stopTimer_success_ends_session (offline hour)
              (sampleSession [] (Some 1000) [0x78%N]) _ eq_refl)
    as (e & s & Hrun & _ & _ & _ & Hc & Hd & _ & _ & Hend & Hb).
  - split; [right; reflexivity | vm_compute; discriminate].
  - exists e, s. split; [exact Hrun|]. split; [exact Hd|].
    split; [exact Hc|]. split; [exact Hend | exact Hb].
Defined.

End Ending.

(** ** A session and its in-flight entry *)

Section InFlight.
Import TimerStore.

(** X6. A break that is started and then ended is recorded closed: after
    [startBreak(kind)] at [t1] and [endBreak] at [t2] the in-flight entry
    has one more break, last in its list, of that kind, from [t1] to [t2],
    paid exactly for a short break; the breaks it had are untouched, so it
    has as many open breaks as before.  The session is on no break any
    more, and nothing else of the session or of the entry has changed. *)
Theorem startBreak_endBreak_records_closed_break (env1 env2 : Env) (w : World)
    (entry : TimeEntry.t) (kind : BreakType) :
  currentTimeEntry (timer w) = Some entry ->
  let w2 := after Timer.endBreak env2 (after (Timer.startBreak kind) env1 w) in
  exists entry' b,
    currentTimeEntry (timer w2) = Some entry' /\
    TimeEntry.break_entries entry' = TimeEntry.break_entries entry ++ [b] /\
    BreakEntry.break_type b = kind /\
    BreakEntry.start_time b = clock env1 0 /\
    BreakEntry.end_time b = Some (clock env2 0) /\
    BreakEntry.paid b = match kind with short_break => true | _ => false end /\
    BreakEntry.time_entry_id b = TimeEntry.id entry /\
    length (openBreaks (TimeEntry.break_entries entry')) =
      length (openBreaks (TimeEntry.break_entries entry)) /\
    currentBreakType (timer w2) = None /\
    breakStartTime (timer w2) = None /\
    sameEntryButBreaks entry entry' /\
    sameSessionButBreak (timer w) (timer w2) /\
    store w2 = store w /\ completed w2 = completed w.
Proof.
  intros He. cbv zeta. unfold after, Timer.startBreak. run_a. rewrite He. run_a.
  unfold Timer.endBreak. run_a.
  cbn [currentTimeEntry breakStartTime set_currentTimeEntry set_breakStartTime
       set_currentBreakType TimeEntry.break_entries TimeEntry.set_break_entries].
  rewrite lookup_last_snoc, insert_last_snoc.
  assert ((0 <=? Z.of_nat (length (TimeEntry.break_entries entry ++
            [{| BreakEntry.id := "break-" +:+ pretty (clock env1 1);
                BreakEntry.time_entry_id := TimeEntry.id entry;
                BreakEntry.break_type := kind;
                BreakEntry.start_time := clock env1 0;
                BreakEntry.end_time := None;
                BreakEntry.paid := match kind with short_break => true | _ => false end;
                BreakEntry.notes := None |}])) - 1) = true) as ->.
  { rewrite length_app. cbn [length]. apply Z.leb_le. lia. }
  run_a. eexists _, _. split; [reflexivity|].
  cbn [TimeEntry.break_entries TimeEntry.set_break_entries].
  split; [reflexivity|].
  repeat split; try reflexivity.
  unfold openBreaks. rewrite filter_app, length_app.
  rewrite filter_cons_False by discriminate. cbn. lia.
Qed.

Lemma startBreak_endBreak_records_closed_break_witness :
  let w2 := after Timer.endBreak (offline (2 * hour))
              (after (Timer.startBreak lunch) (offline hour)
                 (sampleSession [] None [])) in
  exists entry' b,
    currentTimeEntry (timer w2) = Some entry' /\
    TimeEntry.break_entries entry' = [b] /\
    BreakEntry.start_time b = hour /\
    BreakEntry.end_time b = Some (2 * hour) /\
    length (openBreaks (TimeEntry.break_entries entry')) = 0%nat.
Proof.
  destruct (startBreak_endBreak_records_closed_break (offline hour) (offline (2 * hour))
              (sampleSession [] None []) _ lunch eq_refl)
    as (entry' & b & He & Hb & _ & Hs & Hend & _ & _ & Hn & _).
  exists entry', b. split; [exact He|]. split; [exact Hb|].
  split; [exact Hs|]. split; [exact Hend | exact Hn].
Defined.

(** X7. [setCurrentProject] keeps the in-flight entry in step with the
    selection: the entry gets the id of the project and its billable flag,
    and with no project ([null]) it loses its project id and becomes not
    billable, whatever project it was started with; its other fields are
    unchanged.  After selecting a project with a non-empty id the project
    is no longer missing for [stopTimer]; after selecting none it is. *)
Theorem setCurrentProject_follows_selection (env : Env) (w : World)
    (project : option Project.t) :
  let w' := after (Timer.setCurrentProject project) env w in
  currentProject (timer w') = project /\
  (forall entry,
     currentTimeEntry (timer w) = Some entry ->
     exists entry',
       currentTimeEntry (timer w') = Some entry' /\
       TimeEntry.project_id entry' = (Project.id <$> project) /\
       TimeEntry.billable entry' = default false (Project.billable <$> project) /\
       sameEntryButProject entry entry') /\
  (currentTimeEntry (timer w) = None -> currentTimeEntry (timer w') = None) /\
  (forall p, project = Some p -> Project.id p <> ""%string ->
     projectSelected (timer w')) /\
  (project = None -> noProjectSelected (timer w')) /\
  store w' = store w /\ completed w' = completed w.
Proof.
  cbv zeta. unfold after, Timer.setCurrentProject. run_a.
  destruct (currentTimeEntry (timer w)) as [entry|] eqn:He; run_a;
    cbn [currentProject currentTimeEntry set_currentProject set_currentTimeEntry].
  - split; [reflexivity|]. split.
    { intros e [= <-]. eexists. split; [reflexivity|]. repeat split. }
    split; [discriminate|]. split.
    { intros p -> Hp. left. cbn. unfold truthy.
      destruct (String.eqb_spec (Project.id p) ""); [contradiction | reflexivity]. }
    split; [|split; reflexivity].
    intros ->. split; [discriminate|].
    intros e i [= <-]. cbn. discriminate.
  - rewrite He. split; [reflexivity|]. split; [discriminate|].
    split; [reflexivity|]. split.
    { intros p -> Hp. left. cbn. unfold truthy.
      destruct (String.eqb_spec (Project.id p) ""); [contradiction | reflexivity]. }
    split; [|split; reflexivity].
    intros ->. split; [discriminate|].
    intros e i H. cbn in H. rewrite He in H. discriminate H.
Qed.

Lemma setCurrentProject_follows_selection_witness :
  let w' := after (Timer.setCurrentProject None) (offline 0) (sampleSession [] None []) in
  (exists entry',
     currentTimeEntry (timer w') = Some entry' /\
     TimeEntry.project_id entry' = None /\ TimeEntry.billable entry' = false) /\
  noProjectSelected (timer w').
Proof.
  destruct (setCurrentProject_follows_selection (offline 0) (sampleSession [] None []) None)
    as (_ & He & _ & _ & Hn & _).
  split.
  - destruct (He _ eq_refl) as (entry' & H1 & H2 & H3 & _).
    exists entry'. split; [exact H1|]. split; [exact H2 | exact H3].
  - apply Hn. reflexivity.
Defined.

Lemma prefix_append (s t : string) : String.prefix s (s +:+ t) = true.
Proof.
  induction s as [|a s IH].
  - now destruct t.
  - change (String a s +:+ t) with (String a (s +:+ t)).
    cbn [String.prefix].
    destruct (Ascii.ascii_dec a a) as [_|Hne]; [exact IH | contradiction].
Qed.

(** X8. An entry started while the remote does not confirm the clock-in is
    provisional in the sense of the entries store: it is a draft that
    begins at the time of the call, with no clock-out and no breaks, and
    its id, ['temp-'] followed by the clock, is one that [isLocalEntry]
    recognises; so editing it never reaches the remote. *)
Theorem startTimer_offline_entry_is_local (env : Env) (w : World)
    (projectId : option string) :
  (forall body, remote env (ClockIn projectId []) <> Ok200 body) ->
  exists e,
    currentTimeEntry (timer (after (Timer.startTimer projectId) env w)) = Some e /\
    TimeEntry.id e = "temp-" +:+ pretty (clock env 1) /\
    Entries.isLocalEntry (TimeEntry.id e) = true /\
    TimeEntry.status e = draft /\
    TimeEntry.clock_in e = clock env 0 /\
    TimeEntry.clock_out e = None /\
    TimeEntry.break_entries e = [] /\
    TimeEntry.project_id e = projectId /\
    forall env' w' data,
      noFetch (trace (snd (run (Entries.editTimeEntry (TimeEntry.id e) data) env' w'))).
Proof.
  intros Hno.
  assert (Hlocal : forall z : Z, Entries.isLocalEntry ("temp-" +:+ pretty z) = true).
  { intros z. unfold Entries.isLocalEntry. now rewrite prefix_append. }
  unfold after, Timer.startTimer. run_a.
  destruct (remote env (ClockIn projectId [])) as [body| |] eqn:E;
    [exfalso; exact (Hno body eq_refl) | |]; run_a;
    eexists; (split; [reflexivity|]); cbn [TimeEntry.id Timer.newTimeEntry];
    (split; [reflexivity|]); (split; [apply Hlocal|]);
    do 5 (split; [reflexivity|]);
    intros env' w' data;
    apply (editTimeEntry_local_id _ data w' env' env' (Hlocal _) (fun _ => eq_refl)).
Qed.

Lemma startTimer_offline_entry_is_local_witness :
  exists e,
    currentTimeEntry
      (timer (after (Timer.startTimer (Some "1"%string)) (offline 0) initialWorld)) = Some e /\
    TimeEntry.id e = "temp-1000"%string /\
    Entries.isLocalEntry (TimeEntry.id e) = true.
Proof.
  destruct (startTimer_offline_entry_is_local (offline 0) initialWorld (Some "1"%string))
    as (e & He & Hid & Hl & _).
  - intros body H. discriminate H.
  - exists e. split; [exact He|]. split; [|exact Hl].
    rewrite Hid. vm_compute. reflexivity.
Defined.

End InFlight.

(** ** The widget and the project catalog *)

Section WidgetAndCatalog.
Import TimerStore.

(** X9. The widget never starts a timer over a running one.  On a session
    that is not active [handleStartStop] starts one: the session is active
    from the current time with no elapsed time, after one clock-in request
    for the selected project (none for an empty selection).  On an active
    session it only tries to stop: with a field missing or no entry in
    flight it shows the errors of [stopTimer] and nothing has changed;
    otherwise the session is ended after one clock-out request.  In no case
    does an active session see a clock-in. *)
Theorem handleStartStop_never_restarts (env : Env) (w : World) (selected : string) :
  (isActive (timer w) = false ->
   exists s,
     run (Widget.handleStartStop selected) env w = (Ret None, s) /\
     isActive (timer (world s)) = true /\
     startTime (timer (world s)) = Some (clock env 0) /\
     elapsedTime (timer (world s)) = 0 /\
     requests (trace s) =
       [ClockIn (if truthy selected then Some selected else None) []]) /\
  (isActive (timer w) = true ->
   ~ fieldsFilled (timer w) \/ currentTimeEntry (timer w) = None ->
   exists errs,
     errs <> [] /\
     run (Widget.handleStartStop selected) env w =
       (Ret (Some errs), {| world := w; ticks := 0; trace := [] |})) /\
  (isActive (timer w) = true ->
   fieldsFilled (timer w) ->
   currentTimeEntry (timer w) <> None ->
   exists s,
     run (Widget.handleStartStop selected) env w = (Ret None, s) /\
     sessionEnded (timer (world s)) /\
     requests (trace s) = [ClockOut (description (timer w))]).
Proof.
  split; [|split].
  - intros Ha. unfold Widget.handleStartStop. run_m. rewrite Ha.
    unfold Timer.startTimer. run_m.
    destruct (remote env (ClockIn (if truthy selected then Some selected else None) []));
      run_m; eexists; (split; [reflexivity|]); repeat split.
  - intros Ha Hbad. unfold Widget.handleStartStop. run_m. rewrite Ha.
    change (Timer.stopTimer env {| world := w; ticks := 0; trace := [] |})
      with (run Timer.stopTimer env w).
    destruct (stopTimer_rejected env w Hbad) as (errs & Hne & ->).
    exists errs. split; [exact Hne | reflexivity].
  - intros Ha Hf He. unfold Widget.handleStartStop. run_m. rewrite Ha.
    change (Timer.stopTimer env {| world := w; ticks := 0; trace := [] |})
      with (run Timer.stopTimer env w).
    destruct (currentTimeEntry (timer w)) as [entry|] eqn:Ee; [|contradiction].
    destruct (stopTimer_accepted env w entry Ee Hf) as (n & tr & -> & _ & Hr).
    eexists. split; [reflexivity|]. cbn [world trace timer].
    split; [repeat split | exact Hr].
Qed.

Lemma handleStartStop_never_restarts_witness :
  (exists s,
     run (Widget.handleStartStop "1") (offline 0) initialWorld = (Ret None, s) /\
     isActive (timer (world s)) = true) /\
  (exists errs,
     errs <> [] /\
     run (Widget.handleStartStop "2") (offline hour) (sampleSession [] None []) =
       (Ret (Some errs),
        {| world := sampleSession [] None []; ticks := 0; trace := [] |})) /\
  (exists s,
     run (Widget.handleStartStop "2") (offline hour) (sampleSession [] None [0x78%N]) =
       (Ret None, s) /\
     sessionEnded (timer (world s))).
Proof.
  split; [|split].
  - destruct (proj1 (handleStartStop_never_restarts (offline 0) initialWorld "1") eq_refl)
      as (s & Hrun & Ha & _).
    exists s. split; [exact Hrun | exact Ha].
  - apply (proj1 (proj2 (handleStartStop_never_restarts (offline hour)
                            (sampleSession [] None []) "2")) eq_refl).
    left. intros [_ Hd]. apply Hd. reflexivity.
  - destruct (proj2 (proj2 (handleStartStop_never_restarts (offline hour)
                              (sampleSession [] None [0x78%N]) "2")) eq_refl)
      as (s & Hrun & Hend & _).
    + split; [right; reflexivity | vm_compute; discriminate].
    + discriminate.
    + exists s. split; [exact Hrun | exact Hend].
Defined.

Lemma findProject_Some (projects : list Project.t) (i : string) (p : Project.t) :
  Projects.findProject projects i = Some p -> Project.id p = i /\ p ∈ projects.
Proof.
  unfold Projects.findProject. intros H. apply find_some in H as [Hin Heq].
  split; [now apply String.eqb_eq | now apply list_elem_of_In].
Qed.

Lemma findProject_None (projects : list Project.t) (i : string) :
  Projects.findProject projects i = None ->
  forall p, p ∈ projects -> Project.id p <> i.
Proof.
  unfold Projects.findProject. intros H p Hp Heq.
  apply list_elem_of_In in Hp.
  pose proof (find_none _ _ H p Hp) as Hf. cbn in Hf.
  apply String.eqb_neq in Hf. contradiction.
Qed.

(** X10. Lookups in the project catalog go by id.  [getProjectById] returns
    a project of the catalog with exactly the id asked for, or nothing when
    no project of the catalog has it; a missing or empty id gives nothing.
    Every project of the catalog is found under its own id, and
    [getProjectName] then gives its name; for an id outside the catalog it
    gives ['Project '] followed by the id, and ['No Project'] for a missing
    or empty id. *)
Theorem catalog_lookup_by_id :
  (forall i p, Projects.getProjectById i = Some p ->
     i = Some (Project.id p) /\ p ∈ Projects.mockProjects) /\
  (forall i, Projects.getProjectById (Some i) = None ->
     forall p, p ∈ Projects.mockProjects -> Project.id p <> i) /\
  Projects.getProjectById None = None /\
  Projects.getProjectById (Some ""%string) = None /\
  (forall p, p ∈ Projects.mockProjects ->
     Projects.getProjectById (Some (Project.id p)) = Some p /\
     Projects.getProjectName (Some (Project.id p)) = Project.name p) /\
  (forall i, i <> ""%string ->
     (forall p, p ∈ Projects.mockProjects -> Project.id p <> i) ->
     Projects.getProjectName (Some i) = "Project " +:+ i) /\
  Projects.getProjectName None = "No Project"%string /\
  Projects.getProjectName (Some ""%string) = "No Project"%string.
Proof.
  split; [|split; [|split; [|split; [|split; [|split; [|split]]]]]];
    try reflexivity.
  - intros [i|] p; unfold Projects.getProjectById; cbn [truthy_opt negb];
      [|discriminate].
    change (default ""%string (Some i)) with i.
    destruct (truthy i); cbn [negb]; [|discriminate].
    intros [<- Hin]%findProject_Some. now split.
  - intros i. unfold Projects.getProjectById. cbn [truthy_opt].
    change (default ""%string (Some i)) with i.
    destruct (truthy i) eqn:Ei; cbn [negb].
    + apply findProject_None.
    + intros _ p Hp Heq. unfold truthy in Ei.
      apply negb_false_iff, String.eqb_eq in Ei. subst i.
      repeat (apply elem_of_cons in Hp as [-> | Hp]; [discriminate Heq|]).
      now apply elem_of_nil in Hp.
  - intros p Hp.
    repeat (apply elem_of_cons in Hp as [-> | Hp]; [split; reflexivity|]).
    now apply elem_of_nil in Hp.
  - intros i Hi Hout. unfold Projects.getProjectName. cbn [truthy_opt].
    change (default ""%string (Some i)) with i.
    assert (truthy i = true) as ->.
    { unfold truthy. now destruct (String.eqb_spec i ""). }
    cbn [negb].
    destruct (Projects.findProject Projects.mockProjects i) as [p|] eqn:E;
      [|reflexivity].
    apply findProject_Some in E as [Hid Hin]. now destruct (Hout p Hin).
Qed.

Lemma catalog_lookup_by_id_witness :
  (Project.name <$> Projects.getProjectById (Some "3"%string))
    = Some "Internal Tools"%string /\
  Projects.getProjectName (Some "9"%string) = "Project 9"%string.
Proof.
  destruct catalog_lookup_by_id as (Hfind & _ & _ & _ & _ & Hname & _).
  split; [reflexivity|].
  apply Hname; [discriminate|].
  intros p Hp Heq.
  repeat (apply elem_of_cons in Hp as [-> | Hp]; [discriminate Heq|]).
  now apply elem_of_nil in Hp.
Defined.

Lemma setCurrentProject_after (env : Env) (w : World) (project : option Project.t) :
  after (Timer.setCurrentProject project) env w =
    withTimer
      match currentTimeEntry (timer w) with
      | Some entry =>
          set_currentTimeEntry
            (Some
              (TimeEntry.set_billable
                (default false (Project.billable <$> project))
                (TimeEntry.set_project_id (Project.id <$> project) entry)))
            (set_currentProject project (timer w))
      | None => set_currentProject project (timer w)
      end
      w.
Proof.
  unfold after, Timer.setCurrentProject. run_a.
  now destruct (currentTimeEntry (timer w)).
Qed.

Lemma getProjectById_outside (value : string) :
  (forall p, p ∈ Projects.mockProjects -> Project.id p <> value) ->
  Projects.getProjectById (Some value) = None.
Proof.
  intros Hout. unfold Projects.getProjectById. cbn [truthy_opt].
  change (default ""%string (Some value)) with value.
  destruct (truthy value); cbn [negb]; [|reflexivity].
  destruct (Projects.findProject Projects.mockProjects value) as [p|] eqn:E;
    [|reflexivity].
  apply findProject_Some in E as [Hid Hin]. now destruct (Hout p Hin).
Qed.

(** X11. Choosing a project in the selector of the widget while an entry is
    in flight: a value that is the id of a catalog project selects that
    project, gives the entry its id and its billable flag, and the project
    is then not missing for [stopTimer]; any other value selects nothing,
    and the entry loses the project it had, so that the project is missing
    again. *)
Theorem onProjectChange_selects_from_catalog (env : Env) (w : World) (value : string) :
  let w' := after (Widget.onProjectChange value) env w in
  (forall p,
     p ∈ Projects.mockProjects -> Project.id p = value ->
     currentProject (timer w') = Some p /\
     projectSelected (timer w') /\
     forall entry,
       currentTimeEntry (timer w) = Some entry ->
       exists entry',
         currentTimeEntry (timer w') = Some entry' /\
         TimeEntry.project_id entry' = Some value /\
         TimeEntry.billable entry' = Project.billable p /\
         sameEntryButProject entry entry') /\
  ((forall p, p ∈ Projects.mockProjects -> Project.id p <> value) ->
   currentProject (timer w') = None /\ noProjectSelected (timer w')).
Proof.
  cbv zeta. unfold Widget.onProjectChange. split.
  - intros p Hp <-.
    assert (Hfind : Projects.getProjectById (Some (Project.id p)) = Some p).
    { repeat (apply elem_of_cons in Hp as [-> | Hp]; [reflexivity|]).
      now apply elem_of_nil in Hp. }
    assert (Hid : truthy (Project.id p) = true).
    { repeat (apply elem_of_cons in Hp as [-> | Hp]; [reflexivity|]).
      now apply elem_of_nil in Hp. }
    rewrite Hfind, setCurrentProject_after.
    destruct (currentTimeEntry (timer w)) as [entry|] eqn:He;
      cbn [withTimer timer currentProject currentTimeEntry set_currentProject
           set_currentTimeEntry].
    + split; [reflexivity|]. split; [left; cbn; exact Hid|].
      intros e [= <-]. eexists. split; [reflexivity|]. repeat split.
    + split; [reflexivity|]. split; [left; cbn; exact Hid|].
      intros e H. discriminate H.
  - intros Hout. rewrite (getProjectById_outside value Hout), setCurrentProject_after.
    destruct (currentTimeEntry (timer w)) as [entry|] eqn:He;
      cbn [withTimer timer currentProject currentTimeEntry set_currentProject
           set_currentTimeEntry].
    + split; [reflexivity|]. split; [discriminate|].
      intros e i [= <-]. cbn. discriminate.
    + split; [reflexivity|]. split; [discriminate|].
      intros e i H. cbn in H. rewrite He in H. discriminate H.
Qed.

Lemma onProjectChange_selects_from_catalog_witness :
  let w' := after (Widget.onProjectChange "7") (offline 0) (sampleSession [] None []) in
  currentProject (timer w') = None /\ noProjectSelected (timer w').
Proof.
  apply (proj2 (onProjectChange_selects_from_catalog (offline 0)
                  (sampleSession [] None []) "7")).
  intros p Hp Heq.
  repeat (apply elem_of_cons in Hp as [-> | Hp]; [discriminate Heq|]).
  now apply elem_of_nil in Hp.
Defined.

End WidgetAndCatalog.

(** ** The collection of the entries store *)

Section Collection.
Import TimeEntriesStore.

Lemma findIndex_None_hasId (i : string) (l : list TimeEntry.t) :
  findIndex (Entries.sameId i) l = None <-> hasId i l = false.
Proof.
  induction l as [|e l IH]; [easy|].
  cbn [hasId existsb findIndex]. fold (hasId i l). unfold Entries.sameId at 1.
  destruct (String.eqb (TimeEntry.id e) i); cbn [orb]; [easy|].
  rewrite <- IH. now destruct (findIndex (Entries.sameId i) l).
Qed.

Lemma findIndex_sameId (i : string) (l : list TimeEntry.t) (k : nat) :
  findIndex (Entries.sameId i) l = Some k ->
  exists e, l !! k = Some e /\ TimeEntry.id e = i.
Proof.
  intros (e & He & Hid & _)%findIndex_Some.
  exists e. split; [exact He | now apply String.eqb_eq].
Qed.

Lemma addTimeEntry_after (env : Env) (w : World) (entry : TimeEntry.t) :
  timeEntries (store (after (Entries.addTimeEntry entry) env w)) =
    match findIndex (Entries.sameId (TimeEntry.id entry)) (timeEntries (store w)) with
    | Some k => <[k := entry]> (timeEntries (store w))
    | None => entry :: timeEntries (store w)
    end.
Proof.
  unfold after, Entries.addTimeEntry. run_a.
  now destruct (findIndex _ _).
Qed.

Lemma addTimeEntry_member (env : Env) (w : World) (entry : TimeEntry.t) :
  entry ∈ timeEntries (store (after (Entries.addTimeEntry entry) env w)).
Proof.
  rewrite addTimeEntry_after.
  destruct (findIndex _ _) as [k|] eqn:E;
    [now apply (elem_of_insert_found _ _ _ _ E) | apply list_elem_of_here].
Qed.

Lemma findIndex_first (i : string) (l : list TimeEntry.t) (k : nat) :
  findIndex (Entries.sameId i) l = Some k -> firstWithId i l k.
Proof.
  intros (e & He & Hid & Hlt)%findIndex_Some. split.
  - exists e. split; [exact He | now apply String.eqb_eq].
  - intros j y Hj Hy Heq. specialize (Hlt j y Hj Hy).
    unfold Entries.sameId in Hlt. apply String.eqb_neq in Hlt. contradiction.
Qed.

(** X12. [addTimeEntry] inserts or replaces by id.  The entry is in the
    collection afterwards.  If no entry had its id it is put in front and
    the rest is unchanged; otherwise it takes the place of the first entry
    with its id and every other place is unchanged, so that the length and
    the sequence of ids stay the same.  Entries with another id are kept,
    and a collection without duplicate ids stays without duplicate ids. *)
Theorem addTimeEntry_inserts_or_replaces (env : Env) (w : World) (entry : TimeEntry.t) :
  let l := timeEntries (store w) in
  let l' := timeEntries (store (after (Entries.addTimeEntry entry) env w)) in
  entry ∈ l' /\
  (hasId (TimeEntry.id entry) l = false -> l' = entry :: l) /\
  (hasId (TimeEntry.id entry) l = true ->
   exists k,
     firstWithId (TimeEntry.id entry) l k /\
     l' = <[k := entry]> l /\
     length l' = length l /\ map TimeEntry.id l' = map TimeEntry.id l) /\
  (forall e, e ∈ l -> TimeEntry.id e <> TimeEntry.id entry -> e ∈ l') /\
  (NoDup (map TimeEntry.id l) -> NoDup (map TimeEntry.id l')).
Proof.
  cbv zeta. rewrite addTimeEntry_after.
  destruct (findIndex (Entries.sameId (TimeEntry.id entry)) (timeEntries (store w)))
    as [k|] eqn:E.
  - destruct (findIndex_sameId _ _ _ E) as (old & Hold & Hid).
    assert (Hids : map TimeEntry.id (<[k := entry]> (timeEntries (store w))) =
                   map TimeEntry.id (timeEntries (store w))).
    { change (map TimeEntry.id) with (fmap (M := list) TimeEntry.id).
      rewrite list_fmap_insert. apply list_insert_id.
      rewrite list_lookup_fmap, Hold. cbn. now rewrite Hid. }
    split; [now apply (elem_of_insert_found _ _ _ _ E)|].
    split.
    { intros H. apply findIndex_None_hasId in H. congruence. }
    split.
    { intros _. exists k. split; [now apply findIndex_first|].
      split; [reflexivity|]. split; [apply length_insert | exact Hids]. }
    split; [|now rewrite Hids].
    intros e He Hne. apply list_elem_of_lookup in He as [j Hj].
    apply list_elem_of_lookup. exists j.
    rewrite list_lookup_insert_ne; [exact Hj|].
    intros <-. rewrite Hold in Hj. injection Hj as <-. now apply Hne.
  - split; [apply list_elem_of_here|]. split; [reflexivity|].
    split.
    { intros H. apply findIndex_None_hasId in E. congruence. }
    split; [intros e He _; now apply list_elem_of_further|].
    intros Hnd. cbn [map]. apply NoDup_cons. split; [|exact Hnd].
    intros (e & Heq & He)%list_elem_of_fmap.
    apply findIndex_None_hasId in E.
    apply (hasId_false _ _ e E He). now symmetry.
Qed.

Lemma addTimeEntry_inserts_or_replaces_witness :
  let l' := timeEntries (store (after (Entries.addTimeEntry (sampleEntry "a" 0 9))
                                  (offline 0) staleWorld)) in
  l' = <[0%nat := sampleEntry "a" 0 9]> fresherStore /\
  length l' = 2%nat /\ map TimeEntry.id l' = ["a"; "b"]%string /\
  NoDup (map TimeEntry.id l').
Proof.
  destruct (addTimeEntry_inserts_or_replaces (offline 0) staleWorld (sampleEntry "a" 0 9))
    as (_ & _ & Hrep & _ & Hnd).
  destruct (Hrep eq_refl) as (k & [[e [He Hid]] Hfirst] & Hl' & Hlen & Hids).
  assert (Hk : k = 0%nat).
  { destruct k as [|k]; [reflexivity | exfalso].
    apply (Hfirst 0%nat (sampleEntry "a" (3 * hour) 2000000)); [lia | reflexivity..]. }
  subst k. split; [exact Hl'|]. split; [exact Hlen|]. split; [exact Hids|].
  apply Hnd. cbn. apply NoDup_cons. split; [|apply NoDup_singleton].
  intros H. apply list_elem_of_singleton in H. discriminate H.
Defined.

(** X13. [updateTimeEntry] patches every entry that has the id, not only
    the first, and no other: the collection keeps its length, an entry with
    another id stays as it is at its place, and an entry with the id is
    replaced at its place by its merge with the patch.  If no entry has the
    id the collection is unchanged, and a patch without an [id] key leaves
    the sequence of ids unchanged. *)
Theorem updateTimeEntry_patches_every_match (env : Env) (w : World) (i : string)
    (updates : Patch.t) :
  let l := timeEntries (store w) in
  let l' := timeEntries (store (after (Entries.updateTimeEntry i updates) env w)) in
  length l' = length l /\
  (forall k e, l !! k = Some e ->
     l' !! k = Some (if String.eqb (TimeEntry.id e) i then Entries.spread e updates else e)) /\
  (hasId i l = false -> l' = l) /\
  (Patch.id updates = None -> map TimeEntry.id l' = map TimeEntry.id l).
Proof.
  cbv zeta. unfold after, Entries.updateTimeEntry. run_a.
  cbn [timeEntries set_timeEntries].
  split; [apply length_map|]. split; [|split].
  - intros k e He.
    change (map ?f ?l) with (fmap (M := list) f l).
    now rewrite list_lookup_fmap, He.
  - intros H. induction (timeEntries (store w)) as [|e l IH]; [reflexivity|].
    cbn [hasId existsb] in H. apply orb_false_elim in H as [He Hl].
    cbn [map]. unfold Entries.sameId at 1. rewrite He. f_equal. now apply IH.
  - intros Hid. rewrite map_map. apply map_ext. intros e.
    destruct (Entries.sameId i e); [|reflexivity].
    cbn [TimeEntry.id Entries.spread]. now rewrite Hid.
Qed.

Lemma updateTimeEntry_patches_every_match_witness :
  timeEntries (store (after (Entries.updateTimeEntry "z" notBillable) (offline 0) staleWorld))
    = fresherStore.
Proof.
  apply (proj1 (proj2 (proj2 (updateTimeEntry_patches_every_match (offline 0) staleWorld
                                "z" notBillable)))).
  reflexivity.
Defined.

End Collection.

(** ** Deleting and editing *)

Section DeleteAndEdit.
Import TimeEntriesStore.

Lemma hasId_filter (i : string) (l : list TimeEntry.t) :
  hasId i (List.filter (fun e => negb (Entries.sameId i e)) l) = false.
Proof.
  induction l as [|e l IH]; [reflexivity|].
  cbn [List.filter]. destruct (Entries.sameId i e) eqn:E; cbn [negb]; [exact IH|].
  cbn [hasId existsb]. fold (hasId i (List.filter (fun e => negb (Entries.sameId i e)) l)).
  unfold Entries.sameId in E. now rewrite E, IH.
Qed.

(** X14. [deleteTimeEntry] removes locally whatever the remote answers, and
    never raises: for every id, and every answer of the delete endpoint
    (success, failure status, network error), it returns normally with
    every entry of that id gone from the collection and from the local
    cache, the other entries kept in their order, the loading flag down
    and no error recorded.  Store and cache after the call do not depend on
    the remote at all. *)
Theorem deleteTimeEntry_removes_locally (deleteEntry : string -> Entries.PlainReply)
    (env : Env) (w : World) (i : string) :
  exists s,
    run (Entries.deleteTimeEntry deleteEntry i) env w = (Ret tt, s) /\
    timeEntries (store (world s)) =
      List.filter (fun e => negb (Entries.sameId i e)) (timeEntries (store w)) /\
    completed (world s) =
      Some (List.filter (fun e => negb (Entries.sameId i e)) (cacheOf w)) /\
    hasId i (timeEntries (store (world s))) = false /\
    hasId i (cacheOf (world s)) = false /\
    isLoading (store (world s)) = false /\
    error (store (world s)) = None /\
    timer (world s) = timer w.
Proof.
  unfold Entries.deleteTimeEntry, Entries.removeLocally, Entries.removeTimeEntry, cacheOf.
  run_m.
  destruct (Entries.isLocalEntry i); run_m.
  - eexists. split; [reflexivity|]. cbn [world store completed timer].
    cbn [timeEntries isLoading error set_timeEntries set_isLoading set_error].
    repeat split; try reflexivity; cbn [default]; apply hasId_filter.
  - destruct (deleteEntry i); run_m;
      eexists; (split; [reflexivity|]); cbn [world store completed timer];
      cbn [timeEntries isLoading error set_timeEntries set_isLoading set_error];
      repeat split; try reflexivity; cbn [default]; apply hasId_filter.
Qed.

(** What [updateLocally] does with an id that the collection has. *)
Lemma updateLocally_found (local : bool) (env : Env) (s : St) (i : string)
    (data : Patch.t) (k : nat) (current : TimeEntry.t) :
  findIndex (Entries.sameId i) (timeEntries (store (world s))) = Some k ->
  timeEntries (store (world s)) !! k = Some current ->
  let updated := TimeEntry.set_updated_at (clock env (ticks s)) (Entries.spread current data) in
  exists s',
    Entries.updateLocally local i data env s = (Ret updated, s') /\
    timer (world s') = timer (world s) /\
    timeEntries (store (world s')) = <[k := updated]> (timeEntries (store (world s))) /\
    isLoading (store (world s')) = false /\
    error (store (world s')) = error (store (world s)) /\
    completed (world s') =
      match findIndex (Entries.sameId i) (cacheOf (world s)) with
      | Some j => Some (<[j := updated]> (cacheOf (world s)))
      | None => if local then Some (cacheOf (world s) ++ [updated])
                else completed (world s)
      end /\
    requests (trace s') = requests (trace s).
Proof.
  intros Hk Hc updated. unfold Entries.updateLocally, cacheOf. run_m.
  rewrite Hk, Hc. run_m.
  assert (Hreq : forall tr ef, (forall r, ef <> EFetch r) ->
                   requests (tr ++ [ef]) = requests tr).
  { intros tr ef Hne. unfold requests. rewrite omap_app. cbn.
    destruct ef; try (now rewrite app_nil_r). now destruct (Hne r). }
  destruct (findIndex (Entries.sameId i) (default [] (completed (world s)))) as [j|];
    [|destruct local]; run_m; eexists; (split; [reflexivity|]);
    cbn [world trace timer store completed timeEntries isLoading error
         set_timeEntries set_isLoading];
    repeat split; rewrite ?Hreq by discriminate; reflexivity.
Qed.

(** What [editTimeEntry] does when it works on the collection alone: for an
    id that [isLocalEntry] recognises, or when the remote does not
    confirm. *)
Lemma editTimeEntry_locally (env : Env) (w : World) (i : string) (data : Patch.t)
    (k : nat) (current : TimeEntry.t) :
  Entries.isLocalEntry i = true \/
    (forall body, remote env (PatchEntry i data) <> Ok200 body) ->
  findIndex (Entries.sameId i) (timeEntries (store w)) = Some k ->
  timeEntries (store w) !! k = Some current ->
  let updated := TimeEntry.set_updated_at (clock env 0) (Entries.spread current data) in
  exists s,
    run (Entries.editTimeEntry i data) env w = (Ret updated, s) /\
    timeEntries (store (world s)) = <[k := updated]> (timeEntries (store w)) /\
    completed (world s) =
      match findIndex (Entries.sameId i) (cacheOf w) with
      | Some j => Some (<[j := updated]> (cacheOf w))
      | None => if Entries.isLocalEntry i then Some (cacheOf w ++ [updated])
                else completed w
      end /\
    isLoading (store (world s)) = false /\
    error (store (world s)) = None /\
    requests (trace s) = if Entries.isLocalEntry i then [] else [PatchEntry i data].
Proof.
  intros Hcase Hk Hc updated.
  unfold Entries.editTimeEntry. run_m.
  destruct (Entries.isLocalEntry i) eqn:Hlocal; run_m.
  - match goal with
    | |- context [Entries.updateLocally true ?i ?data ?env ?st] =>
        destruct (updateLocally_found true env st i data k current Hk Hc)
          as (s' & -> & Ht & Hl & Hload & Herr & Hcache & Hreq)
    end.
    cbn [ticks] in *. run_m. eexists. split; [reflexivity|].
    cbn [world store completed trace].
    cbn [timeEntries isLoading error set_isLoading set_error] in *.
    destruct s' as [[t' st' c'] n' tr']; cbn [world store completed trace timer] in *.
    destruct st' as [l' ld' er']; cbn [timeEntries isLoading error] in *.
    unfold cacheOf in *. cbn [completed world] in *. subst l' ld' er' c'.
    repeat split. unfold requests in *. rewrite omap_app. cbn. now rewrite Hreq.
  - destruct Hcase as [H | Hdown]; [discriminate H|].
    destruct (remote env (PatchEntry i data)) as [body|st|] eqn:E;
      [exfalso; exact (Hdown body eq_refl) | |]; run_m.
    all: match goal with
         | Hk : findIndex _ _ = Some ?k, Hc : _ !! ?k = Some ?current
           |- context [Entries.updateLocally false ?i ?data ?env ?st] =>
             destruct (updateLocally_found false env st i data k current Hk Hc)
               as (s' & -> & Ht & Hl & Hload & Herr & Hcache & Hreq)
         end.
    all: cbn [ticks] in *; run_m; eexists; split; [reflexivity|].
    all: cbn [world store completed trace].
    all: cbn [timeEntries isLoading error set_isLoading set_error] in *.
    all: destruct s' as [[t' st' c'] n' tr']; cbn [world store completed trace timer] in *.
    all: destruct st' as [l' ld' er']; cbn [timeEntries isLoading error] in *.
    all: unfold cacheOf in *; cbn [completed world] in *; subst l' ld' er' c'.
    all: repeat split.
    all: unfold requests in *; rewrite omap_app; cbn; rewrite Hreq; reflexivity.
Qed.

(** The place of the first entry of an id, when there is one. *)
Lemma hasId_first (i : string) (l : list TimeEntry.t) :
  hasId i l = true ->
  exists k current,
    findIndex (Entries.sameId i) l = Some k /\ firstWithId i l k /\ l !! k = Some current.
Proof.
  intros Hhas.
  destruct (findIndex (Entries.sameId i) l) as [k|] eqn:Hk;
    [|apply findIndex_None_hasId in Hk; congruence].
  destruct (findIndex_sameId _ _ _ Hk) as (current & Hc & _).
  exists k, current. split; [reflexivity|]. split; [now apply findIndex_first | exact Hc].
Qed.

(** X15. An edit is not lost when the remote cannot take it: for an id that
    [isLocalEntry] does not recognise and that the collection has, when the
    remote does not confirm the PATCH, [editTimeEntry] returns the first
    entry of that id merged with the patch and stamped with the current
    time, and puts it at the same place of the collection, every other
    place being unchanged; no error is recorded.  In the local cache it
    replaces the first entry of that id, and a cache without that id is
    left as it is. *)
Theorem editTimeEntry_falls_back_locally (env : Env) (w : World) (i : string)
    (data : Patch.t) :
  Entries.isLocalEntry i = false ->
  (forall body, remote env (PatchEntry i data) <> Ok200 body) ->
  hasId i (timeEntries (store w)) = true ->
  exists k current s,
    firstWithId i (timeEntries (store w)) k /\
    timeEntries (store w) !! k = Some current /\
    let updated := TimeEntry.set_updated_at (clock env 0) (Entries.spread current data) in
    run (Entries.editTimeEntry i data) env w = (Ret updated, s) /\
    timeEntries (store (world s)) = <[k := updated]> (timeEntries (store w)) /\
    (hasId i (cacheOf w) = true ->
     exists j, firstWithId i (cacheOf w) j /\
       completed (world s) = Some (<[j := updated]> (cacheOf w))) /\
    (hasId i (cacheOf w) = false -> completed (world s) = completed w) /\
    isLoading (store (world s)) = false /\
    error (store (world s)) = None /\
    requests (trace s) = [PatchEntry i data].
Proof.
  intros Hlocal Hno Hhas.
  destruct (hasId_first _ _ Hhas) as (k & current & Hk & Hfirst & Hc).
  destruct (editTimeEntry_locally env w i data k current (or_intror Hno) Hk Hc)
    as (s & Hrun & Hl & Hcache & Hload & Herr & Hreq).
  rewrite Hlocal in Hcache, Hreq.
  exists k, current, s. split; [exact Hfirst|]. split; [exact Hc|].
  cbv zeta. split; [exact Hrun|]. split; [exact Hl|].
  split; [|split; [|now repeat split]].
  - intros Hin. destruct (hasId_first _ _ Hin) as (j & _ & Hj & Hjfirst & _).
    exists j. split; [exact Hjfirst|]. now rewrite Hcache, Hj.
  - intros Hout. apply findIndex_None_hasId in Hout. now rewrite Hcache, Hout.
Qed.

Lemma editTimeEntry_falls_back_locally_witness :
  exists e s,
    run (Entries.editTimeEntry "manual-0" notBillable) (offline 9000) manualWorld =
      (Ret e, s) /\
    error (store (world s)) = None /\
    requests (trace s) = [PatchEntry "manual-0" notBillable].
Proof.
  destruct (editTimeEntry_falls_back_locally (offline 9000) manualWorld "manual-0"
              notBillable eq_refl)
    as (k & current & s & _ & _ & Hrun & _ & _ & _ & _ & Herr & Hreq).
  - intros body H. discriminate H.
  - vm_compute. reflexivity.
  - eexists _, s. split; [exact Hrun|]. split; [exact Herr | exact Hreq].
Defined.

(** What [updateLocally] does with an id that the collection does not
    have. *)
Lemma updateLocally_missing (local : bool) (env : Env) (s : St) (i : string)
    (data : Patch.t) :
  hasId i (timeEntries (store (world s))) = false ->
  exists s',
    Entries.updateLocally local i data env s =
      (Throw (if local then "Entry not found" else "Entry not found for fallback update"),
       s') /\
    timer (world s') = timer (world s) /\
    timeEntries (store (world s')) = timeEntries (store (world s)) /\
    completed (world s') = completed (world s) /\
    ticks s' = ticks s /\
    requests (trace s') = requests (trace s).
Proof.
  intros H. apply findIndex_None_hasId in H.
  unfold Entries.updateLocally. run_m. rewrite H.
  destruct local; run_m; eexists; (split; [reflexivity|]); repeat split.
  cbn [trace]. unfold requests. rewrite omap_app. cbn. apply app_nil_r.
Qed.

(** X16. Editing an id that the collection does not have fails and leaves
    the data alone: when the id is one that [isLocalEntry] recognises, or
    the remote does not confirm the PATCH, [editTimeEntry] raises ['Entry
    not found'] (for a local id) or ['Entry not found for fallback update'],
    records that message as the error of the store, lowers the loading
    flag, and leaves the collection and the local cache as they were. *)
Theorem editTimeEntry_unknown_id_raises (env : Env) (w : World) (i : string)
    (data : Patch.t) :
  hasId i (timeEntries (store w)) = false ->
  Entries.isLocalEntry i = true \/
    (forall body, remote env (PatchEntry i data) <> Ok200 body) ->
  let msg := if Entries.isLocalEntry i then "Entry not found"%string
             else "Entry not found for fallback update"%string in
  exists s,
    run (Entries.editTimeEntry i data) env w = (Throw msg, s) /\
    timeEntries (store (world s)) = timeEntries (store w) /\
    completed (world s) = completed w /\
    timer (world s) = timer w /\
    error (store (world s)) = Some msg /\
    isLoading (store (world s)) = false.
Proof.
  intros Hno Hcase. cbv zeta. unfold Entries.editTimeEntry. run_m.
  destruct (Entries.isLocalEntry i) eqn:Hlocal; run_m.
  - match goal with
    | |- context [Entries.updateLocally true ?i ?data ?env ?st] =>
        destruct (updateLocally_missing true env st i data Hno)
          as (s' & -> & Ht & Hl & Hc & _ & _)
    end.
    run_m. eexists. split; [reflexivity|].
    cbn [world store completed timer timeEntries isLoading error set_isLoading set_error].
    destruct s' as [[t' st' c'] n' tr']. cbn [world store completed timer] in *.
    destruct st' as [l' ld' er']. cbn [timeEntries] in *. subst. repeat split.
  - destruct Hcase as [H | Hdown]; [discriminate H|].
    destruct (remote env (PatchEntry i data)) as [body|st|] eqn:E;
      [exfalso; exact (Hdown body eq_refl) | |]; run_m.
    all: match goal with
         | |- context [Entries.updateLocally false ?i ?data ?env ?st] =>
             destruct (updateLocally_missing false env st i data Hno)
               as (s' & -> & Ht & Hl & Hc & _ & _)
         end.
    all: run_m; eexists; split; [reflexivity|].
    all: cbn [world store completed timer timeEntries isLoading error
              set_isLoading set_error].
    all: destruct s' as [[t' st' c'] n' tr']; cbn [world store completed timer] in *.
    all: destruct st' as [l' ld' er']; cbn [timeEntries] in *; subst; repeat split.
Qed.

Lemma editTimeEntry_unknown_id_raises_witness :
  exists s,
    run (Entries.editTimeEntry "temp-5" notBillable) (offline 0) manualWorld =
      (Throw "Entry not found", s) /\
    timeEntries (store (world s)) = timeEntries (store manualWorld) /\
    error (store (world s)) = Some "Entry not found"%string.
Proof.
  destruct (editTimeEntry_unknown_id_raises (offline 0) manualWorld "temp-5" notBillable)
    as (s & Hrun & Hl & _ & _ & Herr & _).
  - vm_compute. reflexivity.
  - left. reflexivity.
  - exists s. split; [exact Hrun|]. split; [exact Hl | exact Herr].
Defined.

(** X17. When the remote confirms the PATCH of an id that [isLocalEntry]
    does not recognise, [editTimeEntry] returns the remote's entry and
    takes the remote's word: every entry of that id in the collection is
    merged with the remote's entry, not with the patch, and no clock is
    read; entries of other ids stay as they are.  In the local cache the
    first entry of that id is replaced by the remote's entry, and a cache
    without that id is left as it is.  This also holds for an id that the
    collection does not have: nothing changes and no error is raised. *)
Theorem editTimeEntry_takes_confirmed_entry (env : Env) (w : World) (i : string)
    (data : Patch.t) (body : TimeEntry.t) :
  Entries.isLocalEntry i = false ->
  remote env (PatchEntry i data) = Ok200 body ->
  exists s,
    run (Entries.editTimeEntry i data) env w = (Ret body, s) /\
    length (timeEntries (store (world s))) = length (timeEntries (store w)) /\
    (forall k e, timeEntries (store w) !! k = Some e ->
       timeEntries (store (world s)) !! k =
         Some (if String.eqb (TimeEntry.id e) i
               then Entries.spread e (Entries.asPatch body) else e)) /\
    (hasId i (timeEntries (store w)) = false ->
     timeEntries (store (world s)) = timeEntries (store w)) /\
    completed (world s) =
      match findIndex (Entries.sameId i) (cacheOf w) with
      | Some j => Some (<[j := body]> (cacheOf w))
      | None => completed w
      end /\
    isLoading (store (world s)) = false /\
    error (store (world s)) = None /\
    ticks s = 0%nat /\
    requests (trace s) = [PatchEntry i data].
Proof.
  intros Hlocal E. unfold Entries.editTimeEntry, Entries.updateTimeEntry, cacheOf.
  run_m. rewrite Hlocal. run_m. rewrite E. run_m.
  assert (Hmap : forall l : list TimeEntry.t,
            hasId i l = false ->
            map (fun entry => if Entries.sameId i entry
                              then Entries.spread entry (Entries.asPatch body)
                              else entry) l = l).
  { induction l as [|e l IH]; [reflexivity|]. cbn [hasId existsb map].
    intros [He Hl]%orb_false_elim. unfold Entries.sameId at 1.
    rewrite He. f_equal. now apply IH. }
  destruct (findIndex (Entries.sameId i) (default [] (completed w))) as [j|]; run_m;
    eexists; (split; [reflexivity|]);
    cbn [world store completed ticks trace timeEntries isLoading error
         set_timeEntries set_isLoading set_error];
    (split; [apply length_map|]);
    (split; [intros k e He; change (map ?f ?l) with (fmap (M := list) f l);
             now rewrite list_lookup_fmap, He|]);
    (split; [apply Hmap|]); repeat split.
Qed.

Lemma editTimeEntry_takes_confirmed_entry_witness :
  exists s,
    run (Entries.editTimeEntry "manual-0" notBillable)
      (online (Ok200 remoteVersion) 9000) manualWorld = (Ret remoteVersion, s) /\
    ticks s = 0%nat.
Proof.
  destruct (editTimeEntry_takes_confirmed_entry (online (Ok200 remoteVersion) 9000)
              manualWorld "manual-0" notBillable remoteVersion eq_refl eq_refl)
    as (s & Hrun & _ & _ & _ & _ & _ & _ & Ht & _).
  exists s. split; [exact Hrun | exact Ht].
Defined.

(** X18. For an id that [isLocalEntry] recognises and that the collection
    has, [editTimeEntry] returns the first entry of that id merged with the
    patch and stamped with the current time, puts it at the same place of
    the collection, every other place being unchanged, and makes sure the
    local cache has it: it replaces the first cached entry of that id, the
    rest of the cache being unchanged, or, when the cache has none, is
    appended at its end; the cache then grows by one entry, without the
    limit of 100 that the other writers apply. *)
Theorem editTimeEntry_local_id_updates_cache (env : Env) (w : World) (i : string)
    (data : Patch.t) :
  Entries.isLocalEntry i = true ->
  hasId i (timeEntries (store w)) = true ->
  exists k current s,
    firstWithId i (timeEntries (store w)) k /\
    timeEntries (store w) !! k = Some current /\
    let updated := TimeEntry.set_updated_at (clock env 0) (Entries.spread current data) in
    run (Entries.editTimeEntry i data) env w = (Ret updated, s) /\
    timeEntries (store (world s)) = <[k := updated]> (timeEntries (store w)) /\
    updated ∈ cacheOf (world s) /\
    (hasId i (cacheOf w) = false ->
     completed (world s) = Some (cacheOf w ++ [updated]) /\
     length (cacheOf (world s)) = S (length (cacheOf w))) /\
    (hasId i (cacheOf w) = true ->
     exists j, firstWithId i (cacheOf w) j /\
       completed (world s) = Some (<[j := updated]> (cacheOf w)) /\
       length (cacheOf (world s)) = length (cacheOf w)) /\
    isLoading (store (world s)) = false /\
    error (store (world s)) = None /\
    requests (trace s) = [].
Proof.
  intros Hlocal Hhas.
  destruct (hasId_first _ _ Hhas) as (k & current & Hk & Hfirst & Hc).
  destruct (editTimeEntry_locally env w i data k current (or_introl Hlocal) Hk Hc)
    as (s & Hrun & Hl & Hcache & Hload & Herr & Hreq).
  rewrite Hlocal in Hcache, Hreq.
  exists k, current, s. split; [exact Hfirst|]. split; [exact Hc|].
  cbv zeta. split; [exact Hrun|]. split; [exact Hl|].
  destruct (findIndex (Entries.sameId i) (cacheOf w)) as [j|] eqn:Hj.
  - assert (Hin : hasId i (cacheOf w) = true).
    { destruct (hasId i (cacheOf w)) eqn:H; [reflexivity|].
      apply findIndex_None_hasId in H. congruence. }
    split; [unfold cacheOf at 1; rewrite Hcache;
            now apply (elem_of_insert_found _ _ _ _ Hj)|].
    split; [intros H; congruence|].
    split; [|now repeat split].
    intros _. exists j. split; [now apply findIndex_first|]. split; [exact Hcache|].
    unfold cacheOf at 1. rewrite Hcache. apply length_insert.
  - assert (Hout : hasId i (cacheOf w) = false) by now apply findIndex_None_hasId.
    split; [unfold cacheOf at 1; rewrite Hcache;
            apply elem_of_app; right; apply list_elem_of_here|].
    split; [|split; [intros H; congruence | now repeat split]].
    intros _. split; [exact Hcache|].
    unfold cacheOf at 1. rewrite Hcache.
    change (length (cacheOf w ++ [TimeEntry.set_updated_at (clock env 0)
                                    (Entries.spread current data)])
            = S (length (cacheOf w))).
    rewrite length_app. cbn. lia.
Qed.

Lemma editTimeEntry_local_id_updates_cache_witness :
  let w := withTimer initialTimer
             {| timer := initialTimer;
                store := set_timeEntries [sampleEntry "temp-7" 0 0] initialEntries;
                completed := None |} in
  exists e s,
    run (Entries.editTimeEntry "temp-7" notBillable) (offline 5000) w = (Ret e, s) /\
    completed (world s) = Some [e] /\
    requests (trace s) = [].
Proof.
  cbv zeta.
  destruct (editTimeEntry_local_id_updates_cache (offline 5000)
              (withTimer initialTimer
                 {| timer := initialTimer;
                    store := set_timeEntries [sampleEntry "temp-7" 0 0] initialEntries;
                    completed := None |})
              "temp-7" notBillable eq_refl eq_refl)
    as (k & current & s & _ & _ & Hrun & _ & _ & Hpush & _ & _ & _ & Hreq).
  eexists _, s. split; [exact Hrun|]. split; [|exact Hreq].
  apply (proj1 (Hpush eq_refl)).
Defined.

End DeleteAndEdit.

(** ** Synchronising with the local cache *)

Section Sync.
Import TimeEntriesStore.

Lemma hasId_elem (e : TimeEntry.t) (l : list TimeEntry.t) :
  e ∈ l -> hasId (TimeEntry.id e) l = true.
Proof. intros He. apply hasId_true. now exists e. Qed.

Lemma pushMissing_covered (others acc : list TimeEntry.t) :
  (forall e, e ∈ others -> hasId (TimeEntry.id e) acc = true) ->
  Entries.pushMissing acc others = acc.
Proof.
  unfold Entries.pushMissing. induction others as [|o others IH]; intros H;
    [reflexivity|].
  cbn [fold_left]. rewrite (H o) by apply list_elem_of_here.
  apply IH. intros e He. apply H. now apply list_elem_of_further.
Qed.

Lemma sort_sorted_id (l : list TimeEntry.t) :
  StronglySorted laterFirst l -> Entries.sort l = l.
Proof.
  unfold Entries.sort. induction 1 as [|a l Hs IH Ha]; [reflexivity|].
  cbn [foldr]. rewrite IH. destruct l as [|b l]; [reflexivity|].
  cbn [Entries.insertSorted]. apply Forall_cons in Ha as [Hab _].
  unfold laterFirst in Hab. unfold Entries.compareFn.
  now replace (Entries.sortKey b - Entries.sortKey a <=? 0)%Z with true
    by (symmetry; apply Z.leb_le; lia).
Qed.

Lemma StronglySorted_take (n : nat) (l : list TimeEntry.t) :
  StronglySorted laterFirst l -> StronglySorted laterFirst (take n l).
Proof.
  intros Hs. revert n. induction Hs as [|a l Hs IH Ha]; intros [|n]; cbn;
    try constructor; [apply IH|].
  rewrite Forall_forall in *. intros x Hx. apply Ha.
  now apply (subseteq_take n l).
Qed.

Lemma syncWithLocalStorage_after (env : Env) (w : World) :
  let merged :=
    take 100 (Entries.sort (Entries.pushMissing (timeEntries (store w)) (cacheOf w))) in
  after Entries.syncWithLocalStorage env w =
    {| timer := timer w;
       store := set_timeEntries merged (store w);
       completed := Some merged |}.
Proof. reflexivity. Qed.

(** X19. [syncWithLocalStorage] brings the collection and the local cache
    to the same list: at most 100 entries, the latest first, each one taken
    from the collection or from the cache as they were.  Synchronising
    again changes nothing. *)
Theorem syncWithLocalStorage_settles (env env' : Env) (w : World) :
  let w1 := after Entries.syncWithLocalStorage env w in
  timeEntries (store w1) = cacheOf w1 /\
  completed w1 = Some (cacheOf w1) /\
  (length (cacheOf w1) <= 100)%nat /\
  StronglySorted laterFirst (cacheOf w1) /\
  (forall e, e ∈ cacheOf w1 -> e ∈ timeEntries (store w) \/ e ∈ cacheOf w) /\
  after Entries.syncWithLocalStorage env' w1 = w1.
Proof.
  cbv zeta. rewrite !syncWithLocalStorage_after. cbv zeta.
  set (all := Entries.pushMissing (timeEntries (store w)) (cacheOf w)).
  set (merged := take 100 (Entries.sort all)).
  unfold cacheOf at 1 2 3 4.
  cbn [store completed timer timeEntries set_timeEntries default from_option id].
  unfold id.
  assert (Hsorted : StronglySorted laterFirst merged)
    by apply StronglySorted_take, sort_sorted.
  assert (Hlen : (length merged <= 100)%nat) by (unfold merged; rewrite length_take; lia).
  split; [reflexivity|]. split; [reflexivity|]. split; [exact Hlen|].
  split; [exact Hsorted|]. split.
  - intros e He. unfold merged in He. apply subseteq_take in He.
    rewrite sort_perm in He. unfold all in He.
    destruct (pushMissing_spec (cacheOf w) (timeEntries (store w)))
      as (extra & Heq & Hsub & _).
    rewrite Heq in He. apply elem_of_app in He as [He | He]; [now left | right].
    eapply elem_of_sublist; eassumption.
  - unfold cacheOf. cbn [completed default from_option id]. unfold id.
    rewrite pushMissing_covered by (intros e He; now apply hasId_elem).
    rewrite (sort_sorted_id merged Hsorted), take_ge by exact Hlen.
    reflexivity.
Qed.

(** X20. [loadFromLocalStorage] does nothing at all when the cache key is
    absent.  When the key is there, every cached entry is in the collection
    afterwards, and if the cached list has no two entries with the same id,
    neither has the collection, whatever it held before. *)
Theorem loadFromLocalStorage_keeps_ids_unique (env : Env) (w : World) :
  (completed w = None ->
   run Entries.loadFromLocalStorage env w =
     (Ret tt, {| world := w; ticks := 0; trace := [] |})) /\
  (forall cached,
     completed w = Some cached ->
     let l' := timeEntries (store (after Entries.loadFromLocalStorage env w)) in
     (forall e, e ∈ cached -> e ∈ l') /\
     (NoDup (map TimeEntry.id cached) -> NoDup (map TimeEntry.id l'))).
Proof.
  split.
  - intros Hc. unfold Entries.loadFromLocalStorage. run_m. now rewrite Hc.
  - intros cached Hc. cbv zeta.
    unfold after, Entries.loadFromLocalStorage. run_a. rewrite Hc. run_a.
    cbn [timeEntries set_timeEntries].
    destruct (pushMissing_spec (timeEntries (store w)) cached)
      as (extra & -> & _ & Hnd & Hnew & _).
    split.
    + intros e He. rewrite sort_perm. apply elem_of_app. now left.
    + intros Hcached.
      assert (Hperm : map TimeEntry.id (Entries.sort (cached ++ extra))
                      ≡ₚ map TimeEntry.id (cached ++ extra))
        by (apply Permutation_map, sort_perm).
      rewrite Hperm, map_app. apply NoDup_app. split; [exact Hcached|].
      split; [|exact Hnd].
      intros i (c & -> & Hcin)%list_elem_of_fmap (e & Heq & He)%list_elem_of_fmap.
      apply (hasId_false _ _ c (Hnew e He) Hcin). now symmetry.
Qed.

Lemma loadFromLocalStorage_keeps_ids_unique_witness :
  run Entries.loadFromLocalStorage (offline 0) initialWorld =
    (Ret tt, {| world := initialWorld; ticks := 0; trace := [] |}) /\
  NoDup (map TimeEntry.id
           (timeEntries (store (after Entries.loadFromLocalStorage (offline 0) staleWorld)))).
Proof.
  split.
  - apply (proj1 (loadFromLocalStorage_keeps_ids_unique (offline 0) initialWorld)).
    reflexivity.
  - apply (proj2 (loadFromLocalStorage_keeps_ids_unique (offline 0) staleWorld)
             staleCache eq_refl).
    cbn. repeat (apply NoDup_cons; split;
      [intros H; repeat (apply elem_of_cons in H as [H | H]; [discriminate H|]);
       now apply elem_of_nil in H|]).
    apply NoDup_nil_2.
Defined.

End Sync.

(** ** Talking to the remote *)

Section RemoteActions.
Import TimeEntriesStore.

(** X21. [fetchTimeEntries] never raises and always ends with the loading
    flag down.  When the remote answers with a list, the collection becomes
    exactly that list (the [results] of a page, or the bare array), so
    entries that only the collection had are gone from it, and the error is
    cleared.  When the remote fails, the collection is left as it was and
    the failure is recorded as the error of the store: ['Failed to fetch
    time entries: '] with the status text, or the message of what was
    raised.  The session and the local cache are never touched. *)
Theorem fetchTimeEntries_replaces_or_keeps
    (listEntries : Entries.Filters -> Entries.ListReply) (env : Env) (w : World)
    (filters : Entries.Filters) :
  exists s,
    run (Entries.fetchTimeEntries listEntries filters) env w = (Ret tt, s) /\
    isLoading (store (world s)) = false /\
    timer (world s) = timer w /\
    completed (world s) = completed w /\
    match listEntries filters with
    | Entries.ListOk (Entries.Paginated results) =>
        timeEntries (store (world s)) = results /\ error (store (world s)) = None
    | Entries.ListOk (Entries.Plain entries) =>
        timeEntries (store (world s)) = entries /\ error (store (world s)) = None
    | Entries.ListNotOk statusText =>
        timeEntries (store (world s)) = timeEntries (store w) /\
        error (store (world s)) = Some ("Failed to fetch time entries: " +:+ statusText)
    | Entries.ListRaises message =>
        timeEntries (store (world s)) = timeEntries (store w) /\
        error (store (world s)) = Some message
    end.
Proof.
  unfold Entries.fetchTimeEntries. run_m.
  destruct (listEntries filters) as [[results|entries]|statusText|message]; run_m;
    eexists; (split; [reflexivity|]); repeat split.
Qed.

(** X22. [submitTimeEntry] adopts the entry the remote answers with: it
    returns it, with no error recorded.  In the collection, every entry
    under the id of the entry submitted is first merged with the remote's
    entry, the others staying as they are at their places; the remote's
    entry is then put in place of the first entry under its own id, the
    rest staying as it is, or in front when there is none.  When the
    remote does not confirm, it raises, records the message as the error of
    the store and leaves the collection as it was.  The loading flag is
    down in both cases, and the session and the local cache are not
    touched. *)
Theorem submitTimeEntry_adopts_confirmed_entry (clockOut : Response) (env : Env)
    (w : World) (entry : TimeEntry.t) :
  match clockOut with
  | Ok200 updatedEntry =>
      exists s merged,
        run (Entries.submitTimeEntry clockOut entry) env w = (Ret updatedEntry, s) /\
        length merged = length (timeEntries (store w)) /\
        (forall k e, timeEntries (store w) !! k = Some e ->
           merged !! k =
             Some (if String.eqb (TimeEntry.id e) (TimeEntry.id entry)
                   then Entries.spread e (Entries.asPatch updatedEntry) else e)) /\
        (hasId (TimeEntry.id updatedEntry) merged = false ->
         timeEntries (store (world s)) = updatedEntry :: merged) /\
        (hasId (TimeEntry.id updatedEntry) merged = true ->
         exists k, firstWithId (TimeEntry.id updatedEntry) merged k /\
           timeEntries (store (world s)) = <[k := updatedEntry]> merged) /\
        updatedEntry ∈ timeEntries (store (world s)) /\
        error (store (world s)) = None /\
        isLoading (store (world s)) = false /\
        timer (world s) = timer w /\ completed (world s) = completed w
  | _ =>
      exists msg s,
        run (Entries.submitTimeEntry clockOut entry) env w = (Throw msg, s) /\
        timeEntries (store (world s)) = timeEntries (store w) /\
        error (store (world s)) = Some msg /\
        isLoading (store (world s)) = false /\
        timer (world s) = timer w /\ completed (world s) = completed w
  end.
Proof.
  unfold Entries.submitTimeEntry, Entries.updateTimeEntry, Entries.addTimeEntry.
  destruct clockOut as [updatedEntry|statusText|]; run_m.
  - eexists.
    exists (map (fun e => if Entries.sameId (TimeEntry.id entry) e
                          then Entries.spread e (Entries.asPatch updatedEntry) else e)
              (timeEntries (store w))).
    split; [reflexivity|].
    cbn [world store timer completed timeEntries isLoading error
         set_timeEntries set_isLoading set_error].
    split; [apply length_map|].
    split.
    { intros k e He. change (map ?f ?l) with (fmap (M := list) f l).
      now rewrite list_lookup_fmap, He. }
    match goal with
    | |- context [findIndex ?p ?l] => destruct (findIndex p l) as [k|] eqn:Ek
    end; cbn [timeEntries set_timeEntries].
    + split; [intros H; apply findIndex_None_hasId in H; congruence|].
      split; [intros _; exists k; split; [now apply findIndex_first | reflexivity]|].
      split; [now apply (elem_of_insert_found _ _ _ _ Ek)|]. repeat split.
    + split; [reflexivity|].
      split; [intros H; apply findIndex_None_hasId in Ek; congruence|].
      split; [apply list_elem_of_here|]. repeat split.
  - eexists _, _. split; [reflexivity|]. repeat split.
  - eexists _, _. split; [reflexivity|]. repeat split.
Qed.

Lemma submitTimeEntry_adopts_confirmed_entry_witness :
  exists s,
    run (Entries.submitTimeEntry (Ok200 (sampleEntry "a" 0 9)) (sampleEntry "c" 0 0))
      (offline 0) staleWorld = (Ret (sampleEntry "a" 0 9), s) /\
    timeEntries (store (world s)) = <[0%nat := sampleEntry "a" 0 9]> fresherStore.
Proof.
  pose proof (submitTimeEntry_adopts_confirmed_entry (Ok200 (sampleEntry "a" 0 9))
                (offline 0) staleWorld (sampleEntry "c" 0 0)) as H.
  cbv beta iota in H.
  destruct H as (s & merged & Hrun & Hlen & Hlook & _ & Hrep & _).
  assert (Hm : merged = fresherStore).
  { apply list_eq. intros [|[|k]].
    - now rewrite (Hlook 0%nat _ eq_refl).
    - now rewrite (Hlook 1%nat _ eq_refl).
    - rewrite !lookup_ge_None_2; [reflexivity | cbn; lia | rewrite Hlen; cbn; lia]. }
  subst merged.
  destruct (Hrep eq_refl) as (k & [_ Hfirst] & Hl).
  assert (Hk : k = 0%nat).
  { destruct k as [|k]; [reflexivity | exfalso].
    apply (Hfirst 0%nat (sampleEntry "a" (3 * hour) 2000000)); [lia | reflexivity..]. }
  subst k. exists s. split; [exact Hrun | exact Hl].
Defined.

(** X23. [createManualEntry] never raises and never drops the input: for
    every form and whatever the remote does, after one create request it
    returns an entry that the collection then holds and that is in front of
    the local cache, cut to 100 entries; the loading flag is down, no error
    is recorded and the session is not touched.  When the remote does not
    confirm, the entry is made from the form alone: submitted, with the
    form's project, description, billable flag, date and times, no breaks,
    and an id of ['manual-'] followed by the clock. *)
Theorem createManualEntry_always_adopts (env : Env) (w : World) (data : TimeEntryForm.t) :
  exists e s,
    run (Entries.createManualEntry data) env w = (Ret e, s) /\
    e ∈ timeEntries (store (world s)) /\
    completed (world s) = Some (take 100 (e :: cacheOf w)) /\
    isLoading (store (world s)) = false /\
    error (store (world s)) = None /\
    timer (world s) = timer w /\
    requests (trace s) = [CreateEntry (Entries.entryData data)] /\
    ((forall body, remote env (CreateEntry (Entries.entryData data)) <> Ok200 body) ->
     let m := TimeEntryForm.manual_entry data in
     TimeEntry.id e = "manual-" +:+ pretty (clock env 0) /\
     TimeEntry.status e = submitted /\
     TimeEntry.project_id e = TimeEntryForm.project_id data /\
     TimeEntry.description e = TimeEntryForm.description data /\
     TimeEntry.billable e = TimeEntryForm.billable data /\
     TimeEntry.date e = ManualEntry.date m /\
     TimeEntry.clock_in e = isoUtc (ManualEntry.date m) (ManualEntry.start_time m) /\
     TimeEntry.clock_out e = Some (isoUtc (ManualEntry.date m) (ManualEntry.end_time m)) /\
     TimeEntry.break_entries e = [] /\
     TimeEntry.created_at e = Some (clock env 1) /\
     TimeEntry.updated_at e = clock env 2).
Proof.
  unfold Entries.createManualEntry, Entries.addTimeEntry, cacheOf. run_m.
  destruct (remote env (CreateEntry (Entries.entryData data))) as [body|st|] eqn:E;
    run_m; eexists _, _; (split; [reflexivity|]);
    cbn [world store timer completed trace timeEntries isLoading error
         set_timeEntries set_isLoading set_error].
  all: split;
    [destruct (findIndex _ _) as [k|] eqn:Ek; cbn [timeEntries set_timeEntries];
       [now apply (elem_of_insert_found _ _ _ _ Ek) | apply list_elem_of_here]|].
  all: split; [reflexivity|].
  all: do 2 (split;
    [lazymatch goal with
     | |- context [findIndex ?p ?l] => now destruct (findIndex p l)
     | _ => reflexivity
     end|]).
  all: split; [reflexivity|]. all: split; [reflexivity|].
  - intros Hno. exfalso. exact (Hno body eq_refl).
  - intros _. repeat split.
  - intros _. repeat split.
Qed.

Lemma createManualEntry_always_adopts_witness :
  exists e s,
    run (Entries.createManualEntry oneMinuteForm) (offline 0) initialWorld = (Ret e, s) /\
    TimeEntry.id e = "manual-0"%string /\
    TimeEntry.status e = submitted.
Proof.
  destruct (createManualEntry_always_adopts (offline 0) initialWorld oneMinuteForm)
    as (e & s & Hrun & _ & _ & _ & _ & _ & _ & Hlocal).
  destruct Hlocal as (Hid & Hst & _); [intros body H; discriminate H|].
  exists e, s. split; [exact Hrun|]. split; [|exact Hst].
  rewrite Hid. vm_compute. reflexivity.
Defined.

End RemoteActions.

(** ** The timer page *)

Section PageHandlers.
Import TimeEntriesStore.
Local Open Scope Q_scope.

(** X24. What the page does with a submitted entry (add it, synchronise,
    fetch): it never raises; the local cache ends up sorted, latest first,
    with at most 100 entries, and holds the submitted entry unless the
    limit cut it off.  If the fetch fails the collection is that same list
    and the failure is recorded; if the fetch succeeds the collection is
    the remote's list, whatever the cache holds. *)
Theorem handleTimeEntrySubmitted_outcome
    (listEntries : Entries.Filters -> Entries.ListReply) (env : Env) (w : World)
    (detail : TimeEntry.t) :
  exists s merged,
    run (Page.handleTimeEntrySubmitted listEntries detail) env w = (Ret tt, s) /\
    completed (world s) = Some merged /\
    (length merged <= 100)%nat /\
    StronglySorted laterFirst merged /\
    (detail ∈ merged \/ length merged = 100%nat) /\
    timer (world s) = timer w /\
    isLoading (store (world s)) = false /\
    match listEntries {| Entries.date_from := None; Entries.date_to := None |} with
    | Entries.ListOk (Entries.Paginated results) =>
        timeEntries (store (world s)) = results /\ error (store (world s)) = None
    | Entries.ListOk (Entries.Plain entries) =>
        timeEntries (store (world s)) = entries /\ error (store (world s)) = None
    | Entries.ListNotOk statusText =>
        timeEntries (store (world s)) = merged /\
        error (store (world s)) = Some ("Failed to fetch time entries: " +:+ statusText)
    | Entries.ListRaises message =>
        timeEntries (store (world s)) = merged /\
        error (store (world s)) = Some message
    end.
Proof.
  pose (l1 := timeEntries (store (after (Entries.addTimeEntry detail) env w))).
  pose (merged := take 100 (Entries.sort (Entries.pushMissing l1 (cacheOf w)))).
  assert (Hin : detail ∈ l1) by apply addTimeEntry_member.
  assert (Hlen : (length merged <= 100)%nat) by (unfold merged; rewrite length_take; lia).
  assert (Hcut : detail ∈ merged \/ length merged = 100%nat).
  { unfold merged. rewrite length_take.
    destruct (Nat.le_gt_cases (length (Entries.sort (Entries.pushMissing l1 (cacheOf w)))) 100)
      as [Hle | Hgt]; [left | right; lia].
    rewrite take_ge by exact Hle. rewrite sort_perm.
    destruct (pushMissing_spec (cacheOf w) l1) as (extra & -> & _).
    apply elem_of_app. now left. }
  exists (snd (run (Page.handleTimeEntrySubmitted listEntries detail) env w)), merged.
  unfold Page.handleTimeEntrySubmitted, Entries.fetchTimeEntries,
    Entries.syncWithLocalStorage, Entries.addTimeEntry.
  unfold merged, l1, after, Entries.addTimeEntry, cacheOf in *. revert Hcut Hlen.
  run_a.
  destruct (listEntries {| Entries.date_from := None; Entries.date_to := None |})
    as [[results|entries]|statusText|message]; run_a;
    cbn [timeEntries isLoading error set_timeEntries set_isLoading set_error];
    intros Hcut Hlen;
    (split; [reflexivity|]); (split; [reflexivity|]); (split; [exact Hlen|]);
    (split; [apply StronglySorted_take, sort_sorted|]); (split; [exact Hcut|]);
    repeat split.
Qed.

(** X25. Saving the edit dialog never raises.  When it works on the
    collection alone (the id of the entry is one that [isLocalEntry]
    recognises, or the remote does not confirm) and the collection has an
    entry of that id, the first such entry is replaced, every other place
    being unchanged, by one that carries what the form says: its project,
    description, billable flag and date, its start and end labelled as UTC
    as clock-in and clock-out, and hours computed anew, as on creation,
    from the span between the start and the end read as local times: the
    hours of that span to the precision of a double, split at eight hours
    into regular and overtime hours, with the total rounded by
    [toFixed(2)].  That span is the span between the clock-in and the
    clock-out when the zone has the same offset at both times.  The entry
    is stamped with the current time and keeps its id. *)
Theorem handleEditSubmit_recomputes_hours (env : Env) (w : World) (entry : TimeEntry.t)
    (data : Page.ManualEntryFormData) :
  (exists s, run (Page.handleEditSubmit entry data) env w = (Ret tt, s)) /\
  (hasId (TimeEntry.id entry) (timeEntries (store w)) = true ->
   Entries.isLocalEntry (TimeEntry.id entry) = true \/
     (forall body,
        remote env (PatchEntry (TimeEntry.id entry)
                      (Page.updateData (tzOffset env) data)) <> Ok200 body) ->
   exists k current e',
     firstWithId (TimeEntry.id entry) (timeEntries (store w)) k /\
     timeEntries (store w) !! k = Some current /\
     timeEntries (store (after (Page.handleEditSubmit entry data) env w)) =
       <[k := e']> (timeEntries (store w)) /\
     TimeEntry.id e' = TimeEntry.id entry /\
     TimeEntry.project_id e' = Some (Page.projectId data) /\
     TimeEntry.description e' = Some (Page.description data) /\
     TimeEntry.billable e' = Page.billable data /\
     TimeEntry.date e' = Page.date data /\
     TimeEntry.clock_in e' = isoUtc (Page.date data) (Page.startTime data) /\
     TimeEntry.clock_out e' = Some (isoUtc (Page.date data) (Page.endTime data)) /\
     TimeEntry.updated_at e' = clock env 0 /\
     let startDateTime := parseLocal (tzOffset env) (Page.date data) (Page.startTime data) in
     let endDateTime := parseLocal (tzOffset env) (Page.date data) (Page.endTime data) in
     let worked := totalHours startDateTime endDateTime in
     hoursOfSpan worked (endDateTime - startDateTime) /\
     TimeEntry.regular_hours e' == Qmin worked 8 /\
     TimeEntry.overtime_hours e' == Qmax 0 (worked - 8) /\
     TimeEntry.regular_hours e' + TimeEntry.overtime_hours e' == worked /\
     TimeEntry.total_hours e' == toFixed2 worked /\
     (tzOffset env (isoUtc (Page.date data) (Page.startTime data)) =
      tzOffset env (isoUtc (Page.date data) (Page.endTime data)) ->
      (endDateTime - startDateTime =
       isoUtc (Page.date data) (Page.endTime data)
       - isoUtc (Page.date data) (Page.startTime data))%Z)).
Proof.
  split.
  - unfold Page.handleEditSubmit, Page.handleEditEntry. run_m.
    destruct (Entries.editTimeEntry _ _ env _) as [[e|msg] s']; eexists; reflexivity.
  - intros Hhas Hcase.
    destruct (hasId_first _ _ Hhas) as (k & current & Hk & Hfirst & Hc).
    destruct (editTimeEntry_locally env w (TimeEntry.id entry)
                (Page.updateData (tzOffset env) data) k current Hcase Hk Hc)
      as (s & Hrun & Hl & _).
    destruct Hfirst as [[c' [Hc' Hid]] Hlt]. rewrite Hc in Hc'. injection Hc' as <-.
    exists k, current. eexists.
    split; [split; [exists current; now split | exact Hlt]|]. split; [exact Hc|].
    assert (Hafter : timeEntries (store (after (Page.handleEditSubmit entry data) env w)) =
                     timeEntries (store (world s))).
    { unfold after, Page.handleEditSubmit, Page.handleEditEntry. run_a.
      change (Entries.editTimeEntry ?i ?d env {| world := w; ticks := 0; trace := [] |})
        with (run (Entries.editTimeEntry i d) env w).
      now rewrite Hrun. }
    rewrite Hafter, Hl. split; [reflexivity|].
    cbn [TimeEntry.id TimeEntry.project_id TimeEntry.description TimeEntry.billable
         TimeEntry.date TimeEntry.clock_in TimeEntry.clock_out TimeEntry.updated_at
         TimeEntry.regular_hours TimeEntry.overtime_hours TimeEntry.total_hours
         TimeEntry.set_updated_at Entries.spread Page.updateData
         Patch.id Patch.project_id Patch.description Patch.billable Patch.date
         Patch.clock_in Patch.clock_out Patch.regular_hours Patch.overtime_hours
         Patch.total_hours default from_option].
    unfold id. do 8 (split; [first [reflexivity | exact Hid]|]).
    cbv zeta. split; [apply totalHours_accurate|].
    split; [reflexivity|]. split; [reflexivity|]. split; [apply hours_split|].
    split; [reflexivity|].
    intros Hsame. unfold parseLocal, isoUtc in *. cbv zeta. lia.
Qed.

Lemma handleEditSubmit_recomputes_hours_witness :
  let w := {| timer := initialTimer;
              store := set_timeEntries [sampleEntry "temp-7" 0 0] initialEntries;
              completed := None |} in
  let data := {| Page.date := 0; Page.startTime := 540; Page.endTime := 1050;
                 Page.projectId := "2"; Page.description := [0x79%N];
                 Page.billable := true |} in
  exists e',
    timeEntries (store (after (Page.handleEditSubmit (sampleEntry "temp-7" 0 0) data)
                          (offline 5000) w)) = [e'] /\
    TimeEntry.clock_out e' = Some (1050 * 60000)%Z /\
    TimeEntry.regular_hours e' == 8 /\
    TimeEntry.overtime_hours e' == 1 # 2 /\
    TimeEntry.total_hours e' == 17 # 2.
Proof.
  cbv zeta.
  destruct (proj2 (handleEditSubmit_recomputes_hours (offline 5000)
              {| timer := initialTimer;
                 store := set_timeEntries [sampleEntry "temp-7" 0 0] initialEntries;
                 completed := None |}
              (sampleEntry "temp-7" 0 0)
              {| Page.date := 0; Page.startTime := 540; Page.endTime := 1050;
                 Page.projectId := "2"; Page.description := [0x79%N];
                 Page.billable := true |}) eq_refl)
    as (k & current & e' & _ & Hc & He' & _ & _ & _ & _ & _ & _ & Hout & _ & _
        & Hr & Ho & _ & Ht & _).
  - left. reflexivity.
  - destruct k as [|k]; [|destruct k; discriminate Hc].
    exists e'. split; [exact He'|]. split; [exact Hout|].
    split; [rewrite Hr | split; [rewrite Ho | rewrite Ht]]; vm_compute; reflexivity.
Defined.

End PageHandlers.

(** ** Hours helpers *)

Section HoursHelpers.
Local Open Scope Q_scope.


Lemma round_spec (x : Q) :
  inject_Z (Utils.round x) <= x + (1 # 2) /\ x - (1 # 2) < inject_Z (Utils.round x).
Proof.
  unfold Utils.round.
  pose proof (Qfloor_le (x + (1 # 2))) as Hlo.
  pose proof (Qlt_floor (x + (1 # 2))) as Hhi.
  rewrite inject_Z_plus in Hhi. change (inject_Z 1) with 1 in Hhi.
  split; lra.
Qed.

(** X27. For a duration that is not negative, [formatTime] prints a
    consistent clock reading of the seconds rounded to the nearest whole
    number: minutes and seconds are below 60, hours, minutes and seconds
    add up to the rounded duration, and the hours are printed exactly from
    one hour on; minutes and seconds are then padded to two digits. *)
Theorem formatTime_reading (seconds : Q) :
  0 <= seconds ->
  let total := Utils.round seconds in
  let '(hours, minutes, secs) := Utils.timeParts seconds in
  (0 <= total)%Z /\
  Qabs (inject_Z total - seconds) <= 1 # 2 /\
  (0 <= hours)%Z /\ (0 <= minutes < 60)%Z /\ (0 <= secs < 60)%Z /\
  (hours * 3600 + minutes * 60 + secs = total)%Z /\
  Utils.formatTime seconds =
    (if (3600 <=? total)%Z
     then pretty hours +:+ ":" +:+ Utils.padStart2 (pretty minutes)
          +:+ ":" +:+ Utils.padStart2 (pretty secs)
     else pretty minutes +:+ ":" +:+ Utils.padStart2 (pretty secs)).
Proof.
  intros Hs. cbv zeta. unfold Utils.formatTime, Utils.timeParts.
  destruct (round_spec seconds) as [Hlo Hhi].
  set (total := Utils.round seconds) in *.
  assert (Hnonneg : (0 <= total)%Z).
  { assert (H : -1 < inject_Z total) by lra.
    change (-1) with (inject_Z (-1)) in H.
    rewrite <- Zlt_Qlt in H. lia. }
  rewrite !Z.rem_mod_nonneg by lia.
  split; [exact Hnonneg|]. split.
  { apply Qabs_Qle_condition. split; lra. }
  split; [apply Z.div_pos; lia|].
  split; [split; [apply Z.div_pos; [apply Z.mod_pos_bound|]; lia|];
          apply Z.div_lt_upper_bound; [lia|];
          pose proof (Z.mod_pos_bound total 3600); lia|].
  split; [apply Z.mod_pos_bound; lia|].
  split.
  { pose proof (Z.div_mod total 3600 ltac:(lia)) as H1.
    pose proof (Z.div_mod (total mod 3600) 60 ltac:(lia)) as H2.
    assert (H3 : ((total mod 3600) mod 60 = total mod 60)%Z).
    { apply Z.mod_mod_divide. now exists 60%Z. }
    lia. }
  destruct (Z.leb_spec 3600 total) as [Hge | Hlt].
  - assert ((0 <? total / 3600)%Z = true) as ->; [|reflexivity].
    apply Z.ltb_lt. apply Z.div_str_pos. lia.
  - assert ((0 <? total / 3600)%Z = false) as ->; [|reflexivity].
    apply Z.ltb_ge. rewrite Z.div_small by lia. lia.
Qed.

Lemma formatTime_reading_witness :
  0 <= 3725 + (2 # 5) /\
  Utils.timeParts (3725 + (2 # 5)) = (1, 2, 5)%Z /\
  Utils.formatTime (3725 + (2 # 5)) = "1:02:05"%string.
Proof.
  assert (H0 : 0 <= 3725 + (2 # 5)) by (vm_compute; discriminate).
  split; [exact H0|].
  pose proof (formatTime_reading (3725 + (2 # 5)) H0) as H.
  cbv zeta in H.
  destruct (Utils.timeParts (3725 + (2 # 5))) as [[hours minutes] secs] eqn:E.
  destruct H as (_ & _ & _ & _ & _ & _ & Hfmt).
  vm_compute in E. injection E as <- <- <-.
  split; [reflexivity|]. rewrite Hfmt. vm_compute. reflexivity.
Defined.

End HoursHelpers.
